(** * AEBridge: the After Effects side of the Nuke bridge

    A shallow embedding of the two ExtendScript programs of the repository,

    - [AEBridge_Startup.jsx]: creates or updates the project (compositions,
      footage, layers) from the JSON configuration written by Nuke;
    - [AEBridge_Render.jsx]: opens a saved project, configures the output
      module of a render-queue item and renders.

    ExtendScript numbers are modelled as exact rationals ([Q]); floating-point
    rounding is not modelled.  The After Effects object model is modelled as
    an explicit project graph ([Host]); every host call that the scripts wrap
    in [try]/[catch] may be refused by the host, which is modelled by a fixed
    oracle [fails] over the host operations.  Exceptions are threaded through
    a small state-and-exception monad in which the state reached at the point
    of the [throw] is kept, as in JavaScript.

    Not modelled: the progress window and its throttling, the preference
    write at the top of both scripts, undo groups, [$.sleep],
    [app.exitAfterLaunchAndEval], [rq.queueInAME] and the time stamps of the
    log files.  The line number that ExtendScript attaches to an error
    ([err.line], written to the error log by both [catch] handlers) is given
    by the host ([errLine]). *)

From Stdlib Require Import QArith Qabs String Ascii List Bool Lia.
From stdpp Require Import gmap strings list pretty.

Local Set Warnings "-register-all".
Local Open Scope string_scope.

(** ** JavaScript values read from the parsed configuration *)

Module Js.

Inductive value :=
| VUndef
| VNull
| VBool (b : bool)
| VNum (q : Q)
| VStr (s : string)
| VArr (l : list value)
| VObj (m : gmap string value).

(** ToBoolean.  [NaN] cannot come out of [JSON.parse]. *)
Definition truthy (v : value) : bool :=
  match v with
  | VUndef | VNull => false
  | VBool b => b
  | VNum q => negb (Qeq_bool q 0)
  | VStr s => negb (String.eqb s "")
  | VArr _ | VObj _ => true
  end.

(** [v || d] *)
Definition or (v d : value) : value := if truthy v then v else d.

(** [o.k] on the parsed top-level object: [undefined] when absent. *)
Definition prop (o : gmap string value) (k : string) : value :=
  default VUndef (o !! k).

(** [v.k] on a value known not to be [null]/[undefined]: primitives have no
    own JSON properties. *)
Definition field (v : value) (k : string) : value :=
  match v with
  | VObj m => prop m k
  | _ => VUndef
  end.

Definition num (z : Z) : value := VNum (inject_Z z).

Definition asNum (v : value) : option Q :=
  match v with VNum q => Some q | _ => None end.

Definition asStr (v : value) : option string :=
  match v with VStr s => Some s | _ => None end.

End Js.

Import Js.

(** ** Reading the configuration (the [||] defaults of both scripts) *)

Module Config.

(** [AEBridge_Startup.jsx], lines 162-178: the values bound from [config]. *)
Record StartupRaw := {
  FRAME_RATE : value;
  GLOBAL_FIRST : value;
  GLOBAL_LAST : value;
  COMP_NAME : value;
  COMP_WIDTH : value;
  COMP_HEIGHT : value;
  items : value;
  PROJECT_PATH : value;
  OUTPUT_PATH : value;
  SHOULD_RENDER : value;
  NUKE_COLORSPACE : value;
  NUKE_WORKING_SPACE : value;
  NUKE_OUTPUT_TRANSFORM : value;
  ACES_COMPLIANT : value
}.

Definition readStartup (config : gmap string value) : StartupRaw := {|
  FRAME_RATE := or (prop config "frame_rate") (num 24);
  GLOBAL_FIRST := or (prop config "global_first") (num 1);
  GLOBAL_LAST := or (prop config "global_last") (num 100);
  COMP_NAME := or (prop config "comp_name") (VStr "AEBridge");
  COMP_WIDTH := or (prop config "width") (num 1920);
  COMP_HEIGHT := or (prop config "height") (num 1080);
  items := or (prop config "items") (VArr []);
  PROJECT_PATH := prop config "project_path";
  OUTPUT_PATH := or (prop config "output_path") (VStr "");
  SHOULD_RENDER := or (prop config "should_render") (VBool false);
  NUKE_COLORSPACE := or (prop config "nuke_colorspace") (VStr "scene_linear");
  NUKE_WORKING_SPACE := or (prop config "nuke_working_space") (VStr "linear");
  NUKE_OUTPUT_TRANSFORM := or (prop config "nuke_output_transform") (VStr "");
  ACES_COMPLIANT := or (prop config "aces_compliant") (VBool false)
|}.

(** [AEBridge_Render.jsx], lines 109-122.  [Number(...)] and [!!...] are
    applied when the values are used ([Render.typed]). *)
Record RenderRaw := {
  projectPath : value;
  compName : value;
  frameRate : value;
  globalFirst : value;
  globalLast : value;
  outputPath : value;
  outputSettings : value;
  templateName : value;
  desiredChannels : value;
  desiredDepth : value;
  desiredColor : value;
  desiredQuality : value;
  desiredPremult : value
}.

Definition readRender (cfg : gmap string value) : RenderRaw :=
  let outputSettings := or (prop cfg "output_settings") (VObj ∅) in {|
  projectPath := prop cfg "project_path";
  compName := or (prop cfg "comp_name") (VStr "AEBridge");
  frameRate := or (prop cfg "frame_rate") (num 24);
  globalFirst := or (prop cfg "global_first") (num 0);
  globalLast := or (prop cfg "global_last") (num 0);
  outputPath := prop cfg "output_path";
  outputSettings := outputSettings;
  templateName := or (field outputSettings "template_name") (VStr "");
  desiredChannels := or (field outputSettings "channels") (VStr "RGB + Alpha");
  desiredDepth := or (field outputSettings "depth") (VStr "16 Bits/Channel");
  desiredColor := or (field outputSettings "color") (VStr "Straight (Unmatted)");
  desiredQuality := or (field outputSettings "quality") (num 100);
  desiredPremult := field outputSettings "premultiplied"
|}.

(** How a script is started: no path to the configuration, no file at that
    path, a file that does not parse, or a parsed configuration. *)
Inductive Launch :=
| NoConfigPath
| NoConfigFile (configPath : string)
| BadJson (err : string)
| Parsed (config : gmap string value).

End Config.

(** ** The host: After Effects' project graph

    What the model takes from the scripting guide of the host:
    - items and layers are objects; an object is told from another by an
      identity that the project hands out from a counter ([nextId]);
    - [proj.items] lists the items in the order of their creation;
    - [layers.add(src)] puts the new layer on top of the stack, named after
      its source; [layers.addSolid] also adds the solid to the project as a
      footage item of its own; [layer.remove()] removes the layer and leaves
      its source in the project;
    - replacing the file of a footage item keeps the item and its name;
    - enabling time remapping gives the layer two keys;
    - [comp.displayStartFrame] and [comp.displayStartTime] are one setting,
      in frames and in seconds;
    - whether the host refuses an operation depends on the operation and on
      the object only ([fails]); a refused operation throws and changes
      nothing. *)

Module Host.

Inductive AlphaMode := AlphaHost | AlphaStraight | AlphaGuessed.

(** A [FootageItem] and its [mainSource].  [file] is [mainSource.file.fsName];
    a solid has none. *)
Record Footage := {
  file : option string;
  isStill : bool;
  fduration : Q;
  conformFrameRate : Q;
  alphaMode : AlphaMode
}.

(** An [AVLayer].  [lid] stands for the identity of the object ([===]).
    [remapKeys] are the keys of the time remapping, (time, value) pairs at
    composition time; a write to the name, the source or the timing of the
    layer leaves them in place. *)
Record Layer := {
  lid : nat;
  lname : string;
  source : nat;
  startTime : Q;
  inPoint : Q;
  outPoint : Q;
  timeRemapEnabled : bool;
  remapKeys : list (Q * Q)
}.

(** A [CompItem].  [layers] is in stacking order, index 1 first. *)
Record Comp := {
  width : Q;
  height : Q;
  cframeRate : Q;
  duration : Q;
  displayStartTime : Q;
  workAreaStart : Q;
  workAreaDuration : Q;
  layers : list Layer
}.

Inductive Body :=
| CompItem (c : Comp)
| FootageItem (f : Footage).

Record Item := { iid : nat; iname : string; body : Body }.

(** One write that reached the output module, in the order of arrival. *)
Inductive OmWrite :=
| WTemplate (name : string)
| WSetting (group key : string) (v : value)
| WIncludeSourceXMP
| WFile (path : string).

Record RQItem := {
  rqComp : nat;
  timeSpanStart : Q;
  timeSpanDuration : Q;
  om : list OmWrite
}.

Record Project := {
  pitems : list Item;
  nextId : nat;
  pfile : option string;
  timeDisplayFrames : bool;
  colorEngine : nat;
  workingSpace : string;
  linearBlending : bool;
  renderQueue : list RQItem
}.

(** The application: the open project, the project files on disk, and what
    the user gets to see (alerts, log files, finished renders). *)
Record App := {
  project : Project;
  disk : gmap string Project;
  alerts : list string;
  logs : gmap string (list string);
  renders : nat
}.

(** The host operations that can be refused. *)
Inductive Op :=
| OpOpen | OpNewProject | OpSave | OpPurge | OpCreateFolder (path : string)
| OpSetTimeDisplayType | OpSetColorEngine | OpSetWorkingSpace (ws : string)
| OpSetLinearBlending
| OpAddComp (name : string)
| OpSetFrameRate (c : nat) | OpSetDuration (c : nat)
| OpSetWidth (c : nat) | OpSetHeight (c : nat)
| OpSetDisplayStartFrame (c : nat) | OpSetDisplayStartTime (c : nat)
| OpSetWorkAreaStart (c : nat) | OpSetWorkAreaDuration (c : nat)
| OpReload (f : nat) | OpReplaceWithSequence (f : nat) | OpReplace (f : nat)
| OpImportFile (path : string)
| OpSetConformFrameRate (f : nat) | OpSetAlphaMode (f : nat)
| OpGuessAlphaMode (f : nat) | OpGuessPulldown (f : nat)
| OpAddLayer (c : nat) | OpAddSolid (c : nat)
| OpReplaceSource (l : nat) | OpRemoveLayer (l : nat) | OpSetLayerName (l : nat)
| OpSetStartTime (l : nat) | OpSetInPoint (l : nat) | OpSetOutPoint (l : nat)
| OpSetTimeRemapEnabled (l : nat) | OpRemoveKey (l : nat)
| OpSetValueAtTime (l : nat)
| OpAddRQItem | OpRemoveRQItem (i : nat) | OpSetTimeSpan
| OpApplyTemplate (name : string) | OpSetSetting (group key : string)
| OpSetIncludeSourceXMP | OpSetOmFile | OpRender.

(** What the script cannot influence: the files on disk, the names and
    durations After Effects gives to what it imports, the installed output
    templates, the user's cancel button, which operations are refused, and the
    line numbers of the errors. *)
Record Env := {
  fails : Op -> bool;
  fileExists : string -> bool;
  parentExists : string -> bool;
  fsName : string -> string;
  seqName : string -> string;
  seqDuration : string -> Q;
  seqStill : string -> bool;
  templates : list string;
  tempFile : string;
  hasColorSettings : bool;
  cancelAt : nat -> bool;
  timeoutAt : nat -> bool;
  errLine : string -> nat   (* [err.line] of the error with this message; 0: none *)
}.

(** [if (err.line) logFile.writeln("Line: " + err.line)] *)
Definition lineEntry (env : Env) (e : string) : list string :=
  if Nat.eqb (errLine env e) 0 then [] else ["Line: " ++ pretty (errLine env e)].

(** *** Field updates *)

Definition setLname (n : string) (l : Layer) : Layer :=
  {| lid := lid l; lname := n; source := source l; startTime := startTime l;
     inPoint := inPoint l; outPoint := outPoint l;
     timeRemapEnabled := timeRemapEnabled l; remapKeys := remapKeys l |}.

Definition setSource (s : nat) (l : Layer) : Layer :=
  {| lid := lid l; lname := lname l; source := s; startTime := startTime l;
     inPoint := inPoint l; outPoint := outPoint l;
     timeRemapEnabled := timeRemapEnabled l; remapKeys := remapKeys l |}.

Definition setStartTime (t : Q) (l : Layer) : Layer :=
  {| lid := lid l; lname := lname l; source := source l; startTime := t;
     inPoint := inPoint l; outPoint := outPoint l;
     timeRemapEnabled := timeRemapEnabled l; remapKeys := remapKeys l |}.

Definition setInPoint (t : Q) (l : Layer) : Layer :=
  {| lid := lid l; lname := lname l; source := source l; startTime := startTime l;
     inPoint := t; outPoint := outPoint l;
     timeRemapEnabled := timeRemapEnabled l; remapKeys := remapKeys l |}.

Definition setOutPoint (t : Q) (l : Layer) : Layer :=
  {| lid := lid l; lname := lname l; source := source l; startTime := startTime l;
     inPoint := inPoint l; outPoint := t;
     timeRemapEnabled := timeRemapEnabled l; remapKeys := remapKeys l |}.

Definition setTimeRemapEnabled (b : bool) (l : Layer) : Layer :=
  {| lid := lid l; lname := lname l; source := source l; startTime := startTime l;
     inPoint := inPoint l; outPoint := outPoint l;
     timeRemapEnabled := b; remapKeys := remapKeys l |}.

Definition setRemapKeys (ks : list (Q * Q)) (l : Layer) : Layer :=
  {| lid := lid l; lname := lname l; source := source l; startTime := startTime l;
     inPoint := inPoint l; outPoint := outPoint l;
     timeRemapEnabled := timeRemapEnabled l; remapKeys := ks |}.

Definition setLayers (ls : list Layer) (c : Comp) : Comp :=
  {| width := width c; height := height c; cframeRate := cframeRate c;
     duration := duration c; displayStartTime := displayStartTime c;
     workAreaStart := workAreaStart c; workAreaDuration := workAreaDuration c;
     layers := ls |}.

Definition setFrameRate (r : Q) (c : Comp) : Comp :=
  {| width := width c; height := height c; cframeRate := r;
     duration := duration c; displayStartTime := displayStartTime c;
     workAreaStart := workAreaStart c; workAreaDuration := workAreaDuration c;
     layers := layers c |}.

Definition setDuration (d : Q) (c : Comp) : Comp :=
  {| width := width c; height := height c; cframeRate := cframeRate c;
     duration := d; displayStartTime := displayStartTime c;
     workAreaStart := workAreaStart c; workAreaDuration := workAreaDuration c;
     layers := layers c |}.

Definition setWidth (w : Q) (c : Comp) : Comp :=
  {| width := w; height := height c; cframeRate := cframeRate c;
     duration := duration c; displayStartTime := displayStartTime c;
     workAreaStart := workAreaStart c; workAreaDuration := workAreaDuration c;
     layers := layers c |}.

Definition setHeight (h : Q) (c : Comp) : Comp :=
  {| width := width c; height := h; cframeRate := cframeRate c;
     duration := duration c; displayStartTime := displayStartTime c;
     workAreaStart := workAreaStart c; workAreaDuration := workAreaDuration c;
     layers := layers c |}.

Definition setDisplayStartTime (t : Q) (c : Comp) : Comp :=
  {| width := width c; height := height c; cframeRate := cframeRate c;
     duration := duration c; displayStartTime := t;
     workAreaStart := workAreaStart c; workAreaDuration := workAreaDuration c;
     layers := layers c |}.

Definition setWorkAreaStart (t : Q) (c : Comp) : Comp :=
  {| width := width c; height := height c; cframeRate := cframeRate c;
     duration := duration c; displayStartTime := displayStartTime c;
     workAreaStart := t; workAreaDuration := workAreaDuration c;
     layers := layers c |}.

Definition setWorkAreaDuration (d : Q) (c : Comp) : Comp :=
  {| width := width c; height := height c; cframeRate := cframeRate c;
     duration := duration c; displayStartTime := displayStartTime c;
     workAreaStart := workAreaStart c; workAreaDuration := d;
     layers := layers c |}.

Definition setFootageSource (fs : option string) (still : bool) (d : Q)
    (f : Footage) : Footage :=
  {| file := fs; isStill := still; fduration := d;
     conformFrameRate := conformFrameRate f; alphaMode := alphaMode f |}.

Definition setConformFrameRate (r : Q) (f : Footage) : Footage :=
  {| file := file f; isStill := isStill f; fduration := fduration f;
     conformFrameRate := r; alphaMode := alphaMode f |}.

Definition setAlphaMode (m : AlphaMode) (f : Footage) : Footage :=
  {| file := file f; isStill := isStill f; fduration := fduration f;
     conformFrameRate := conformFrameRate f; alphaMode := m |}.

Definition setItems (its : list Item) (p : Project) : Project :=
  {| pitems := its; nextId := nextId p; pfile := pfile p;
     timeDisplayFrames := timeDisplayFrames p; colorEngine := colorEngine p;
     workingSpace := workingSpace p; linearBlending := linearBlending p;
     renderQueue := renderQueue p |}.

Definition bumpId (p : Project) : Project :=
  {| pitems := pitems p; nextId := S (nextId p); pfile := pfile p;
     timeDisplayFrames := timeDisplayFrames p; colorEngine := colorEngine p;
     workingSpace := workingSpace p; linearBlending := linearBlending p;
     renderQueue := renderQueue p |}.

Definition setPfile (f : option string) (p : Project) : Project :=
  {| pitems := pitems p; nextId := nextId p; pfile := f;
     timeDisplayFrames := timeDisplayFrames p; colorEngine := colorEngine p;
     workingSpace := workingSpace p; linearBlending := linearBlending p;
     renderQueue := renderQueue p |}.

Definition setTimeDisplayFrames (b : bool) (p : Project) : Project :=
  {| pitems := pitems p; nextId := nextId p; pfile := pfile p;
     timeDisplayFrames := b; colorEngine := colorEngine p;
     workingSpace := workingSpace p; linearBlending := linearBlending p;
     renderQueue := renderQueue p |}.

Definition setColorEngine (n : nat) (p : Project) : Project :=
  {| pitems := pitems p; nextId := nextId p; pfile := pfile p;
     timeDisplayFrames := timeDisplayFrames p; colorEngine := n;
     workingSpace := workingSpace p; linearBlending := linearBlending p;
     renderQueue := renderQueue p |}.

Definition setWorkingSpace (ws : string) (p : Project) : Project :=
  {| pitems := pitems p; nextId := nextId p; pfile := pfile p;
     timeDisplayFrames := timeDisplayFrames p; colorEngine := colorEngine p;
     workingSpace := ws; linearBlending := linearBlending p;
     renderQueue := renderQueue p |}.

Definition setLinearBlending (b : bool) (p : Project) : Project :=
  {| pitems := pitems p; nextId := nextId p; pfile := pfile p;
     timeDisplayFrames := timeDisplayFrames p; colorEngine := colorEngine p;
     workingSpace := workingSpace p; linearBlending := b;
     renderQueue := renderQueue p |}.

Definition setRenderQueue (rq : list RQItem) (p : Project) : Project :=
  {| pitems := pitems p; nextId := nextId p; pfile := pfile p;
     timeDisplayFrames := timeDisplayFrames p; colorEngine := colorEngine p;
     workingSpace := workingSpace p; linearBlending := linearBlending p;
     renderQueue := rq |}.

Definition setProject (p : Project) (a : App) : App :=
  {| project := p; disk := disk a; alerts := alerts a; logs := logs a;
     renders := renders a |}.

Definition setDisk (d : gmap string Project) (a : App) : App :=
  {| project := project a; disk := d; alerts := alerts a; logs := logs a;
     renders := renders a |}.

Definition addAlert (msg : string) (a : App) : App :=
  {| project := project a; disk := disk a; alerts := alerts a ++ [msg];
     logs := logs a; renders := renders a |}.

(** [logFile.open("w")] truncates: the file holds the lines of the last write. *)
Definition writeLog (name : string) (lines : list string) (a : App) : App :=
  {| project := project a; disk := disk a; alerts := alerts a;
     logs := <[name := lines]> (logs a); renders := renders a |}.

Definition addRender (a : App) : App :=
  {| project := project a; disk := disk a; alerts := alerts a; logs := logs a;
     renders := S (renders a) |}.

(** The project of [app.newProject()]. *)
Definition emptyProject : Project :=
  {| pitems := []; nextId := 1; pfile := None; timeDisplayFrames := false;
     colorEngine := 0; workingSpace := ""; linearBlending := false;
     renderQueue := [] |}.

(** *** Lookups and updates by identity *)

Definition getItem (p : Project) (i : nat) : option Item :=
  List.find (fun it => Nat.eqb (iid it) i) (pitems p).

Definition getComp (p : Project) (c : nat) : option Comp :=
  match getItem p c with
  | Some it => match body it with CompItem k => Some k | _ => None end
  | None => None
  end.

Definition getFootage (p : Project) (f : nat) : option Footage :=
  match getItem p f with
  | Some it => match body it with FootageItem x => Some x | _ => None end
  | None => None
  end.

(** [x instanceof FootageItem], for the object with identity [i]. *)
Definition isFootageItem (p : Project) (i : nat) : bool :=
  match getFootage p i with Some _ => true | None => false end.

Definition isCompItem (p : Project) (i : nat) : bool :=
  match getComp p i with Some _ => true | None => false end.

Definition getLayer (p : Project) (c l : nat) : option Layer :=
  match getComp p c with
  | Some k => List.find (fun x => Nat.eqb (lid x) l) (layers k)
  | None => None
  end.

Definition updItem (i : nat) (f : Body -> Body) (p : Project) : Project :=
  setItems
    (map (fun it => if Nat.eqb (iid it) i
                    then {| iid := iid it; iname := iname it; body := f (body it) |}
                    else it) (pitems p)) p.

Definition updComp (c : nat) (f : Comp -> Comp) : Project -> Project :=
  updItem c (fun b => match b with CompItem k => CompItem (f k) | _ => b end).

Definition updFootage (i : nat) (f : Footage -> Footage) : Project -> Project :=
  updItem i (fun b => match b with FootageItem x => FootageItem (f x) | _ => b end).

Definition updLayers (c : nat) (f : list Layer -> list Layer) : Project -> Project :=
  updComp c (fun k => setLayers (f (layers k)) k).

Definition updLayer (c l : nat) (f : Layer -> Layer) : Project -> Project :=
  updLayers c (map (fun x => if Nat.eqb (lid x) l then f x else x)).

(** A new item goes to the end of [proj.items] and takes the next identity. *)
Definition addItem (n : string) (b : Body) (p : Project) : Project :=
  bumpId (setItems (pitems p ++ [{| iid := nextId p; iname := n; body := b |}]) p).

(** [source.duration] of whatever a layer may show. *)
Definition itemDuration (p : Project) (i : nat) : Q :=
  match getItem p i with
  | Some it => match body it with
               | CompItem k => duration k
               | FootageItem f => fduration f
               end
  | None => 0
  end.

Definition itemName (p : Project) (i : nat) : string :=
  match getItem p i with Some it => iname it | None => "" end.

(** A new layer goes on top of the stack, is named after its source and
    shows it from time 0 for the length of the source. *)
Definition newLayer (p : Project) (src : nat) : Layer :=
  {| lid := nextId p; lname := itemName p src; source := src;
     startTime := 0; inPoint := 0; outPoint := itemDuration p src;
     timeRemapEnabled := false; remapKeys := [] |}.

Definition pushLayer (c src : nat) (p : Project) : Project :=
  bumpId (updLayers c (cons (newLayer p src)) p).

(** [comp.layers.addSolid(color, name, w, h, aspect, d)]: a new solid
    footage item is added to the project and a layer showing it is put on
    top of the stack.  (The folder After Effects files solids under is left
    out.) *)
Definition solid : Footage :=
  {| file := None; isStill := true; fduration := 0; conformFrameRate := 0;
     alphaMode := AlphaHost |}.

Definition pushSolid (c : nat) (n : string) (d : Q) (p : Project) : Project :=
  let p1 := addItem n (FootageItem solid) p in
  bumpId (updLayers c
            (cons {| lid := nextId p1; lname := n; source := nextId p;
                     startTime := 0; inPoint := 0; outPoint := d;
                     timeRemapEnabled := false; remapKeys := [] |}) p1).

(** [layer.timeRemapEnabled = true]: the host starts the curve with a key at
    each end of the source. *)
Definition enableTimeRemap (p : Project) (l : Layer) : Layer :=
  let d := itemDuration p (source l) in
  setRemapKeys [(startTime l, 0%Q); ((startTime l + d)%Q, d)]
    (setTimeRemapEnabled true l).

(** [canSetTimeRemapEnabled]: the source has a duration of its own. *)
Definition canSetTimeRemapEnabled (p : Project) (l : Layer) : bool :=
  match getItem p (source l) with
  | Some it => match body it with
               | CompItem _ => true
               | FootageItem f => negb (isStill f)
               end
  | None => false
  end.

(** [prop.setValueAtTime(t, v)]: keys are kept in time order, one per time. *)
Fixpoint setValueAtTime (t v : Q) (ks : list (Q * Q)) : list (Q * Q) :=
  match ks with
  | [] => [(t, v)]
  | (t', v') :: r =>
      if Qeq_bool t t' then (t, v) :: r
      else if Qle_bool t t' then (t, v) :: ks
      else (t', v') :: setValueAtTime t v r
  end.

(** [comp.displayStartFrame] is [comp.displayStartTime] counted in frames. *)
Definition displayStartFrame (c : Comp) : Q :=
  (displayStartTime c * cframeRate c)%Q.

(** *** Scripts as state transformers that may throw *)

Inductive Res (A : Type) :=
| Ok (x : A)
| Throw (msg : string).
Arguments Ok {A} x.
Arguments Throw {A} msg.

Definition M (A : Type) : Type := App -> Res A * App.

Definition ret {A} (x : A) : M A := fun a => (Ok x, a).

Definition bind {A B} (m : M A) (k : A -> M B) : M B :=
  fun a => match m a with
           | (Ok x, a') => k x a'
           | (Throw e, a') => (Throw e, a')
           end.

Definition throw {A} (msg : string) : M A := fun a => (Throw msg, a).

(** [try { m } catch (e) { h e }]: the handler starts from the state in which
    the exception was thrown. *)
Definition tryCatch {A} (m : M A) (h : string -> M A) : M A :=
  fun a => match m a with
           | (Ok x, a') => (Ok x, a')
           | (Throw e, a') => h e a'
           end.

(** [try { m } catch (e) {}] *)
Definition attempt (m : M unit) : M unit := tryCatch m (fun _ => ret tt).

Definition gets {A} (f : Project -> A) : M A := fun a => (Ok (f (project a)), a).

Definition modify (f : App -> App) : M unit := fun a => (Ok tt, f a).

Definition when (b : bool) (m : M unit) : M unit := if b then m else ret tt.

Notation "x <- m ;; k" := (bind m (fun x => k))
  (at level 100, m at next level, right associativity).
Notation "m ;; k" := (bind m (fun _ => k))
  (at level 100, right associativity).

Definition hostError : string := "After Effects error".
Definition invalidObject : string := "Object is invalid".

Section Primitives.

Variable env : Env.

(** A host call: refused, it throws and changes nothing. *)
Definition host (op : Op) (f : Project -> Project) : M unit :=
  fun a => if fails env op then (Throw hostError, a)
           else (Ok tt, setProject (f (project a)) a).

Definition theComp (c : nat) : M Comp :=
  fun a => match getComp (project a) c with
           | Some k => (Ok k, a)
           | None => (Throw invalidObject, a)
           end.

Definition theFootage (f : nat) : M Footage :=
  fun a => match getFootage (project a) f with
           | Some x => (Ok x, a)
           | None => (Throw invalidObject, a)
           end.

Definition theLayer (c l : nat) : M Layer :=
  fun a => match getLayer (project a) c l with
           | Some x => (Ok x, a)
           | None => (Throw invalidObject, a)
           end.

Definition writeComp (op : Op) (c : nat) (f : Comp -> Comp) : M unit :=
  _ <- theComp c ;; host op (updComp c f).

Definition writeFootage (op : Op) (i : nat) (f : Footage -> Footage) : M unit :=
  _ <- theFootage i ;; host op (updFootage i f).

Definition writeLayer (op : Op) (c l : nat) (f : Layer -> Layer) : M unit :=
  _ <- theLayer c l ;; host op (updLayer c l f).

(** [layer.remove()] *)
Definition removeLayer (c l : nat) : M unit :=
  _ <- theLayer c l ;;
  host (OpRemoveLayer l)
       (updLayers c (List.filter (fun x => negb (Nat.eqb (lid x) l)))).

(** [comp.layers.add(src)].  A composition cannot be nested into itself. *)
Definition addLayer (c src : nat) : M nat :=
  _ <- theComp c ;;
  if Nat.eqb c src then throw hostError
  else
    l <- gets nextId ;;
    host (OpAddLayer c) (pushLayer c src) ;;
    ret l.

Definition addSolid (c : nat) (n : string) (d : Q) : M nat :=
  _ <- theComp c ;;
  i <- gets nextId ;;
  host (OpAddSolid c) (pushSolid c n d) ;;
  ret (S i).

(** A backward loop over [comp.layers] that removes, each in its own
    [try]/[catch], the layers satisfying [sel]: every layer is visited once,
    and a layer stays when it is not selected or when the host refuses. *)
Definition removeLayersWhere (c : nat) (sel : Project -> Layer -> bool) : M unit :=
  modify (fun a =>
    let p := project a in
    setProject
      (updLayers c
         (List.filter (fun x => negb (sel p x) || fails env (OpRemoveLayer (lid x)))) p) a).

(** [for (i = 1; i <= proj.items.length; i++) if (sel(proj.items[i])) return it] *)
Definition findItem (sel : Item -> bool) (p : Project) : option nat :=
  option_map iid (List.find sel (pitems p)).

Definition isComp (it : Item) : bool :=
  match body it with CompItem _ => true | _ => false end.

Definition isFootage (it : Item) : bool :=
  match body it with FootageItem _ => true | _ => false end.

Definition findCompByName (name : string) : Project -> option nat :=
  findItem (fun it => isComp it && String.eqb (iname it) name).

(** *** Project files *)

(** [new File(f).exists], for a project file. *)
Definition projectFileExists (f : string) : M bool :=
  fun a => (Ok (bool_decide (is_Some (disk a !! f))), a).

Definition openProject (f : string) : M unit :=
  fun a => if fails env OpOpen then (Throw hostError, a)
           else match disk a !! f with
                | Some p => (Ok tt, setProject (setPfile (Some f) p) a)
                | None => (Throw hostError, a)
                end.

Definition newProject : M unit :=
  fun a => if fails env OpNewProject then (Throw hostError, a)
           else (Ok tt, setProject emptyProject a).

Definition save (f : string) : M unit :=
  fun a => if fails env OpSave then (Throw hostError, a)
           else let p := setPfile (Some f) (project a) in
                (Ok tt, setDisk (<[f := p]> (disk a)) (setProject p a)).

(** *** The render queue.  An item is referred to by its position. *)

Definition setOm (ws : list OmWrite) (r : RQItem) : RQItem :=
  {| rqComp := rqComp r; timeSpanStart := timeSpanStart r;
     timeSpanDuration := timeSpanDuration r; om := ws |}.

Definition setTimeSpan (s d : Q) (r : RQItem) : RQItem :=
  {| rqComp := rqComp r; timeSpanStart := s; timeSpanDuration := d; om := om r |}.

Definition updRQItem (i : nat) (f : RQItem -> RQItem) (p : Project) : Project :=
  setRenderQueue (alter f i (renderQueue p)) p.

(** [rq.items.add(comp)] *)
Definition addRQItem (comp : nat) : M nat :=
  n <- gets (fun p => length (renderQueue p)) ;;
  host OpAddRQItem
    (fun p => setRenderQueue
                (renderQueue p ++ [{| rqComp := comp; timeSpanStart := 0;
                                      timeSpanDuration := itemDuration p comp;
                                      om := [] |}]) p) ;;
  ret n.

(** A write to the output module of item [ri]: it is recorded when the host
    accepts it. *)
Definition omWrite (ri : nat) (op : Op) (w : OmWrite) : M unit :=
  host op (updRQItem ri (fun r => setOm (om r ++ [w]) r)).

Definition omWrites (ri : nat) (p : Project) : list OmWrite :=
  match renderQueue p !! ri with Some r => om r | None => [] end.

(** [rq.render()] *)
Definition render : M unit :=
  fun a => if fails env OpRender then (Throw hostError, a) else (Ok tt, addRender a).

End Primitives.

End Host.

(** ** [AEBridge_Startup.jsx] *)

Module Startup.

Import Host.

Record ShotItem := {
  name : string;
  path : option string;     (* [it.first_file || it.path], when truthy *)
  first : Q;
  last : Q
}.

(** The configuration after the defaults, for configurations whose fields
    have the JSON types of the data model (numbers for frame numbers, rates
    and sizes, strings for names and paths).  ExtendScript's implicit
    conversions of other types are not modelled: [typed] is [None] there. *)
Record Settings := {
  FRAME_RATE : Q;
  GLOBAL_FIRST : Q;
  GLOBAL_LAST : Q;
  COMP_NAME : string;
  COMP_WIDTH : Q;
  COMP_HEIGHT : Q;
  items : list ShotItem;
  PROJECT_PATH : option string;
  OUTPUT_PATH : string;
  SHOULD_RENDER : bool;
  NUKE_COLORSPACE : string;
  NUKE_WORKING_SPACE : string;
  ACES_COMPLIANT : bool
}.

Definition asPath (v : value) : option (option string) :=
  match v with
  | VStr s => Some (Some s)
  | VUndef => Some None
  | _ => None
  end.

Definition typedItem (v : value) : option ShotItem :=
  match v with
  | VObj m =>
      n ← asStr (prop m "name");
      f ← asNum (prop m "first");
      l ← asNum (prop m "last");
      let file := or (prop m "first_file") (prop m "path") in
      p ← (if truthy file then Some <$> asStr file else Some None);
      Some {| name := n; path := p; first := f; last := l |}
  | _ => None
  end.

Definition typedItems (v : value) : option (list ShotItem) :=
  match v with
  | VArr l => mapM typedItem l
  | _ => None
  end.

Definition typed (r : Config.StartupRaw) : option Settings :=
  fr ← asNum (Config.FRAME_RATE r);
  gf ← asNum (Config.GLOBAL_FIRST r);
  gl ← asNum (Config.GLOBAL_LAST r);
  cn ← asStr (Config.COMP_NAME r);
  w ← asNum (Config.COMP_WIDTH r);
  h ← asNum (Config.COMP_HEIGHT r);
  its ← typedItems (Config.items r);
  pp ← asPath (Config.PROJECT_PATH r);
  op ← asStr (Config.OUTPUT_PATH r);
  cs ← asStr (Config.NUKE_COLORSPACE r);
  ws ← asStr (Config.NUKE_WORKING_SPACE r);
  Some {| FRAME_RATE := fr; GLOBAL_FIRST := gf; GLOBAL_LAST := gl;
          COMP_NAME := cn; COMP_WIDTH := w; COMP_HEIGHT := h; items := its;
          PROJECT_PATH := pp; OUTPUT_PATH := op;
          SHOULD_RENDER := truthy (Config.SHOULD_RENDER r);
          NUKE_COLORSPACE := cs; NUKE_WORKING_SPACE := ws;
          ACES_COMPLIANT := truthy (Config.ACES_COMPLIANT r) |}.

(** *** String helpers: [indexOf], [substring], [toLowerCase], the suffix pattern *)

(** [s.indexOf(sub) >= 0] *)
Definition contains (sub s : string) : bool :=
  match String.index 0 sub s with Some _ => true | None => false end.

Definition lower (c : ascii) : ascii :=
  let n := nat_of_ascii c in
  if Nat.leb 65 n && Nat.leb n 90 then ascii_of_nat (n + 32) else c.

Fixpoint toLowerCase (s : string) : string :=
  match s with
  | EmptyString => EmptyString
  | String c r => String (lower c) (toLowerCase r)
  end.

(** [s.substring(n)] *)
Fixpoint substringFrom (n : nat) (s : string) : string :=
  match n, s with
  | O, _ => s
  | S n', String _ r => substringFrom n' r
  | S _, EmptyString => EmptyString
  end.

(** A character of the class [[_\.\[\]0-9\-]]. *)
Definition isRangeChar (c : ascii) : bool :=
  let n := nat_of_ascii c in
  Ascii.eqb c "_" || Ascii.eqb c "." || Ascii.eqb c "[" || Ascii.eqb c "]"
  || Ascii.eqb c "-" || (Nat.leb 48 n && Nat.leb n 57).

Definition isImageExt (e : string) : bool :=
  existsb (String.eqb (toLowerCase e))
          ["exr"; "dpx"; "tif"; "tiff"; "jpg"; "jpeg"; "png"].

(** [/^[_\.\[\]0-9\-]+\.(exr|dpx|tif|tiff|jpg|jpeg|png)$/i]: at every
    character the match either takes it as the dot before the extension
    (once the class has matched at least once) or as one more character of
    the class.  [seen] records that the class has matched. *)
Fixpoint matchesRange (seen : bool) (s : string) : bool :=
  match s with
  | EmptyString => false
  | String c r =>
      (seen && Ascii.eqb c "." && isImageExt r)
      || (isRangeChar c && matchesRange true r)
  end.

Definition isSequenceSuffix (s : string) : bool := matchesRange false s.

Section Script.

Variable env : Env.
Variable st : Settings.

Definition DURATION : Q :=
  ((GLOBAL_LAST st - GLOBAL_FIRST st + 1) / FRAME_RATE st)%Q.

(** [Math.abs(a - b) > 0.01] *)
Definition differs (a b : Q) : bool :=
  negb (Qle_bool (Qabs (a - b)) (1 # 100)).

Definition syncCompSettings (comp : nat) : M unit :=
  attempt (k <- theComp comp ;;
           when (differs (cframeRate k) (FRAME_RATE st))
                (host env (OpSetFrameRate comp)
                      (updComp comp (setFrameRate (FRAME_RATE st))))) ;;
  attempt (k <- theComp comp ;;
           when (differs (duration k) DURATION)
                (host env (OpSetDuration comp)
                      (updComp comp (setDuration DURATION)))) ;;
  attempt (k <- theComp comp ;;
           when (negb (Qeq_bool (width k) (COMP_WIDTH st))
                 || negb (Qeq_bool (height k) (COMP_HEIGHT st)))
                (host env (OpSetWidth comp)
                      (updComp comp (setWidth (COMP_WIDTH st))) ;;
                 host env (OpSetHeight comp)
                      (updComp comp (setHeight (COMP_HEIGHT st))))) ;;
  tryCatch
    (writeComp env (OpSetDisplayStartFrame comp) comp
       (fun k => setDisplayStartTime (GLOBAL_FIRST st / cframeRate k)%Q k))
    (fun _ =>
       attempt (writeComp env (OpSetDisplayStartTime comp) comp
                  (setDisplayStartTime ((GLOBAL_FIRST st - 1) / FRAME_RATE st)%Q))) ;;
  attempt (writeComp env (OpSetWorkAreaStart comp) comp (setWorkAreaStart 0) ;;
           writeComp env (OpSetWorkAreaDuration comp) comp
             (setWorkAreaDuration DURATION)).

(** [proj.items.addComp(name, w, h, 1.0, duration, frameRate)] *)
Definition addComp (n : string) : M nat :=
  c <- gets nextId ;;
  host env (OpAddComp n)
    (addItem n (CompItem {| width := COMP_WIDTH st; height := COMP_HEIGHT st;
                            cframeRate := FRAME_RATE st; duration := DURATION;
                            displayStartTime := 0; workAreaStart := 0;
                            workAreaDuration := DURATION; layers := [] |})) ;;
  ret c.

Definition ensureComp (n : string) : M nat :=
  found <- gets (findCompByName n) ;;
  match found with
  | None => comp <- addComp n ;; syncCompSettings comp ;; ret comp
  | Some comp => syncCompSettings comp ;; ret comp
  end.

Definition hasFile (fs : string) (it : Item) : bool :=
  match body it with
  | FootageItem f => match file f with
                     | Some x => String.eqb x fs
                     | None => false
                     end
  | _ => false
  end.

Definition findFootageByFirstFile (firstFile : string) (p : Project) : option nat :=
  if String.eqb firstFile "" then None
  else findItem (hasFile (fsName env firstFile)) p.

Definition findFootageByName (n : string) (p : Project) : option nat :=
  if String.eqb n "" then None
  else
    match findItem (fun it => isFootage it && String.eqb (iname it) n) p with
    | Some i => Some i
    | None =>
        findItem (fun it => isFootage it && String.prefix n (iname it)
                            && isSequenceSuffix
                                 (substringFrom (String.length n) (iname it))) p
    end.

(** [footage.mainSource.reload()]: the files are scanned again. *)
Definition reload (i : nat) : M unit :=
  writeFootage env (OpReload i) i
    (fun f => match file f with
              | Some fs => setFootageSource (Some fs) (isStill f) (seqDuration env fs) f
              | None => f
              end).

Definition replaceWithSequence (i : nat) (f : string) : M unit :=
  writeFootage env (OpReplaceWithSequence i) i
    (setFootageSource (Some (fsName env f)) (seqStill env (fsName env f))
                      (seqDuration env (fsName env f))).

(** [footage.replace(f)] takes the one file, as a still. *)
Definition replace (i : nat) (f : string) : M unit :=
  writeFootage env (OpReplace i) i (setFootageSource (Some (fsName env f)) true 0).

(** [new ImportOptions(f)], [io.sequence = true], [proj.importFile(io)] *)
Definition importFile (f : string) : M (option nat) :=
  i <- gets nextId ;;
  host env (OpImportFile f)
    (addItem (seqName env (fsName env f))
       (FootageItem {| file := Some (fsName env f);
                       isStill := seqStill env (fsName env f);
                       fduration := seqDuration env (fsName env f);
                       conformFrameRate := 0; alphaMode := AlphaHost |})) ;;
  ret (Some i).

(** The footage of the same name that has a file, with that file. *)
Definition sameNameWithFile (layerName : string) (p : Project) : option (nat * string) :=
  match findFootageByName layerName p with
  | Some s => match getFootage p s with
              | Some f => match file f with
                          | Some old => Some (s, old)
                          | None => None
                          end
              | None => None
              end
  | None => None
  end.

Definition importOrUpdateSequence (firstFile : option string) (layerName : string)
    : M (option nat) :=
  match firstFile with
  | None => ret None
  | Some f =>
    if String.eqb f "" then ret None
    else if negb (fileExists env f) then ret None
    else
      existing <- gets (findFootageByFirstFile f) ;;
      match existing with
      | Some e => attempt (reload e) ;; ret (Some e)
      | None =>
        same <- gets (sameNameWithFile layerName) ;;
        match same with
        | Some (sameNameFootage, oldFile) =>
          returned <-
            tryCatch
              (if negb (String.eqb oldFile (fsName env f)) then
                 tryCatch
                   (replaceWithSequence sameNameFootage f ;;
                    attempt (reload sameNameFootage) ;;
                    ret (Some sameNameFootage))
                   (fun _ =>
                      tryCatch
                        (replace sameNameFootage f ;;
                         attempt (reload sameNameFootage) ;;
                         ret (Some sameNameFootage))
                        (fun _ => ret None))
               else ret None)
              (fun _ => ret None) ;;
          match returned with
          | Some x => ret (Some x)
          | None => attempt (reload sameNameFootage) ;; ret (Some sameNameFootage)
          end
        | None => importFile f
        end
      end
  end.

(** The layer test of [ensureSourceLayer]:
    [lay.name === layerName && lay.source && lay.source instanceof FootageItem]. *)
Definition isSourceLayer (layerName : string) (p : Project) (l : Layer) : bool :=
  String.eqb (lname l) layerName && isFootageItem p (source l).

Definition findSourceLayer (precomp : nat) (layerName : string) (p : Project)
    : option nat :=
  match getComp p precomp with
  | Some k => option_map lid (List.find (isSourceLayer layerName p) (layers k))
  | None => None
  end.

(** [while (timeRemapProp.numKeys > 0) timeRemapProp.removeKey(1)].  Each
    round removes one key, so [fuel] rounds suffice when [fuel] is the number
    of keys at the start. *)
Fixpoint clearKeys (precomp l : nat) (fuel : nat) : M unit :=
  match fuel with
  | O => ret tt
  | S n =>
      lay <- theLayer precomp l ;;
      match remapKeys lay with
      | [] => ret tt
      | _ :: _ =>
          writeLayer env (OpRemoveKey l) precomp l
            (fun x => setRemapKeys (tl (remapKeys x)) x) ;;
          clearKeys precomp l n
      end
  end.

Definition layerStartTime (startFrame : Q) : Q :=
  ((startFrame - GLOBAL_FIRST st) / FRAME_RATE st)%Q.

Definition layerDuration (startFrame endFrame : Q) : Q :=
  ((endFrame - startFrame + 1) / FRAME_RATE st)%Q.

Definition layerEndTime (startFrame endFrame : Q) : Q :=
  (layerStartTime startFrame + layerDuration startFrame endFrame)%Q.

(** The time-remap block of [ensureSourceLayer] (one [try]/[catch]). *)
Definition remapIfNeeded (precomp targetLayer footage : nat)
    (startFrame endFrame : Q) : M unit :=
  attempt
    (lay <- theLayer precomp targetLayer ;;
     can <- gets (fun p => canSetTimeRemapEnabled p lay) ;;
     when (can && negb (timeRemapEnabled lay))
       (fo <- theFootage footage ;;
        let actualFootageDuration := fduration fo in
        when (differs actualFootageDuration (layerDuration startFrame endFrame))
          (p <- gets id ;;
           writeLayer env (OpSetTimeRemapEnabled targetLayer) precomp targetLayer
             (enableTimeRemap p) ;;
           lay' <- theLayer precomp targetLayer ;;
           clearKeys precomp targetLayer (length (remapKeys lay')) ;;
           writeLayer env (OpSetValueAtTime targetLayer) precomp targetLayer
             (fun x => setRemapKeys
                         (setValueAtTime (layerStartTime startFrame) 0 (remapKeys x)) x) ;;
           writeLayer env (OpSetValueAtTime targetLayer) precomp targetLayer
             (fun x => setRemapKeys
                         (setValueAtTime (layerEndTime startFrame endFrame)
                                         actualFootageDuration (remapKeys x)) x)))).

(** The block under [if (targetLayer && footage)]. *)
Definition configureLayer (precomp targetLayer footage : nat) (layerName : string)
    (startFrame endFrame : Q) : M unit :=
  attempt (writeLayer env (OpSetLayerName targetLayer) precomp targetLayer
             (setLname layerName)) ;;
  attempt (fo <- theFootage footage ;;
           when (negb (isStill fo))
             (writeFootage env (OpSetConformFrameRate footage) footage
                (setConformFrameRate (FRAME_RATE st)) ;;
              attempt (writeFootage env (OpGuessAlphaMode footage) footage
                         (setAlphaMode AlphaGuessed) ;;
                       host env (OpGuessPulldown footage) id))) ;;
  writeLayer env (OpSetStartTime targetLayer) precomp targetLayer
    (setStartTime (layerStartTime startFrame)) ;;
  writeLayer env (OpSetInPoint targetLayer) precomp targetLayer
    (setInPoint (layerStartTime startFrame)) ;;
  writeLayer env (OpSetOutPoint targetLayer) precomp targetLayer
    (setOutPoint (layerEndTime startFrame endFrame)) ;;
  remapIfNeeded precomp targetLayer footage startFrame endFrame.

(** The first part of [ensureSourceLayer]: find the layer, add it, or give it
    the new footage.  [None] is the early [return null]. *)
Definition bindSourceLayer (precomp : nat) (footage : option nat) (layerName : string)
    : M (option nat) :=
  _ <- theComp precomp ;;
  found <- gets (findSourceLayer precomp layerName) ;;
  match found, footage with
  | None, None => ret None
  | None, Some f => l <- addLayer env precomp f ;; ret (Some l)
  | Some t, None => ret (Some t)
  | Some t, Some f =>
      lay <- theLayer precomp t ;;
      if negb (Nat.eqb (source lay) f) then
        tryCatch
          (writeLayer env (OpReplaceSource t) precomp t (setSource f) ;;
           ret (Some t))
          (fun _ =>
             removeLayer env precomp t ;;
             l <- addLayer env precomp f ;;
             ret (Some l))
      else ret (Some t)
  end.

Definition ensureSourceLayer (precomp : nat) (footage : option nat)
    (layerName : string) (startFrame endFrame : Q) : M (option nat) :=
  bound <- bindSourceLayer precomp footage layerName ;;
  match bound with
  | None => ret None
  | Some targetLayer =>
      match footage with
      | Some f => configureLayer precomp targetLayer f layerName startFrame endFrame
      | None => ret tt
      end ;;
      removeLayersWhere env precomp
        (fun p other => negb (Nat.eqb (lid other) targetLayer)
                        && isSourceLayer layerName p other) ;;
      ret (Some targetLayer)
  end.

(** What one pass of the item loop did for its item: the child composition,
    and either the placeholder branch or the layer [ensureSourceLayer] returned. *)
Inductive Outcome :=
| Missing
| Bound (srcLayer : option nat).

Definition preName (it : ShotItem) : string := "[AEBridge]_" ++ name it.
Definition missingName (it : ShotItem) : string := name it ++ " (Missing)".
Definition sourceLayerName (it : ShotItem) : string := "[AEBridge]_Source_" ++ name it.

(** [mainLayer.source instanceof CompItem && mainLayer.source.name === preName] *)
Definition nests (n : string) (p : Project) (l : Layer) : bool :=
  isCompItem p (source l) && String.eqb (itemName p (source l)) n.

(** The body of the item loop, after the cancel and timeout checks. *)
Definition reconcile (mainComp : nat) (it : ShotItem) : M (nat * Outcome) :=
  preComp <- ensureComp (preName it) ;;
  footage <- importOrUpdateSequence (path it) (name it) ;;
  match footage with
  | Some f =>
      attempt (writeFootage env (OpSetConformFrameRate f) f
                 (setConformFrameRate (FRAME_RATE st)) ;;
               attempt (writeFootage env (OpSetAlphaMode f) f
                          (setAlphaMode AlphaStraight)))
  | None => ret tt
  end ;;
  _ <- theComp preComp ;;
  removeLayersWhere env preComp (fun _ l => String.eqb (lname l) (missingName it)) ;;
  match footage with
  | None =>
      removeLayersWhere env preComp
        (fun _ l => String.eqb (lname l) (sourceLayerName it)) ;;
      placeholder <- tryCatch
                       (l <- addSolid env preComp (missingName it) DURATION ;;
                        ret (Some l))
                       (fun _ => ret None) ;;
      match placeholder with
      | Some l =>
          writeLayer env (OpSetStartTime l) preComp l (setStartTime 0) ;;
          writeLayer env (OpSetOutPoint l) preComp l (setOutPoint DURATION)
      | None => ret tt
      end ;;
      ret (preComp, Missing)
  | Some f =>
      srcLayer <- ensureSourceLayer preComp (Some f) (sourceLayerName it)
                    (first it) (last it) ;;
      k <- theComp mainComp ;;
      existsInMain <- gets (fun p => existsb (nests (preName it) p) (layers k)) ;;
      when (negb existsInMain)
        (added <- addLayer env mainComp preComp ;;
         attempt (writeLayer env (OpSetLayerName added) mainComp added
                    (setLname (preName it))) ;;
         attempt (writeLayer env (OpSetStartTime added) mainComp added
                    (setStartTime 0) ;;
                  writeLayer env (OpSetOutPoint added) mainComp added
                    (setOutPoint DURATION))) ;;
      ret (preComp, Bound srcLayer)
  end.

Definition errorLog : string := "aebridge_error.log".
Definition successLog : string := "aebridge_success.log".
Definition BATCH_SIZE : nat := 10.

(** [for (idx = 0; idx < items.length; idx++)] *)
Fixpoint processItems (mainComp idx : nat) (its : list ShotItem) : M unit :=
  match its with
  | [] => ret tt
  | it :: rest =>
      when (cancelAt env idx) (throw "User cancelled") ;;
      when (timeoutAt env idx)
           (modify (writeLog errorLog
                      ["ERROR: Script timeout (no progress for 3 minutes)"]) ;;
            throw "Script timeout") ;;
      when (Nat.ltb 0 idx && Nat.eqb (idx mod BATCH_SIZE) 0)
           (attempt (host env OpPurge id)) ;;
      _ <- reconcile mainComp it ;;
      processItems mainComp (S idx) rest
  end.

Definition sRGB : string := "sRGB IEC61966-2.1".

Definition setWS (ws : string) : M unit :=
  host env (OpSetWorkingSpace ws) (setWorkingSpace ws).

(** The colour-management block (one outer [try]/[catch]). *)
Definition colorPolicy : M unit :=
  let ws := NUKE_WORKING_SPACE st in
  attempt
    ((if ACES_COMPLIANT st then
        tryCatch
          (if hasColorSettings env then
             attempt (host env OpSetColorEngine (setColorEngine 1)) ;;
             tryCatch (setWS "ACEScg") (fun _ => setWS sRGB)
           else setWS sRGB)
          (fun _ => setWS sRGB)
      else if contains "linear" ws || contains "Linear" ws then setWS sRGB
      else if contains "sRGB" ws then setWS sRGB
      else if contains "Rec709" ws || contains "rec709" ws
           then setWS "Rec. 709 Gamma 2.4"
      else setWS sRGB) ;;
     host env OpSetLinearBlending (setLinearBlending true)).

(** The render block at the end of the script. *)
Definition renderMain (mainComp : nat) : M unit :=
  ri <- addRQItem env mainComp ;;
  let targetFile := OUTPUT_PATH st in
  omWrite env ri OpSetOmFile (WFile targetFile) ;;
  attempt
    (match List.find (fun t => contains "exr" (toLowerCase t)) (templates env) with
     | Some exrTemplate =>
         omWrite env ri (OpApplyTemplate exrTemplate) (WTemplate exrTemplate) ;;
         omWrite env ri OpSetOmFile (WFile targetFile)
     | None => ret tt
     end) ;;
  attempt (omWrite env ri OpSetIncludeSourceXMP WIncludeSourceXMP) ;;
  omWrite env ri OpSetOmFile (WFile targetFile) ;;
  render env.

(** [new File(PROJECT_PATH)]: without a path the host makes up a name. *)
Definition prjFile : string :=
  match PROJECT_PATH st with Some f => f | None => tempFile env end.

(** The [try] block of the script. *)
Definition body : M unit :=
  onDisk <- projectFileExists prjFile ;;
  (if onDisk then openProject env prjFile else newProject env) ;;
  attempt (host env OpSetTimeDisplayType (setTimeDisplayFrames true)) ;;
  colorPolicy ;;
  mainComp <- ensureComp (COMP_NAME st) ;;
  processItems mainComp 0 (items st) ;;
  when (negb (parentExists env prjFile)) (host env (OpCreateFolder prjFile) id) ;;
  save env prjFile ;;
  when (SHOULD_RENDER st && negb (String.eqb (OUTPUT_PATH st) ""))
       (renderMain mainComp) ;;
  modify (writeLog successLog
            ["SUCCESS: Project updated";
             "Project: " ++ default "undefined" (PROJECT_PATH st);
             "Comp: " ++ COMP_NAME st]).

(** [try { body } catch (e) { ... }] *)
Definition run : M unit :=
  tryCatch body
    (fun e =>
       modify (writeLog errorLog (("ERROR: Error: " ++ e) :: lineEntry env e)) ;;
       when (negb (String.eqb e "User cancelled")
             && negb (String.eqb e "Script timeout"))
            (modify (addAlert ("AEBridge Error: Error: " ++ e)))).

End Script.

Definition main (env : Env) (l : Config.Launch) : option (M unit) :=
  match l with
  | Config.NoConfigPath =>
      Some (modify (writeLog errorLog ["ERROR: Config path not found"]))
  | Config.NoConfigFile f =>
      Some (modify (writeLog errorLog ["ERROR: Config file not exists: " ++ f]))
  | Config.BadJson e =>
      Some (modify (writeLog errorLog ["ERROR: JSON parse failed: " ++ e]))
  | Config.Parsed config => run env <$> typed (Config.readStartup config)
  end.

End Startup.

(** ** [AEBridge_Render.jsx] *)

Module Render.

Import Host.

(** The configuration after the defaults, for configurations whose fields
    have the JSON types of the render schema; [typed] is [None] elsewhere.
    The three output settings are handed to the host as they are. *)
Record Settings := {
  projectPath : string;
  compName : string;
  frameRate : Q;
  globalFirst : Q;
  globalLast : Q;
  outputPath : string;
  templateName : string;
  desiredChannels : value;
  desiredDepth : value;
  desiredColor : value;
  desiredQuality : Q       (* [Number(outputSettings.quality || 100)] *)
}.

Definition typed (r : Config.RenderRaw) : option Settings :=
  pp ← asStr (Config.projectPath r);
  cn ← asStr (Config.compName r);
  fr ← asNum (Config.frameRate r);
  gf ← asNum (Config.globalFirst r);
  gl ← asNum (Config.globalLast r);
  op ← asStr (Config.outputPath r);
  tn ← asStr (Config.templateName r);
  q ← asNum (Config.desiredQuality r);
  Some {| projectPath := pp; compName := cn; frameRate := fr; globalFirst := gf;
          globalLast := gl; outputPath := op; templateName := tn;
          desiredChannels := Config.desiredChannels r;
          desiredDepth := Config.desiredDepth r;
          desiredColor := Config.desiredColor r;
          desiredQuality := q |}.

Definition renderErrorLog : string := "aebridge_render_error.log".
Definition renderSuccessLog : string := "aebridge_render_success.log".

(** [alertAndStop(msg)]: log, alert, throw.  The texts of the messages are
    kept up to line breaks and quotation marks. *)
Definition alertAndStop {A} (msg : string) : M A :=
  modify (writeLog renderErrorLog ["ERROR: " ++ msg]) ;;
  modify (addAlert msg) ;;
  throw msg.

(** [Math.max(a, b)] *)
Definition max (a b : Q) : Q := if Qle_bool a b then b else a.

Section Script.

Variable env : Env.
Variable st : Settings.

Definition durationFrames : Q := max 0 (globalLast st - globalFirst st + 1)%Q.

(** The first template, in the host's order, that equals one of [names]. *)
Definition firstMatch (names : list string) : option string :=
  List.find (fun t => existsb (String.eqb t) names) (templates env).

Definition applyTemplateByNames (om : nat) (names : list string) : M (option string) :=
  tryCatch
    (match firstMatch names with
     | Some n => omWrite env om (OpApplyTemplate n) (WTemplate n) ;; ret (Some n)
     | None => ret None
     end)
    (fun _ => ret None).

(** [!applied], for the name or [null] that [applyTemplateByNames] returns. *)
Definition notApplied (applied : option string) : bool :=
  match applied with
  | Some n => String.eqb n ""
  | None => true
  end.

Definition configureWithTemplate (om : nat) (outfile n : string) : M bool :=
  applied <- applyTemplateByNames om [n] ;;
  if notApplied applied then
    modify (addAlert ("WARNING: Output template not found: " ++ n)) ;;
    ret false
  else
    omWrite env om OpSetOmFile (WFile outfile) ;;
    ret true.

(** The two names of the numbering setting, the second tried when the first
    is refused. *)
Definition setStartNumbering (om : nat) : M unit :=
  tryCatch
    (omWrite env om (OpSetSetting "Output Module Settings" "Start Numbering")
       (WSetting "Output Module Settings" "Start Numbering" (VNum (globalFirst st))))
    (fun _ =>
       attempt
         (omWrite env om (OpSetSetting "Output Module Settings" "Starting #")
            (WSetting "Output Module Settings" "Starting #" (VNum (globalFirst st))))).

Definition setSetting (om : nat) (group key : string) (v : value) : M unit :=
  omWrite env om (OpSetSetting group key) (WSetting group key v).

Definition defaultTemplates : list string :=
  ["_HIDDEN X-Factor 8"; "_HIDDEN X-Factor 8 Premul"; "PNG Sequence";
   "Lossless with Alpha"; "Lossless"].

Definition configurePNGDefault (om : nat) (outfile : string) : M bool :=
  applied <- applyTemplateByNames om defaultTemplates ;;
  formatOk <-
    (if notApplied applied then
       tryCatch
         (setSetting om "Output Module Settings" "Format" (VStr "PNG Sequence") ;;
          ret true)
         (fun _ =>
            modify (addAlert "WARNING: Cannot set PNG output format.") ;;
            ret false)
     else ret true) ;;
  if negb formatOk then ret false
  else
    attempt (setSetting om "Output Module Settings" "Channels" (desiredChannels st)) ;;
    attempt (setSetting om "Output Module Settings" "Depth" (desiredDepth st)) ;;
    attempt (setSetting om "Output Module Settings" "Color" (desiredColor st)) ;;
    attempt (setSetting om "PNG Options" "Quality" (VNum (desiredQuality st))) ;;
    attempt (setSetting om "Format Options" "Quality" (VNum (desiredQuality st))) ;;
    setStartNumbering om ;;
    omWrite env om OpSetOmFile (WFile outfile) ;;
    ret true.

Definition configureOutputModule (om : nat) (outfile : string) : M bool :=
  if negb (String.eqb (templateName st) "") then
    success <- configureWithTemplate om outfile (templateName st) ;;
    when success (setStartNumbering om) ;;
    ret success
  else configurePNGDefault om outfile.

(** Drops, each in its own [try]/[catch], the queued items of [comp]
    (a backward loop over [rq.item(ri)]); [i] is the position of the head. *)
Fixpoint removeQueued (comp i : nat) (rq : list RQItem) : list RQItem :=
  match rq with
  | [] => []
  | r :: rest =>
      if Nat.eqb (rqComp r) comp && negb (fails env (OpRemoveRQItem i))
      then removeQueued comp (S i) rest
      else r :: removeQueued comp (S i) rest
  end.

(** The start-frame block: only for a first frame other than 0 and 1. *)
Definition setStartFrame (mainComp : nat) : M unit :=
  when (negb (Qeq_bool (globalFirst st) 0) && negb (Qeq_bool (globalFirst st) 1))
    (tryCatch
       (writeComp env (OpSetDisplayStartFrame mainComp) mainComp
          (fun k => setDisplayStartTime (globalFirst st / cframeRate k)%Q k))
       (fun _ =>
          attempt (writeComp env (OpSetDisplayStartTime mainComp) mainComp
                     (setDisplayStartTime ((globalFirst st - 1) / frameRate st)%Q)))).

(** The [try] block of the script. *)
Definition body : M unit :=
  current <- gets pfile ;;
  when (negb (bool_decide (fsName env <$> current = Some (fsName env (projectPath st)))))
       (openProject env (projectPath st)) ;;
  found <- gets (findCompByName (compName st)) ;;
  match found with
  | None => alertAndStop ("ERROR: Composition " ++ compName st ++ " not found in project.")
  | Some mainComp =>
      setStartFrame mainComp ;;
      attempt (writeComp env (OpSetFrameRate mainComp) mainComp
                 (setFrameRate (frameRate st))) ;;
      attempt (writeComp env (OpSetDuration mainComp) mainComp
                 (setDuration (durationFrames / frameRate st)%Q)) ;;
      modify (fun a => setProject
                         (setRenderQueue
                            (removeQueued mainComp 0 (renderQueue (project a)))
                            (project a)) a) ;;
      rqItem <- addRQItem env mainComp ;;
      attempt (k <- theComp mainComp ;;
               host env OpSetTimeSpan
                 (updRQItem rqItem (setTimeSpan 0 (max (duration k) (1 # 1000))))) ;;
      let om := rqItem in
      let outfile := outputPath st in
      when (negb (parentExists env outfile))
           (tryCatch (host env (OpCreateFolder outfile) id)
              (fun _ => alertAndStop "ERROR: Cannot create output directory")) ;;
      configSuccess <- configureOutputModule om outfile ;;
      when (negb configSuccess)
           (alertAndStop "ERROR: Cannot configure output module. Please check format settings or template name.") ;;
      attempt (omWrite env om OpSetIncludeSourceXMP WIncludeSourceXMP) ;;
      omWrite env om OpSetOmFile (WFile outfile) ;;
      render env ;;
      modify (writeLog renderSuccessLog
                ["SUCCESS: Render completed"; "Output: " ++ outputPath st])
  end.

(** The part of the script after the configuration has been read and the
    two required paths have been found in it. *)
Definition run : M unit :=
  onDisk <- projectFileExists (projectPath st) ;;
  if negb onDisk then
    alertAndStop ("ERROR: AE project file not found: " ++ projectPath st)
  else
    tryCatch body
      (fun e =>
         modify (writeLog renderErrorLog (("ERROR: Error: " ++ e) :: lineEntry env e)) ;;
         when (negb (String.eqb e "User cancelled"))
              (modify (addAlert ("AEBridge Render Error: Error: " ++ e)))).

End Script.

Definition main (env : Env) (l : Config.Launch) : option (M unit) :=
  match l with
  | Config.NoConfigPath => Some (alertAndStop "ERROR: Render config path not found!")
  | Config.NoConfigFile f =>
      Some (alertAndStop ("ERROR: Render config file does not exist! Path: " ++ f))
  | Config.BadJson e =>
      Some (alertAndStop ("ERROR: Failed to parse render config JSON! " ++ e))
  | Config.Parsed cfg =>
      let r := Config.readRender cfg in
      if negb (truthy (Config.projectPath r)) || negb (truthy (Config.outputPath r))
      then Some (alertAndStop
                   "ERROR: Render config missing required fields (project_path / output_path).")
      else run env <$> typed r
  end.

End Render.

(** ** Concrete hosts and configurations *)

Module Scenario.

Import Host.

(** A host: [present] are the media files on disk, [refused] the operations
    it refuses, [installed] its output templates. *)
Definition hostWith (present : string -> bool) (refused : Op -> bool)
    (installed : list string) : Env :=
  {| fails := refused;
     fileExists := present;
     parentExists := fun _ => true;
     fsName := fun f => f;
     seqName := fun _ => "beauty.[1001-1100].exr";
     seqDuration := fun _ => 2%Q;
     seqStill := fun _ => false;
     templates := installed;
     tempFile := "/tmp/untitled.aep";
     hasColorSettings := false;
     cancelAt := fun _ => false;
     timeoutAt := fun _ => false;
     errLine := fun _ => 0 |}.

Definition noFiles : Env := hostWith (fun _ => false) (fun _ => false) [].
Definition allFiles : Env := hostWith (fun _ => true) (fun _ => false) [].

Definition noImport : Env :=
  hostWith (fun _ => true)
           (fun op => match op with OpImportFile _ => true | _ => false end) [].

Definition noStartFrame : Env :=
  hostWith (fun _ => false)
           (fun op => match op with OpSetDisplayStartFrame _ => true | _ => false end) [].


Definition noSwap : Env :=
  hostWith (fun _ => true)
           (fun op => match op with
                      | OpReplaceWithSequence _ | OpReplace _ => true
                      | _ => false
                      end) [].

Definition lossless : Env := hostWith (fun _ => true) (fun _ => false) ["Lossless"].

(** After Effects as launched: an empty project, nothing saved, nothing said. *)
Definition blank : App :=
  {| project := emptyProject; disk := ∅; alerts := []; logs := ∅; renders := 0 |}.

Definition shot (n f : string) (first last : Z) : value :=
  VObj (<["name" := VStr n]> (<["path" := VStr f]>
       (<["first" := num first]> (<["last" := num last]> ∅)))).

(** The scenario of the specification: frames 1001-1100 at 24 fps, one shot. *)
Definition beauty (globalFirst : Z) : gmap string value :=
  <["project_path" := VStr "/p/shot.aep"]>
    (<["frame_rate" := num 24]>
    (<["global_first" := num globalFirst]>
    (<["global_last" := num (globalFirst + 99)]>
    (<["items" := VArr [shot "beauty" "/x/beauty.0001.exr" 1001 1100]]> ∅)))).

Definition twoShots : gmap string value :=
  <["items" := VArr [shot "beauty" "/x/beauty.0001.exr" 1001 1100;
                     shot "depth" "/x/depth.0001.exr" 1001 1100]]> (beauty 1001).

Definition customTemplate : gmap string value :=
  <["project_path" := VStr "/p/shot.aep"]>
    (<["output_path" := VStr "/out/beauty_[#####].png"]>
    (<["global_first" := num 1001]>
    (<["global_last" := num 1100]>
    (<["output_settings" := VObj (<["template_name" := VStr "Custom"]> ∅)]> ∅)))).

(** The application after a script has run to its end. *)
Definition after (script : option (M unit)) (a : App) : option App :=
  (fun m => snd (m a)) <$> script.

Definition startup (env : Env) (config : gmap string value) (a : App) : option App :=
  after (Startup.main env (Config.Parsed config)) a.

Definition footageNamed (n : string) (p : Project) : nat :=
  length (List.filter (fun it => isFootage it && String.eqb (iname it) n)
                      (pitems p)).

Definition compsNamed (n : string) (p : Project) : nat :=
  length (List.filter (fun it => isComp it && String.eqb (iname it) n)
                      (pitems p)).

(** The layers of the composition called [n]. *)
Definition layersOf (n : string) (p : Project) : list Layer :=
  match findCompByName n p with
  | Some c => match getComp p c with Some k => layers k | None => [] end
  | None => []
  end.

Definition layersNamed (comp n : string) (p : Project) : nat :=
  length (List.filter (fun l => String.eqb (lname l) n) (layersOf comp p)).

(** The first frame that the composition called [n] displays. *)
Definition startFrameOf (n : string) (p : Project) : option Q :=
  match findCompByName n p with
  | Some c => option_map (fun k => Qred (displayStartFrame k)) (getComp p c)
  | None => None
  end.

(** The shots are missing on disk: the project after one run, and after a
    second run with the same configuration. *)
Definition missingOnce : App :=
  default blank (startup noFiles (beauty 1001) blank).

Definition missingTwice : App :=
  default missingOnce (startup noFiles (beauty 1001) missingOnce).

(** The shots are on disk: the project after one run, after a second run with
    the same configuration, and after a second run in which the composition
    starts ten frames earlier. *)
Definition foundOnce : App :=
  default blank (startup allFiles (beauty 1001) blank).

Definition foundTwice : App :=
  default foundOnce (startup allFiles (beauty 1001) foundOnce).

Definition foundThenShifted : App :=
  default foundOnce (startup allFiles (beauty 991) foundOnce).

(** The typed settings of [beauty globalFirst], and its shot. *)
Definition beautySettings (globalFirst : Z) : Startup.Settings :=
  {| Startup.FRAME_RATE := 24;
     Startup.GLOBAL_FIRST := inject_Z globalFirst;
     Startup.GLOBAL_LAST := inject_Z (globalFirst + 99);
     Startup.COMP_NAME := "AEBridge";
     Startup.COMP_WIDTH := 1920; Startup.COMP_HEIGHT := 1080;
     Startup.items := []; Startup.PROJECT_PATH := Some "/p/shot.aep";
     Startup.OUTPUT_PATH := ""; Startup.SHOULD_RENDER := false;
     Startup.NUKE_COLORSPACE := "scene_linear";
     Startup.NUKE_WORKING_SPACE := "linear";
     Startup.ACES_COMPLIANT := false |}.

Definition beautyShot : Startup.ShotItem :=
  {| Startup.name := "beauty"; Startup.path := Some "/x/beauty.0001.exr";
     Startup.first := 1001; Startup.last := 1100 |}.

(** One more pass over the shot on the project of [foundOnce], with the
    composition starting ten frames earlier. *)
Definition reconciledShifted : App :=
  snd (Startup.reconcile allFiles (beautySettings 991) 1 beautyShot foundOnce).

(** The project of [foundOnce] as it was before time remapping was enabled
    on the source layer. *)
Definition unremapped : App :=
  setProject
    (updLayer 2 4 (fun l => setRemapKeys [] (setTimeRemapEnabled false l))
       (project foundOnce)) foundOnce.



(** The empty configuration, run on a fresh application. *)
Definition untitled : App := default blank (startup noFiles ∅ blank).


(** The same without a template name: the fallback path. *)
Definition defaultSettings : Render.Settings :=
  {| Render.projectPath := "/p/shot.aep"; Render.compName := "AEBridge";
     Render.frameRate := 24; Render.globalFirst := 1001;
     Render.globalLast := 1100;
     Render.outputPath := "/out/beauty_[#####].png";
     Render.templateName := "";
     Render.desiredChannels := VStr "RGB + Alpha";
     Render.desiredDepth := VStr "16 Bits/Channel";
     Render.desiredColor := VStr "Straight (Unmatted)";
     Render.desiredQuality := 100 |}.

Definition rendered : App := snd (Render.body lossless defaultSettings foundOnce).

(** The same with the name of a template the host has: the template path. *)
Definition templateSettings : Render.Settings :=
  {| Render.projectPath := "/p/shot.aep"; Render.compName := "AEBridge";
     Render.frameRate := 24; Render.globalFirst := 1001;
     Render.globalLast := 1100;
     Render.outputPath := "/out/beauty_[#####].png";
     Render.templateName := "Lossless";
     Render.desiredChannels := VStr "RGB + Alpha";
     Render.desiredDepth := VStr "16 Bits/Channel";
     Render.desiredColor := VStr "Straight (Unmatted)";
     Render.desiredQuality := 100 |}.

(** The shot of [beauty], moved to another directory. *)
Definition moved : gmap string value :=
  <["items" := VArr [shot "beauty" "/y/beauty.0001.exr" 1001 1100]]> (beauty 1001).

Definition foundThenMoved : App :=
  default foundOnce (startup allFiles moved foundOnce).

(** The saved project of [foundOnce] with its main composition queued. *)
Definition queued : App :=
  setProject
    (setRenderQueue [{| rqComp := 1; timeSpanStart := 0;
                        timeSpanDuration := 100 # 24; om := [] |}]
       (project foundOnce)) foundOnce.

(** A fresh application after [ensureComp] has made the main composition. *)
Definition ensured : App :=
  snd (Startup.ensureComp noFiles (beautySettings 1001) "AEBridge" blank).

(** A fresh application after the resolver has imported the shot. *)
Definition imported : App :=
  snd (Startup.importOrUpdateSequence allFiles (Some "/x/beauty.0001.exr") "beauty" blank).

(** One more call of [ensureSourceLayer] on the project of [foundOnce]. *)
Definition rebound : App :=
  snd (Startup.ensureSourceLayer allFiles (beautySettings 1001) 2 (Some 3)
         "[AEBridge]_Source_beauty" 1001 1100 foundOnce).

(** A host on which the user cancels before the first item. *)
Definition cancelled : Env :=
  {| fails := fun _ => false;
     fileExists := fun _ => true;
     parentExists := fun _ => true;
     fsName := fun f => f;
     seqName := fun _ => "beauty.[1001-1100].exr";
     seqDuration := fun _ => 2%Q;
     seqStill := fun _ => false;
     templates := [];
     tempFile := "/tmp/untitled.aep";
     hasColorSettings := false;
     cancelAt := fun i => Nat.eqb i 0;
     timeoutAt := fun _ => false;
     errLine := fun _ => 573 |}.

(** The settings of [beauty 1001], with its shot, and with a render asked
    for. *)
Definition shotSettings : Startup.Settings :=
  {| Startup.FRAME_RATE := 24;
     Startup.GLOBAL_FIRST := 1001;
     Startup.GLOBAL_LAST := 1100;
     Startup.COMP_NAME := "AEBridge";
     Startup.COMP_WIDTH := 1920; Startup.COMP_HEIGHT := 1080;
     Startup.items := [beautyShot]; Startup.PROJECT_PATH := Some "/p/shot.aep";
     Startup.OUTPUT_PATH := "/out/beauty.[####].exr"; Startup.SHOULD_RENDER := true;
     Startup.NUKE_COLORSPACE := "scene_linear";
     Startup.NUKE_WORKING_SPACE := "linear";
     Startup.ACES_COMPLIANT := false |}.

(** The [try] block of the start-up script, run to its end with a render. *)
Definition built : App := snd (Startup.body allFiles shotSettings blank).

(** The render block of the start-up script on the project of [foundOnce]. *)
Definition renderedMain : App := snd (Startup.renderMain allFiles shotSettings 1 foundOnce).

(** The item loop over the shot of [beauty], after [ensured]. *)
Definition looped : App :=
  snd (Startup.processItems allFiles shotSettings 1 0 [beautyShot] ensured).

(** A render queue with two items for composition 1 around one for
    composition 2. *)
Definition threeQueued : list RQItem :=
  [{| rqComp := 1; timeSpanStart := 0; timeSpanDuration := 1; om := [] |};
   {| rqComp := 2; timeSpanStart := 0; timeSpanDuration := 1; om := [WIncludeSourceXMP] |};
   {| rqComp := 1; timeSpanStart := 0; timeSpanDuration := 2; om := [] |}].

(** The render script on the saved project of [foundOnce], its main
    composition queued already. *)
Definition onDisk : App :=
  setDisk (<["/p/shot.aep" := project queued]> (disk queued)) queued.

Definition renderedAgain : Res unit * App := Render.run lossless defaultSettings onDisk.

(** The same on a host that refuses [rq.render()], at line 319 of the script. *)
Definition refusedRender : Env :=
  {| fails := fun op => match op with OpRender => true | _ => false end;
     fileExists := fun _ => true;
     parentExists := fun _ => true;
     fsName := fun f => f;
     seqName := fun _ => "beauty.[1001-1100].exr";
     seqDuration := fun _ => 2%Q;
     seqStill := fun _ => false;
     templates := ["Lossless"];
     tempFile := "/tmp/untitled.aep";
     hasColorSettings := false;
     cancelAt := fun _ => false;
     timeoutAt := fun _ => false;
     errLine := fun _ => 319 |}.

Definition notRendered : Res unit * App :=
  Render.run refusedRender defaultSettings onDisk.

(** A host with two of the default templates installed, [Lossless] first. *)
Definition twoTemplates : Env :=
  hostWith (fun _ => true) (fun _ => false) ["Lossless"; "PNG Sequence"].

(** A host without output templates that refuses every setting. *)
Definition noSettings : Env :=
  hostWith (fun _ => true)
           (fun op => match op with OpSetSetting _ _ => true | _ => false end) [].

(** The [try] block of the render script on [queued]. *)
Definition requeued : App := snd (Render.body lossless defaultSettings queued).

(** A configuration with a frame rate of 0, no size and an empty name. *)
Definition zeroed : gmap string value :=
  <["frame_rate" := num 0]> (<["width" := num 0]> (<["comp_name" := VStr ""]>
    (<["project_path" := VStr "/p/shot.aep"]>
    (<["output_path" := VStr "/out/beauty_[#####].png"]> ∅)))).

Definition zeroedSettings : Startup.Settings :=
  {| Startup.FRAME_RATE := 24;
     Startup.GLOBAL_FIRST := 1;
     Startup.GLOBAL_LAST := 100;
     Startup.COMP_NAME := "AEBridge";
     Startup.COMP_WIDTH := 1920; Startup.COMP_HEIGHT := 1080;
     Startup.items := []; Startup.PROJECT_PATH := Some "/p/shot.aep";
     Startup.OUTPUT_PATH := "/out/beauty_[#####].png"; Startup.SHOULD_RENDER := false;
     Startup.NUKE_COLORSPACE := "scene_linear";
     Startup.NUKE_WORKING_SPACE := "linear";
     Startup.ACES_COMPLIANT := false |}.

Definition zeroedRender : Render.Settings :=
  {| Render.projectPath := "/p/shot.aep"; Render.compName := "AEBridge";
     Render.frameRate := 24; Render.globalFirst := 0;
     Render.globalLast := 0;
     Render.outputPath := "/out/beauty_[#####].png";
     Render.templateName := "";
     Render.desiredChannels := VStr "RGB + Alpha";
     Render.desiredDepth := VStr "16 Bits/Channel";
     Render.desiredColor := VStr "Straight (Unmatted)";
     Render.desiredQuality := 100 |}.

(** The saved project of [foundOnce] on disk, After Effects just launched;
    and the settings of a render of a composition the project does not have. *)
Definition launched : App :=
  setDisk (<["/p/shot.aep" := project foundOnce]> ∅) blank.

Definition otherComp : Render.Settings :=
  {| Render.projectPath := "/p/shot.aep"; Render.compName := "Other";
     Render.frameRate := 24; Render.globalFirst := 1001;
     Render.globalLast := 1100;
     Render.outputPath := "/out/beauty_[#####].png";
     Render.templateName := "";
     Render.desiredChannels := VStr "RGB + Alpha";
     Render.desiredDepth := VStr "16 Bits/Channel";
     Render.desiredColor := VStr "Straight (Unmatted)";
     Render.desiredQuality := 100 |}.

(** One pass over the shot of [beauty], after [ensured]. *)
Definition nestedOnce : App :=
  snd (Startup.reconcile allFiles shotSettings 1 beautyShot ensured).

(** The shot of [beauty] with fifty more frames, its configuration, a second
    run with it on the project of [foundOnce], and the pass of that run over
    the shot. *)
Definition longerShot : Startup.ShotItem :=
  {| Startup.name := "beauty"; Startup.path := Some "/x/beauty.0001.exr";
     Startup.first := 1001; Startup.last := 1150 |}.

Definition longer : gmap string value :=
  <["items" := VArr [shot "beauty" "/x/beauty.0001.exr" 1001 1150]]> (beauty 1001).

Definition foundThenLonger : App :=
  default foundOnce (startup allFiles longer foundOnce).

Definition reconciledLonger : App :=
  snd (Startup.reconcile allFiles (beautySettings 1001) 1 longerShot foundOnce).

End Scenario.

(** * The vocabulary of the properties *)

Import Host.

(** [I] is kept by the script [m], whether it returns or throws. *)
Definition preserves {A} (I : App -> Prop) (m : M A) : Prop :=
  forall a r a', I a -> m a = (r, a') -> I a'.

(** The render queue holds [n] items. *)
Definition queueLength (n : nat) (a : App) : Prop :=
  length (renderQueue (project a)) = n.

Definition timing (l : Layer) : Q * Q * Q := (startTime l, inPoint l, outPoint l).

(** Layer [t] of composition [c] exists and has the timing [tm]. *)
Definition hasTiming (c t : nat) (tm : Q * Q * Q) (a : App) : Prop :=
  exists lay, getLayer (project a) c t = Some lay /\ timing lay = tm.

(** A change of the project that leaves layer [t] of [c] in place, with its timing. *)
Definition keepsTiming (c t : nat) (f : Project -> Project) : Prop :=
  forall p lay, getLayer p c t = Some lay ->
    exists lay', getLayer (f p) c t = Some lay' /\ timing lay' = timing lay.

(** The layers of a composition are distinct objects, all older than the
    next identity the host will hand out. *)
Definition wfLayers (n : nat) (ls : list Layer) : Prop :=
  NoDup (map lid ls) /\ Forall (fun l => lid l < n) ls.

Definition wfBody (n : nat) (b : Body) : Prop :=
  match b with
  | CompItem k => wfLayers n (layers k)
  | FootageItem _ => True
  end.

Definition wf (p : Project) : Prop :=
  Forall (fun it => wfBody (nextId p) (body it)) (pitems p).

Definition wfApp (a : App) : Prop := wf (project a).






(** The script [m] returns normally from every state. *)
Definition neverThrows {A} (m : M A) : Prop :=
  forall a, exists x a', m a = (Ok x, a').

(** An item without the settings of a composition: its identity, its name,
    and the layers of a composition or the footage. *)
Definition skeleton (it : Item) : nat * string * (list Layer + Footage) :=
  (iid it, iname it,
   match body it with
   | CompItem k => inl (layers k)
   | FootageItem f => inr f
   end).

Definition skeletons (a : App) : list (nat * string * (list Layer + Footage)) :=
  map skeleton (pitems (project a)).

(** An item without the interpretation of a footage: its identity, its name,
    and the composition if it is one. *)
Definition outline (it : Item) : nat * string * option Comp :=
  (iid it, iname it,
   match body it with
   | CompItem k => Some k
   | FootageItem _ => None
   end).

Definition outlines (a : App) : list (nat * string * option Comp) :=
  map outline (pitems (project a)).

(** What the project panel shows of an item: identity, name and kind. *)
Definition shape (it : Item) : nat * string * bool := (iid it, iname it, isComp it).

Definition shapes (p : Project) : list (nat * string * bool) := map shape (pitems p).

(** [q] has the items of [p], in their order and under their names, and
    perhaps more after them. *)
Definition grows (p q : Project) : Prop :=
  exists extra, shapes q = (shapes p ++ extra)%list.

(** The test of [findCompByName], on what the panel shows. *)
Definition namedComp (n : string) (s : nat * string * bool) : bool :=
  snd s && String.eqb (snd (fst s)) n.

(** Every character of [s] is of the class [[_\.\[\]0-9\-]]. *)
Fixpoint allRange (s : string) : bool :=
  match s with
  | EmptyString => true
  | String c r => Startup.isRangeChar c && allRange r
  end.

(** The branch of [importOrUpdateSequence] for a footage of the same path. *)
Definition refresh (env : Env) (e : nat) : M (option nat) :=
  attempt (Startup.reload env e) ;; ret (Some e).

(** Its branch for a footage of the same name that has a file. *)
Definition swap (env : Env) (f : string) (s : nat) (oldFile : string) : M (option nat) :=
  returned <-
    tryCatch
      (if negb (String.eqb oldFile (fsName env f)) then
         tryCatch
           (Startup.replaceWithSequence env s f ;;
            attempt (Startup.reload env s) ;;
            ret (Some s))
           (fun _ =>
              tryCatch
                (Startup.replace env s f ;;
                 attempt (Startup.reload env s) ;;
                 ret (Some s))
                (fun _ => ret None))
       else ret None)
      (fun _ => ret None) ;;
  match returned with
  | Some x => ret (Some x)
  | None => attempt (Startup.reload env s) ;; ret (Some s)
  end.

(** Layer [t] of composition [c] shows item [f]. *)
Definition shows (c t f : nat) (a : App) : Prop :=
  exists lay, getLayer (project a) c t = Some lay /\ source lay = f.

(** [g] keeps layer [t] of [c] in place, with its source. *)
Definition keepsSource (c t : nat) (g : Project -> Project) : Prop :=
  forall p lay, getLayer p c t = Some lay ->
    exists lay', getLayer (g p) c t = Some lay' /\ source lay' = source lay.

(** The [try] block of the start-up script in two parts: building the
    project, up to the end of the item loop, and what follows it. *)
Definition build (env : Env) (st : Startup.Settings) : M nat :=
  onDisk <- projectFileExists (Startup.prjFile env st) ;;
  (if onDisk then openProject env (Startup.prjFile env st) else newProject env) ;;
  attempt (host env OpSetTimeDisplayType (setTimeDisplayFrames true)) ;;
  Startup.colorPolicy env st ;;
  mainComp <- Startup.ensureComp env st (Startup.COMP_NAME st) ;;
  Startup.processItems env st mainComp 0 (Startup.items st) ;;
  ret mainComp.

Definition finish (env : Env) (st : Startup.Settings) (mainComp : nat) : M unit :=
  when (negb (parentExists env (Startup.prjFile env st)))
       (host env (OpCreateFolder (Startup.prjFile env st)) id) ;;
  save env (Startup.prjFile env st) ;;
  when (Startup.SHOULD_RENDER st && negb (String.eqb (Startup.OUTPUT_PATH st) ""))
       (Startup.renderMain env st mainComp) ;;
  modify (writeLog Startup.successLog
            ["SUCCESS: Project updated";
             "Project: " ++ default "undefined" (Startup.PROJECT_PATH st);
             "Comp: " ++ Startup.COMP_NAME st]).

(** What a run of the start-up script must not touch when it is cancelled:
    the project files, the renders, the success log. *)
Definition outcome (a : App) : gmap string Project * nat * option (list string) :=
  (disk a, renders a, logs a !! Startup.successLog).

(** Item [ri] is the last of the render queue and renders composition [c];
    [n] renders have finished. *)
Definition queued (ri c n : nat) (a : App) : Prop :=
  length (renderQueue (project a)) = S ri
  /\ (rqComp <$> renderQueue (project a) !! ri) = Some c
  /\ renders a = n.

(** [Q] holds of the way the script [m] ends, from a state in which [I]
    holds. *)
Definition ends {A} (I : App -> Prop) (Q : Res A -> App -> Prop) (m : M A) : Prop :=
  forall a r a', I a -> m a = (r, a') -> Q r a'.

(** The queued items that render composition [c]. *)
Definition queuedFor (c : nat) (rq : list RQItem) : list RQItem :=
  List.filter (fun r => Nat.eqb (rqComp r) c) rq.

(** The queued items that render another composition. *)
Definition queuedForOthers (c : nat) (rq : list RQItem) : list RQItem :=
  List.filter (fun r => negb (Nat.eqb (rqComp r) c)) rq.

(** How the [try] block of the render script may end, [n] renders having
    finished before: with one more render and the success log, or with a
    throw and no render. *)
Definition renderedOnce (st : Render.Settings) (n : nat) (r : Res unit) (a : App) : Prop :=
  match r with
  | Ok _ =>
      renders a = S n
      /\ logs a !! Render.renderSuccessLog
         = Some ["SUCCESS: Render completed"; "Output: " ++ Render.outputPath st]
  | Throw _ => renders a = n
  end.

(** The project panel shows [s], and one queued item renders composition [c]. *)
Definition oneQueued (s : list (nat * string * bool)) (c : nat) (a : App) : Prop :=
  shapes (project a) = s
  /\ length (queuedFor c (renderQueue (project a))) = 1.

(** The items of the project have identities of their own, all of them
    handed out by the project. *)
Definition itemsApart (p : Project) : Prop :=
  NoDup (map iid (pitems p)) /\ Forall (fun it => iid it < nextId p) (pitems p).

(** Item [c] is a composition called [n]. *)
Definition named (c : nat) (n : string) (a : App) : Prop :=
  isCompItem (project a) c = true /\ itemName (project a) c = n.

(** [g] keeps what [named] reads. *)
Definition keepsNamed (g : Project -> Project) : Prop :=
  forall c p, isCompItem p c = true ->
    isCompItem (g p) c = true /\ itemName (g p) c = itemName p c.

(** What the time-remap block reads and writes of a layer: its source,
    whether time remapping is enabled, and the keys. *)
Definition remapping (l : Layer) : nat * bool * list (Q * Q) :=
  (source l, timeRemapEnabled l, remapKeys l).

(** Layer [t] of composition [c] exists, and [view] reads [v] off it. *)
Definition hasView {V} (view : Layer -> V) (c t : nat) (v : V) (a : App) : Prop :=
  exists lay, getLayer (project a) c t = Some lay /\ view lay = v.

(** [g] keeps layer [t] of [c] in place, with what [view] reads off it. *)
Definition keepsView {V} (view : Layer -> V) (c t : nat) (g : Project -> Project) : Prop :=
  forall p lay, getLayer p c t = Some lay ->
    exists lay', getLayer (g p) c t = Some lay' /\ view lay' = view lay.

(** [g] changes no footage item. *)
Definition keepsFootage (g : Project -> Project) : Prop :=
  forall p i, getFootage (g p) i = getFootage p i.

(** Every layer of [x] is a layer of [a], unchanged. *)
Definition layersFrom (a x : App) : Prop :=
  forall c t lay, getLayer (project x) c t = Some lay ->
                  getLayer (project a) c t = Some lay.

(** [g] adds no layer and changes none. *)
Definition keepsOld (g : Project -> Project) : Prop :=
  forall p c t lay, getLayer (g p) c t = Some lay -> getLayer p c t = Some lay.

(** No identity below [n] is handed out any more. *)
Definition nextFrom (n : nat) (a : App) : Prop := n <= nextId (project a).

(** * Properties *)

(** ** Reasoning about scripts *)

Section MonadFacts.

Context {A B : Type}.

Lemma bind_ok (m : M A) (k : A -> M B) (a a' : App) (y : B) :
  bind m k a = (Ok y, a') ->
  exists x a1, m a = (Ok x, a1) /\ k x a1 = (Ok y, a').
Proof.
  unfold bind. destruct (m a) as [[x|e] a1]; intros H.
  - exists x, a1. split; [reflexivity | exact H].
  - discriminate H.
Qed.

Lemma bind_run (m : M A) (k : A -> M B) (a a1 : App) (x : A) :
  m a = (Ok x, a1) -> bind m k a = k x a1.
Proof. intros H. unfold bind. now rewrite H. Qed.

Lemma bind_throw (m : M A) (k : A -> M B) (a a1 : App) (e : string) :
  m a = (Throw e, a1) -> bind m k a = (Throw e, a1).
Proof. intros H. unfold bind. now rewrite H. Qed.

End MonadFacts.

Lemma attempt_ok (m : M unit) (a : App) :
  exists a', attempt m a = (Ok tt, a')
             /\ (m a = (Ok tt, a') \/ exists e, m a = (Throw e, a')).
Proof.
  unfold attempt, tryCatch, ret.
  destruct (m a) as [[[]|e] a1]; exists a1; split; eauto.
Qed.

Lemma host_ok (env : Env) (op : Op) (f : Project -> Project) (a a' : App) (u : unit) :
  host env op f a = (Ok u, a') ->
  fails env op = false /\ a' = setProject (f (project a)) a.
Proof.
  unfold host. destruct (fails env op); intros H; inversion H; auto.
Qed.

Lemma host_run (env : Env) (op : Op) (f : Project -> Project) (a : App) :
  fails env op = false ->
  host env op f a = (Ok tt, setProject (f (project a)) a).
Proof. intros H. unfold host. now rewrite H. Qed.

(** *** Invariants kept by a script *)

Section Preserves.

Variable I : App -> Prop.

Lemma preserves_ret {A} (x : A) : preserves I (ret x).
Proof. intros a r a' Ha H. inversion H. now subst. Qed.

Lemma preserves_throw {A} (e : string) : preserves I (@throw A e).
Proof. intros a r a' Ha H. inversion H. now subst. Qed.

Lemma preserves_gets {A} (f : Project -> A) : preserves I (gets f).
Proof. intros a r a' Ha H. inversion H. now subst. Qed.

Lemma preserves_bind {A B} (m : M A) (k : A -> M B) :
  preserves I m -> (forall x, preserves I (k x)) -> preserves I (bind m k).
Proof.
  intros Hm Hk a r a' Ha. unfold bind.
  destruct (m a) as [[x|e] a1] eqn:E; intros H.
  - eapply Hk; [eapply Hm; eauto | exact H].
  - inversion H; subst. eapply Hm; eauto.
Qed.

Lemma preserves_tryCatch {A} (m : M A) (h : string -> M A) :
  preserves I m -> (forall e, preserves I (h e)) -> preserves I (tryCatch m h).
Proof.
  intros Hm Hh a r a' Ha. unfold tryCatch.
  destruct (m a) as [[x|e] a1] eqn:E; intros H.
  - inversion H; subst. eapply Hm; eauto.
  - eapply Hh; [eapply Hm; eauto | exact H].
Qed.

Lemma preserves_attempt (m : M unit) : preserves I m -> preserves I (attempt m).
Proof.
  intros Hm. apply preserves_tryCatch; [exact Hm | intros; apply preserves_ret].
Qed.

Lemma preserves_when (b : bool) (m : M unit) :
  preserves I m -> preserves I (when b m).
Proof. intros Hm. destruct b; [exact Hm | apply preserves_ret]. Qed.

Lemma preserves_modify (f : App -> App) :
  (forall a, I a -> I (f a)) -> preserves I (modify f).
Proof. intros Hf a r a' Ha H. inversion H; subst. auto. Qed.

Lemma preserves_host (env : Env) (op : Op) (f : Project -> Project) :
  (forall a, I a -> I (setProject (f (project a)) a)) ->
  preserves I (host env op f).
Proof.
  intros Hf a r a' Ha. unfold host.
  destruct (fails env op); intros H; inversion H; subst; auto.
Qed.

Lemma preserves_theComp (c : nat) : preserves I (theComp c).
Proof.
  intros a r a' Ha. unfold theComp.
  destruct (getComp (project a) c); intros H; inversion H; now subst.
Qed.

Lemma preserves_theFootage (f : nat) : preserves I (theFootage f).
Proof.
  intros a r a' Ha. unfold theFootage.
  destruct (getFootage (project a) f); intros H; inversion H; now subst.
Qed.

Lemma preserves_theLayer (c l : nat) : preserves I (theLayer c l).
Proof.
  intros a r a' Ha. unfold theLayer.
  destruct (getLayer (project a) c l); intros H; inversion H; now subst.
Qed.

End Preserves.

Ltac bind_inv H :=
  let x := fresh "x" in
  let a := fresh "a" in
  let E := fresh "E" in
  apply bind_ok in H; destruct H as (x & a & E & H).

(** Walks through a script, leaving the host calls to [leaf]. *)
Ltac pres leaf :=
  repeat first
    [ leaf
    | apply preserves_ret | apply preserves_throw | apply preserves_gets
    | apply preserves_theComp | apply preserves_theFootage | apply preserves_theLayer
    | apply preserves_attempt | apply preserves_when
    | apply preserves_bind; [|intros ?]
    | apply preserves_tryCatch; [|intros ?]
    | match goal with |- preserves _ (if ?b then _ else _) => destruct b end
    | match goal with |- preserves _ (match ?x with _ => _ end) => destruct x end ].

(** ** The defaults of the configuration *)

Section Defaults.

Variable config : gmap string value.
Variable k : string.
Variable v : value.
Hypothesis falsy : truthy v = false.

(** A falsy value under [||] is indistinguishable from an absent property. *)
Lemma or_falsy_insert (k' : string) (d : value) :
  or (prop (<[k:=v]> config) k') d = or (prop (delete k config) k') d.
Proof using falsy.
  unfold prop.
  destruct (decide (k = k')) as [->|Hne].
  - rewrite lookup_insert_eq, lookup_delete_eq. simpl.
    unfold or. now rewrite falsy.
  - now rewrite lookup_insert_ne, lookup_delete_ne.
Qed.

Lemma prop_insert_ne (k' : string) :
  k <> k' -> prop (<[k:=v]> config) k' = prop (delete k config) k'.
Proof using Type.
  intros Hne. unfold prop. now rewrite lookup_insert_ne, lookup_delete_ne.
Qed.

Lemma truthy_prop_insert (k' : string) :
  truthy (prop (<[k:=v]> config) k') = truthy (prop (delete k config) k').
Proof using falsy.
  unfold prop.
  destruct (decide (k = k')) as [->|Hne].
  - rewrite lookup_insert_eq, lookup_delete_eq. simpl. exact falsy.
  - now rewrite lookup_insert_ne, lookup_delete_ne.
Qed.

Lemma readStartup_falsy :
  k <> "project_path" ->
  Config.readStartup (<[k:=v]> config) = Config.readStartup (delete k config).
Proof using falsy.
  intros Hk. unfold Config.readStartup.
  rewrite !or_falsy_insert. now rewrite (prop_insert_ne "project_path" Hk).
Qed.

Lemma readRender_falsy :
  k <> "project_path" -> k <> "output_path" ->
  Config.readRender (<[k:=v]> config) = Config.readRender (delete k config).
Proof using falsy.
  intros Hp Ho. unfold Config.readRender.
  rewrite !or_falsy_insert.
  now rewrite (prop_insert_ne "project_path" Hp), (prop_insert_ne "output_path" Ho).
Qed.

Lemma truthy_prop_same : truthy (prop (<[k:=v]> config) k) = false.
Proof using falsy. unfold prop. now rewrite lookup_insert_eq. Qed.

Lemma truthy_prop_delete : truthy (prop (delete k config) k) = false.
Proof using Type. unfold prop. now rewrite lookup_delete_eq. Qed.

Lemma renderMain_falsy (env : Env) :
  Render.main env (Config.Parsed (<[k:=v]> config))
  = Render.main env (Config.Parsed (delete k config)).
Proof using falsy.
  destruct (decide (k = "project_path")) as [Hp|Hp];
    [|destruct (decide (k = "output_path")) as [Ho|Ho]].
  - unfold Render.main, Config.readRender; simpl. rewrite <- Hp.
    now rewrite truthy_prop_same, truthy_prop_delete.
  - unfold Render.main, Config.readRender; simpl. rewrite <- Ho.
    rewrite truthy_prop_same, truthy_prop_delete.
    rewrite (truthy_prop_insert "project_path"). simpl.
    now rewrite !orb_true_r.
  - unfold Render.main. now rewrite (readRender_falsy Hp Ho).
Qed.

End Defaults.

(** C10.  A top-level field that holds a falsy value ([0], the empty string,
    [false], and [null] as well) is read exactly as if it were absent, and
    the default takes its place: the start-up script runs the same for every
    field that has a default (every field but [project_path]), the render
    script runs the same for every field, and a [global_first] of [0] becomes
    [1] in the start-up script and [0] in the render script. *)
Theorem falsy_field_reads_as_absent
    (env : Env) (config : gmap string value) (k : string) (v : value) :
  truthy v = false ->
  k <> "project_path" ->
  Startup.main env (Config.Parsed (<[k:=v]> config))
  = Startup.main env (Config.Parsed (delete k config))
  /\ (forall k', Render.main env (Config.Parsed (<[k':=v]> config))
                 = Render.main env (Config.Parsed (delete k' config)))
  /\ Config.GLOBAL_FIRST (Config.readStartup (<["global_first":=v]> config)) = num 1
  /\ Config.globalFirst (Config.readRender (<["global_first":=v]> config)) = num 0.
Proof.
  intros Hv Hk. repeat split.
  - unfold Startup.main. now rewrite (readStartup_falsy config k v Hv Hk).
  - intros k'. now apply renderMain_falsy.
  - simpl. unfold prop. rewrite lookup_insert_eq. simpl. unfold or. now rewrite Hv.
  - simpl. unfold prop. rewrite lookup_insert_eq. simpl. unfold or. now rewrite Hv.
Qed.

Lemma falsy_field_reads_as_absent_witness :
  Startup.main Scenario.noFiles
    (Config.Parsed (<["global_first":=num 0]> (Scenario.beauty 1001)))
  = Startup.main Scenario.noFiles
      (Config.Parsed (delete "global_first" (Scenario.beauty 1001)))
  /\ (forall k', Render.main Scenario.noFiles
                   (Config.Parsed (<[k':=num 0]> (Scenario.beauty 1001)))
                 = Render.main Scenario.noFiles
                     (Config.Parsed (delete k' (Scenario.beauty 1001))))
  /\ Config.GLOBAL_FIRST
       (Config.readStartup (<["global_first":=num 0]> (Scenario.beauty 1001))) = num 1
  /\ Config.globalFirst
       (Config.readRender (<["global_first":=num 0]> (Scenario.beauty 1001))) = num 0.
Proof.
  apply (falsy_field_reads_as_absent Scenario.noFiles (Scenario.beauty 1001)
           "global_first" (num 0)).
  - reflexivity.
  - discriminate.
Defined.

(** ** What the scripts do on the scenarios *)

Section Scenarios.

Import Scenario.

Example missingOnce_run :
  startup noFiles (beauty 1001) blank = Some missingOnce.
Proof. vm_compute. reflexivity. Qed.

Example missingTwice_run :
  startup noFiles (beauty 1001) missingOnce = Some missingTwice.
Proof. vm_compute. reflexivity. Qed.

Example foundOnce_run :
  startup allFiles (beauty 1001) blank = Some foundOnce.
Proof. vm_compute. reflexivity. Qed.

Example foundTwice_run :
  startup allFiles (beauty 1001) foundOnce = Some foundTwice.
Proof. vm_compute. reflexivity. Qed.

Example foundThenShifted_run :
  startup allFiles (beauty 991) foundOnce = Some foundThenShifted.
Proof. vm_compute. reflexivity. Qed.

(** With every shot on disk the second run changes nothing in the project. *)
Example found_rerun_is_identity : project foundTwice = project foundOnce.
Proof. vm_compute. reflexivity. Qed.

(** The first run on a shot whose footage lasts 2 s for a layer of 100/24 s:
    time remapping is on, with the two keys of the block. *)
Example first_run_installs_two_keys :
  map (fun l => (timeRemapEnabled l,
                 map (fun k => (Qred (fst k), Qred (snd k))) (remapKeys l)))
      (layersOf "[AEBridge]_beauty" (project foundOnce))
  = [(true, [(0 # 1, 0 # 1); (25 # 6, 2 # 1)])].
Proof. vm_compute. reflexivity. Qed.

(** The shot moves to another directory and keeps its name: the footage item
    is the same object with the new file, and nothing is added. *)
Example moved_shot_is_swapped_in_place :
  startup allFiles moved foundOnce = Some foundThenMoved
  /\ map iid (pitems (project foundThenMoved)) = map iid (pitems (project foundOnce))
  /\ (file <$> getFootage (project foundOnce) 3) = Some (Some "/x/beauty.0001.exr")
  /\ (file <$> getFootage (project foundThenMoved) 3) = Some (Some "/y/beauty.0001.exr")
  /\ map lid (layersOf "[AEBridge]_beauty" (project foundThenMoved)) = [4]
  /\ map source (layersOf "[AEBridge]_beauty" (project foundThenMoved)) = [3].
Proof. repeat apply conj; vm_compute; reflexivity. Qed.

(** When the host refuses both ways of swapping the file, the resolver
    returns the footage of the same name, still on its old file. *)
Example refused_swap_returns_stale_footage :
  fst (Startup.importOrUpdateSequence noSwap (Some "/y/beauty.0001.exr") "beauty"
         foundOnce) = Ok (Some 3)
  /\ (file <$> getFootage
                 (project (snd (Startup.importOrUpdateSequence noSwap
                                  (Some "/y/beauty.0001.exr") "beauty" foundOnce))) 3)
     = Some (Some "/x/beauty.0001.exr").
Proof. split; vm_compute; reflexivity. Qed.

(** The writes of the template path, in order: inside
    [configureOutputModule] the file is written before the numbering start;
    the script writes it once more at the end. *)
Example template_path_writes :
  omWrites 0 (project (snd (Render.body lossless templateSettings foundOnce)))
  = [WTemplate "Lossless";
     WFile "/out/beauty_[#####].png";
     WSetting "Output Module Settings" "Start Numbering" (VNum 1001);
     WIncludeSourceXMP;
     WFile "/out/beauty_[#####].png"].
Proof. vm_compute. reflexivity. Qed.

End Scenarios.

(** ** Reruns *)

(** C1.  Idempotence fails when a shot is missing on disk.  Both runs use the
    same configuration; the second run removes the placeholder layer of the
    first and calls [addSolid] again, which adds a second solid item named
    ["beauty (Missing)"] to the project.  The child composition still holds
    one placeholder layer, but the project is not the project of one run. *)
Theorem rerun_duplicates_placeholder_solid :
  Scenario.startup Scenario.noFiles (Scenario.beauty 1001) Scenario.blank
  = Some Scenario.missingOnce
  /\ Scenario.startup Scenario.noFiles (Scenario.beauty 1001) Scenario.missingOnce
     = Some Scenario.missingTwice
  /\ Scenario.footageNamed "beauty (Missing)" (project Scenario.missingOnce) = 1
  /\ Scenario.footageNamed "beauty (Missing)" (project Scenario.missingTwice) = 2
  /\ Scenario.layersNamed "[AEBridge]_beauty" "beauty (Missing)"
       (project Scenario.missingTwice) = 1
  /\ project Scenario.missingTwice <> project Scenario.missingOnce.
Proof.
  repeat apply conj; try (vm_compute; reflexivity).
  intros H.
  apply (f_equal (fun p => length (pitems p))) in H.
  vm_compute in H. discriminate H.
Qed.

(** ** Footage resolution *)

(** C3.  The file of the shot exists and no footage of the project matches
    it by path or by name, so the resolver reaches the import of a new
    sequence; the host refuses the import.  The exception leaves
    [importOrUpdateSequence] (the import is the one step without a
    [try]/[catch]), ends the item loop before the second shot and reaches the
    user as an error alert. *)
Theorem refused_import_escapes_resolver :
  fst (Startup.importOrUpdateSequence Scenario.noImport
         (Some "/x/beauty.0001.exr") "beauty" Scenario.blank)
  = Throw hostError
  /\ (alerts <$> Scenario.startup Scenario.noImport Scenario.twoShots Scenario.blank)
     = Some ["AEBridge Error: Error: After Effects error"]
  /\ ((fun a => Scenario.compsNamed "[AEBridge]_depth" (project a))
        <$> Scenario.startup Scenario.noImport Scenario.twoShots Scenario.blank)
     = Some 0.
Proof. repeat apply conj; vm_compute; reflexivity. Qed.

(** ** The start frame of a composition *)

(** C5.  With the frame-based setter the main composition starts at frame
    1001, the [global_first] of the configuration.  When the host refuses
    [displayStartFrame], the fallback writes
    [displayStartTime = (GLOBAL_FIRST - 1) / FRAME_RATE], and the composition
    starts at frame 1000. *)
Theorem fallback_start_frame_is_one_less :
  ((fun a => Scenario.startFrameOf "AEBridge" (project a))
     <$> Scenario.startup Scenario.noFiles (Scenario.beauty 1001) Scenario.blank)
  = Some (Some (1001 # 1))
  /\ ((fun a => Scenario.startFrameOf "AEBridge" (project a))
        <$> Scenario.startup Scenario.noStartFrame (Scenario.beauty 1001) Scenario.blank)
     = Some (Some (1000 # 1)).
Proof. split; vm_compute; reflexivity. Qed.

(** ** A configuration without [project_path] *)

(** C9.  The start-up script does not look at [project_path] before it
    works on the project: with the empty configuration it creates a project,
    adds the main composition, saves under the name the host makes up, writes
    the success log, and shows no alert. *)
Theorem startup_without_project_path_builds_project :
  Scenario.startup Scenario.noFiles ∅ Scenario.blank = Some Scenario.untitled
  /\ Scenario.compsNamed "AEBridge" (project Scenario.untitled) = 1
  /\ project Scenario.untitled <> project Scenario.blank
  /\ disk Scenario.untitled !! "/tmp/untitled.aep" = Some (project Scenario.untitled)
  /\ alerts Scenario.untitled = []
  /\ logs Scenario.untitled !! Startup.errorLog = None
  /\ logs Scenario.untitled !! Startup.successLog
     = Some ["SUCCESS: Project updated"; "Project: undefined"; "Comp: AEBridge"].
Proof.
  repeat apply conj; try (vm_compute; reflexivity).
  intros H. apply (f_equal (fun p => length (pitems p))) in H.
  vm_compute in H. discriminate H.
Qed.

(** The render script stops at the check: whatever else the configuration
    holds, a missing (or falsy) [project_path] is logged, alerted and thrown,
    and the application is otherwise untouched. *)
Lemma render_without_project_path_stops
    (env : Env) (cfg : gmap string value) (a : App) :
  truthy (prop cfg "project_path") = false ->
  let msg := "ERROR: Render config missing required fields (project_path / output_path)." in
  (fun m => m a) <$> Render.main env (Config.Parsed cfg)
  = Some (Throw msg, addAlert msg (writeLog Render.renderErrorLog ["ERROR: " ++ msg] a)).
Proof.
  intros H. unfold Render.main. cbn [Config.readRender Config.projectPath].
  now rewrite H.
Qed.

(** ** The output module *)





Section QueueLength.

Variable env : Env.
Variable n : nat.

Lemma queueLength_updRQItem (i : nat) (f : RQItem -> RQItem) (a : App) :
  queueLength n a -> queueLength n (setProject (updRQItem i f (project a)) a).
Proof. unfold queueLength. simpl. now rewrite length_alter. Qed.

Lemma preserves_omWrite (i : nat) (op : Op) (w : OmWrite) :
  preserves (queueLength n) (omWrite env i op w).
Proof. apply preserves_host. intros a. apply queueLength_updRQItem. Qed.

Lemma preserves_alertAndStop {A} (msg : string) :
  preserves (queueLength n) (@Render.alertAndStop A msg).
Proof.
  unfold Render.alertAndStop.
  pres ltac:(apply preserves_modify; intros a Ha; exact Ha).
Qed.

Lemma preserves_configureOutputModule (st : Render.Settings) (i : nat) (outfile : string) :
  preserves (queueLength n) (Render.configureOutputModule env st i outfile).
Proof.
  unfold Render.configureOutputModule, Render.configureWithTemplate,
    Render.configurePNGDefault, Render.applyTemplateByNames,
    Render.setStartNumbering, Render.setSetting.
  pres ltac:(first [ apply preserves_omWrite
                   | apply preserves_modify; intros a Ha; exact Ha ]).
Qed.

End QueueLength.

Lemma last_alter_end {A} (f : A -> A) (l : list A) (i : nat) :
  length l = S i -> exists x, l !! i = Some x /\ last (alter f i l) = Some (f x).
Proof.
  intros Hl.
  destruct (lookup_lt_is_Some_2 l i) as [x Hx]; [lia|].
  exists x. split; [exact Hx|].
  rewrite last_lookup, length_alter, Hl. simpl.
  now rewrite list_lookup_alter_eq, Hx.
Qed.

(** C7.  When the [try] block of the render script runs to its end, the
    output module of the render-queue item it added (the last of the queue)
    has the destination file as its last write: the template, every setting,
    the numbering start and [includeSourceXMP] were all written before it, on
    the template path and on the fallback path alike. *)
Theorem destination_file_is_the_last_write
    (env : Env) (st : Render.Settings) (a a' : App) :
  Render.body env st a = (Ok tt, a') ->
  exists r writes,
    last (renderQueue (project a')) = Some r
    /\ om r = (writes ++ [WFile (Render.outputPath st)])%list.
Proof.
  unfold Render.body. intros H.
  bind_inv H. bind_inv H. bind_inv H.
  destruct x1 as [mainComp|].
  2:{ unfold Render.alertAndStop in H. discriminate H. }
  do 4 bind_inv H.
  bind_inv H. rename x5 into rqItem.
  assert (Hq : queueLength (S rqItem) a7).
  { unfold addRQItem in E6. bind_inv E6. bind_inv E6.
    inversion E5; subst. inversion E6; subst.
    inversion E7; subst. apply host_ok in E8 as [_ ->].
    unfold queueLength. simpl. rewrite length_app. simpl. lia. }
  bind_inv H. bind_inv H. bind_inv H. bind_inv H. bind_inv H. bind_inv H.
  bind_inv H.
  assert (Hq8 : queueLength (S rqItem) a8).
  { refine (preserves_attempt _ _ _ _ _ _ Hq E7).
    pres ltac:(apply preserves_host; intros ?; apply queueLength_updRQItem). }
  assert (Hq9 : queueLength (S rqItem) a9).
  { refine (preserves_when _ _ _ _ _ _ _ Hq8 E8).
    pres ltac:(first [ apply preserves_alertAndStop
                     | apply preserves_host; intros ? Hx; exact Hx ]). }
  pose proof (preserves_configureOutputModule _ _ _ _ _ _ _ _ Hq9 E9) as Hq10.
  pose proof (preserves_when _ _ _ (preserves_alertAndStop _ _) _ _ _ Hq10 E10) as Hq11.
  pose proof (preserves_attempt _ _ (preserves_omWrite _ _ _ _ _) _ _ _ Hq11 E11) as Hq12.
  apply host_ok in E12 as [_ ->].
  unfold render in E13. destruct (fails env OpRender); [discriminate E13|].
  inversion E13; subst. inversion H; subst. simpl.
  destruct (last_alter_end (fun r => setOm (om r ++ [WFile (Render.outputPath st)]) r)
              (renderQueue (project a12)) rqItem Hq12) as (r & _ & Hlast).
  eexists _, (om r). split; [exact Hlast|reflexivity].
Qed.

Lemma destination_file_is_the_last_write_witness :
  exists r writes,
    last (renderQueue (project Scenario.rendered)) = Some r
    /\ om r = (writes ++ [WFile (Render.outputPath Scenario.defaultSettings)])%list.
Proof.
  apply (destination_file_is_the_last_write Scenario.lossless
           Scenario.defaultSettings Scenario.foundOnce Scenario.rendered).
  vm_compute. reflexivity.
Defined.

(** What the fallback path writes on that host, in order. *)
Example rendered_writes :
  omWrites 0 (project Scenario.rendered)
  = [WTemplate "Lossless";
     WSetting "Output Module Settings" "Channels" (VStr "RGB + Alpha");
     WSetting "Output Module Settings" "Depth" (VStr "16 Bits/Channel");
     WSetting "Output Module Settings" "Color" (VStr "Straight (Unmatted)");
     WSetting "PNG Options" "Quality" (VNum 100);
     WSetting "Format Options" "Quality" (VNum 100);
     WSetting "Output Module Settings" "Start Numbering" (VNum 1001);
     WFile "/out/beauty_[#####].png";
     WIncludeSourceXMP;
     WFile "/out/beauty_[#####].png"].
Proof. vm_compute. reflexivity. Qed.

(** ** Lookups after updates *)

Section Lookups.

Lemma find_map_stable {A} (key : A -> nat) (h : A -> A) (j : nat) (l : list A) :
  (forall x, key (h x) = key x) ->
  List.find (fun x => Nat.eqb (key x) j) (map h l)
  = option_map h (List.find (fun x => Nat.eqb (key x) j) l).
Proof.
  intros Hk. induction l as [|x l IH]; [reflexivity|].
  simpl. rewrite Hk. destruct (Nat.eqb (key x) j); [reflexivity | exact IH].
Qed.

Lemma find_key {A} (key : A -> nat) (j : nat) (l : list A) (x : A) :
  List.find (fun x => Nat.eqb (key x) j) l = Some x -> key x = j.
Proof.
  intros H. apply List.find_some in H as [_ H]. now apply Nat.eqb_eq.
Qed.

Lemma getComp_updComp (c c' : nat) (g : Comp -> Comp) (p : Project) :
  getComp (updComp c g p) c'
  = if Nat.eqb c c' then option_map g (getComp p c') else getComp p c'.
Proof.
  unfold getComp, getItem, updComp, updItem. simpl.
  rewrite (find_map_stable iid); [|intros x; now destruct (Nat.eqb (iid x) c)].
  destruct (List.find (fun it => Nat.eqb (iid it) c') (pitems p)) as [it|] eqn:E;
    simpl; [|now destruct (Nat.eqb c c')].
  apply find_key in E. rewrite E. rewrite (Nat.eqb_sym c' c).
  destruct (Nat.eqb c c'); [|reflexivity].
  simpl. now destruct (body it).
Qed.

Lemma getComp_updFootage (i c : nat) (g : Footage -> Footage) (p : Project) :
  getComp (updFootage i g p) c = getComp p c.
Proof.
  unfold getComp, getItem, updFootage, updItem. simpl.
  rewrite (find_map_stable iid); [|intros x; now destruct (Nat.eqb (iid x) i)].
  destruct (List.find (fun it => Nat.eqb (iid it) c) (pitems p)) as [it|]; simpl;
    [|reflexivity].
  destruct (Nat.eqb (iid it) i); [|reflexivity].
  simpl. now destruct (body it).
Qed.

Lemma getLayer_updLayers_other (c c' l : nat) (g : list Layer -> list Layer) (p : Project) :
  c <> c' -> getLayer (updLayers c g p) c' l = getLayer p c' l.
Proof.
  intros Hne. unfold getLayer, updLayers. rewrite getComp_updComp.
  apply Nat.eqb_neq in Hne. now rewrite Hne.
Qed.

Lemma getLayer_updLayers (c l : nat) (g : list Layer -> list Layer) (p : Project) :
  getLayer (updLayers c g p) c l
  = match getComp p c with
    | Some k => List.find (fun x => Nat.eqb (lid x) l) (g (layers k))
    | None => None
    end.
Proof.
  unfold getLayer, updLayers. rewrite getComp_updComp, Nat.eqb_refl.
  now destruct (getComp p c).
Qed.

Lemma getLayer_bumpId (c l : nat) (p : Project) :
  getLayer (bumpId p) c l = getLayer p c l.
Proof. reflexivity. Qed.

Lemma getLayer_updFootage (i c l : nat) (g : Footage -> Footage) (p : Project) :
  getLayer (updFootage i g p) c l = getLayer p c l.
Proof. unfold getLayer. now rewrite getComp_updFootage. Qed.

(** A write to one layer, seen from any layer: the layer written is changed
    by [g], every other layer is as before. *)
Lemma getLayer_updLayer (c l c' t : nat) (g : Layer -> Layer) (p : Project) :
  (forall x, lid (g x) = lid x) ->
  getLayer (updLayer c l g p) c' t
  = option_map (fun x => if Nat.eqb c c' && Nat.eqb l t then g x else x)
               (getLayer p c' t).
Proof.
  intros Hg. unfold updLayer.
  destruct (Nat.eqb_spec c c') as [<-|Hne].
  - rewrite getLayer_updLayers. unfold getLayer.
    destruct (getComp p c) as [k|]; [|reflexivity].
    rewrite (find_map_stable lid);
      [|intros x; destruct (Nat.eqb (lid x) l); [apply Hg | reflexivity]].
    destruct (List.find (fun x => Nat.eqb (lid x) t) (layers k)) as [x|] eqn:E;
      [|reflexivity].
    apply find_key in E. simpl. rewrite E. now rewrite (Nat.eqb_sym t l).
  - rewrite getLayer_updLayers_other by exact Hne.
    simpl. now destruct (getLayer p c' t).
Qed.

Lemma find_filter_kept {A} (sel keep : A -> bool) (l : list A) :
  (forall x, sel x = true -> keep x = true) ->
  List.find sel (List.filter keep l) = List.find sel l.
Proof.
  intros H. induction l as [|x l IH]; [reflexivity|].
  simpl. destruct (keep x) eqn:K; simpl.
  - now rewrite IH.
  - destruct (sel x) eqn:S; [|exact IH].
    apply H in S. congruence.
Qed.

End Lookups.

(** ** The timing of the source layer *)

Section Timing.

Variable env : Env.
Variables c t : nat.
Variable tm : Q * Q * Q.

Lemma preserves_host_timing (op : Op) (f : Project -> Project) :
  keepsTiming c t f -> preserves (hasTiming c t tm) (host env op f).
Proof.
  intros Hf. apply preserves_host. intros a (lay & Hl & Ht).
  destruct (Hf _ _ Hl) as (lay' & Hl' & Ht').
  exists lay'. split; [exact Hl' | congruence].
Qed.

Lemma keepsTiming_updLayer (c' l : nat) (g : Layer -> Layer) :
  (forall x, lid (g x) = lid x) -> (forall x, timing (g x) = timing x) ->
  keepsTiming c t (updLayer c' l g).
Proof.
  intros Hid Htm p lay Hl. rewrite (getLayer_updLayer _ _ _ _ _ _ Hid), Hl. simpl.
  eexists. split; [reflexivity|].
  destruct (Nat.eqb c' c && Nat.eqb l t); [apply Htm | reflexivity].
Qed.

Lemma keepsTiming_updLayer_other (c' l : nat) (g : Layer -> Layer) :
  c' <> c -> keepsTiming c t (updLayer c' l g).
Proof.
  intros Hne p lay Hl. unfold updLayer.
  rewrite getLayer_updLayers_other by exact Hne. eauto.
Qed.

Lemma keepsTiming_pushLayer_other (c' src : nat) :
  c' <> c -> keepsTiming c t (pushLayer c' src).
Proof.
  intros Hne p lay Hl. unfold pushLayer.
  rewrite getLayer_bumpId, getLayer_updLayers_other by exact Hne. eauto.
Qed.

Lemma keepsTiming_filter (keep : Layer -> bool) :
  (forall x, lid x = t -> keep x = true) ->
  keepsTiming c t (updLayers c (List.filter keep)).
Proof.
  intros Hk p lay Hl. rewrite getLayer_updLayers.
  unfold getLayer in Hl. destruct (getComp p c) as [k|]; [|discriminate Hl].
  rewrite find_filter_kept; [eauto|].
  intros x Hx. apply Hk. now apply Nat.eqb_eq.
Qed.

Lemma keepsTiming_updFootage (i : nat) (g : Footage -> Footage) :
  keepsTiming c t (updFootage i g).
Proof. intros p lay Hl. rewrite getLayer_updFootage. eauto. Qed.

Lemma keepsTiming_id : keepsTiming c t id.
Proof. intros p lay Hl. eauto. Qed.

End Timing.

Lemma writeLayer_ok (env : Env) (op : Op) (c l : nat) (g : Layer -> Layer)
    (a a' : App) (u : unit) :
  writeLayer env op c l g a = (Ok u, a') ->
  exists lay, getLayer (project a) c l = Some lay
              /\ a' = setProject (updLayer c l g (project a)) a.
Proof.
  unfold writeLayer. intros H. bind_inv H.
  unfold theLayer in E. destruct (getLayer (project a) c l) as [lay|] eqn:G;
    [|discriminate E].
  inversion E; subst. apply host_ok in H as [_ ->]. eauto.
Qed.

Section SourceLayer.

Variable env : Env.
Variable st : Startup.Settings.

Lemma preserves_remapIfNeeded (c t tm f : _) (sf ef : Q) (c' t' : nat) :
  preserves (hasTiming c' t' tm) (Startup.remapIfNeeded env st c t f sf ef).
Proof.
  unfold Startup.remapIfNeeded.
  assert (Hk : forall n, preserves (hasTiming c' t' tm) (Startup.clearKeys env c t n)).
  { induction n as [|n IH]; simpl.
    - apply preserves_ret.
    - unfold writeLayer.
      pres ltac:(first [ exact IH
                       | apply preserves_host_timing, keepsTiming_updLayer;
                         intros; reflexivity ]). }
  unfold writeLayer.
  pres ltac:(first [ apply Hk
                   | apply preserves_host_timing, keepsTiming_updLayer;
                     intros; reflexivity ]).
Qed.

Lemma preserves_dedupe (c t : nat) (tm : Q * Q * Q) (layerName : string) :
  preserves (hasTiming c t tm)
    (removeLayersWhere env c
       (fun p other => negb (Nat.eqb (lid other) t)
                       && Startup.isSourceLayer layerName p other)).
Proof.
  unfold removeLayersWhere. apply preserves_modify.
  intros a (lay & Hl & Ht).
  destruct (keepsTiming_filter c t
              (fun x => negb (negb (Nat.eqb (lid x) t)
                              && Startup.isSourceLayer layerName (project a) x)
                        || fails env (OpRemoveLayer (lid x)))
              ltac:(intros x <-; now rewrite Nat.eqb_refl) _ _ Hl)
    as (lay' & Hl' & Ht').
  exists lay'. split; [exact Hl' | congruence].
Qed.

Lemma bindSourceLayer_bound (precomp f : nat) (layerName : string)
    (a a' : App) (r : option nat) :
  Startup.bindSourceLayer env precomp (Some f) layerName a = (Ok r, a') ->
  exists t, r = Some t.
Proof.
  unfold Startup.bindSourceLayer. intros H. bind_inv H. bind_inv H.
  destruct x0 as [t|].
  - bind_inv H. destruct (negb (Nat.eqb (source x0) f)).
    + unfold tryCatch in H.
      destruct (bind _ _ a2) as [[y|e] a3] eqn:E2.
      * inversion H; subst. bind_inv E2. inversion E2. eauto.
      * bind_inv H. bind_inv H. inversion H. eauto.
    + inversion H. eauto.
  - bind_inv H. inversion H. eauto.
Qed.

Lemma configureLayer_timing (c t f : nat) (layerName : string) (sf ef : Q)
    (a a' : App) (u : unit) :
  Startup.configureLayer env st c t f layerName sf ef a = (Ok u, a') ->
  hasTiming c t (Startup.layerStartTime st sf, Startup.layerStartTime st sf,
                 Startup.layerEndTime st sf ef) a'.
Proof.
  unfold Startup.configureLayer. intros H. do 5 bind_inv H.
  apply writeLayer_ok in E1 as (l1 & G1 & ->).
  apply writeLayer_ok in E2 as (l2 & G2 & ->).
  apply writeLayer_ok in E3 as (l3 & G3 & ->).
  refine (preserves_remapIfNeeded _ _ _ _ _ _ _ _ _ _ _ _ H).
  clear G2 G3. unfold hasTiming. cbn [project setProject].
  rewrite !getLayer_updLayer by (intros; reflexivity).
  rewrite G1. simpl. rewrite !Nat.eqb_refl. simpl.
  eexists. split; reflexivity.
Qed.

Lemma ensureSourceLayer_timing (c f : nat) (layerName : string) (sf ef : Q)
    (a a' : App) (r : option nat) :
  Startup.ensureSourceLayer env st c (Some f) layerName sf ef a = (Ok r, a') ->
  exists t, r = Some t
            /\ hasTiming c t (Startup.layerStartTime st sf, Startup.layerStartTime st sf,
                              Startup.layerEndTime st sf ef) a'.
Proof.
  unfold Startup.ensureSourceLayer. intros H. bind_inv H.
  destruct (bindSourceLayer_bound _ _ _ _ _ _ E) as (t & ->).
  bind_inv H. bind_inv H. inversion H; subst.
  exists t. split; [reflexivity|].
  apply configureLayer_timing in E0.
  exact (preserves_dedupe _ _ _ _ _ _ _ E0 E1).
Qed.

End SourceLayer.

Section Reconcile.

Variable env : Env.
Variable st : Startup.Settings.

(** Nesting the child composition into the main composition leaves the
    layers of the child alone. *)
Lemma preserves_nest (mainComp preComp t : nat) (tm : Q * Q * Q) (n : string) :
  mainComp <> preComp ->
  preserves (hasTiming preComp t tm)
    (added <- addLayer env mainComp preComp ;;
     attempt (writeLayer env (OpSetLayerName added) mainComp added (setLname n)) ;;
     attempt (writeLayer env (OpSetStartTime added) mainComp added (setStartTime 0) ;;
              writeLayer env (OpSetOutPoint added) mainComp added
                (setOutPoint (Startup.DURATION st)))).
Proof.
  intros Hne. unfold addLayer, writeLayer.
  pres ltac:(first [ apply preserves_host_timing, keepsTiming_pushLayer_other, Hne
                   | apply preserves_host_timing, keepsTiming_updLayer_other, Hne ]).
Qed.

Lemma addLayer_self (c : nat) (a a' : App) (l : nat) :
  addLayer env c c a = (Ok l, a') -> False.
Proof.
  unfold addLayer. intros H. bind_inv H.
  rewrite Nat.eqb_refl in H. discriminate H.
Qed.

(** C4.  Whenever a pass of the item loop ends for a shot whose footage was
    resolved, the layer returned by [ensureSourceLayer] is in the child
    composition with [startTime = (first - GLOBAL_FIRST) / FRAME_RATE],
    [inPoint = startTime] and
    [outPoint = startTime + (last - first + 1) / FRAME_RATE], whatever the
    project held before the pass; so [outPoint - startTime] is the length of
    the shot (exactly, hence within 0.01 s). *)
Theorem source_layer_timing_is_recomputed
    (mainComp : nat) (it : Startup.ShotItem) (a a' : App)
    (preComp : nat) (srcLayer : option nat) :
  Startup.reconcile env st mainComp it a = (Ok (preComp, Startup.Bound srcLayer), a') ->
  exists l lay,
    srcLayer = Some l
    /\ getLayer (project a') preComp l = Some lay
    /\ startTime lay
       = ((Startup.first it - Startup.GLOBAL_FIRST st) / Startup.FRAME_RATE st)%Q
    /\ inPoint lay = startTime lay
    /\ outPoint lay
       = (startTime lay
          + (Startup.last it - Startup.first it + 1) / Startup.FRAME_RATE st)%Q
    /\ (Qabs (outPoint lay - startTime lay
              - (Startup.last it - Startup.first it + 1) / Startup.FRAME_RATE st)
        <= 1 # 100)%Q.
Proof.
  unfold Startup.reconcile. intros H.
  bind_inv H. rename x into pre. bind_inv H. rename x into footage.
  do 3 bind_inv H.
  destruct footage as [f|].
  2:{ do 3 bind_inv H. inversion H. }
  do 4 bind_inv H. inversion H; subst; clear H.
  apply ensureSourceLayer_timing in E4 as (l & -> & Ht).
  assert (Ht' : hasTiming preComp l
                  (Startup.layerStartTime st (Startup.first it),
                   Startup.layerStartTime st (Startup.first it),
                   Startup.layerEndTime st (Startup.first it) (Startup.last it)) a').
  { pose proof (preserves_theComp _ _ _ _ _ Ht E5) as Ht5.
    pose proof (preserves_gets _ _ _ _ _ Ht5 E6) as Ht6.
    unfold when in E7. destruct (negb _).
    - destruct (Nat.eqb_spec mainComp preComp) as [->|Hne].
      + exfalso. bind_inv E7. exact (addLayer_self _ _ _ _ E4).
      + exact (preserves_nest _ _ _ _ _ Hne _ _ _ Ht6 E7).
    - inversion E7; subst. exact Ht6. }
  destruct Ht' as (lay & Hl & Htm).
  exists l, lay. unfold timing in Htm. injection Htm as Hs Hi Ho.
  rewrite Ho, Hi, Hs.
  unfold Startup.layerEndTime, Startup.layerDuration, Startup.layerStartTime.
  split; [reflexivity|]. split; [exact Hl|].
  split; [reflexivity|]. split; [reflexivity|]. split; [reflexivity|].
  match goal with |- (Qabs ?e <= _)%Q => assert (Hz : (e == 0)%Q) by ring end.
  rewrite Hz. intros Hc. discriminate Hc.
Qed.

End Reconcile.

(** ** Time remapping *)

Section Remap.

Variable env : Env.
Variable st : Startup.Settings.

Lemma getLayer_updLayer_same (c l : nat) (g : Layer -> Layer) (p : Project) (lay : Layer) :
  (forall x, lid (g x) = lid x) ->
  getLayer p c l = Some lay ->
  getLayer (updLayer c l g p) c l = Some (g lay).
Proof.
  intros Hg Hl. rewrite getLayer_updLayer by exact Hg. rewrite Hl. simpl.
  now rewrite !Nat.eqb_refl.
Qed.

Lemma writeLayer_run (op : Op) (c l : nat) (g : Layer -> Layer) (a : App) (lay : Layer) :
  getLayer (project a) c l = Some lay ->
  fails env op = false ->
  writeLayer env op c l g a = (Ok tt, setProject (updLayer c l g (project a)) a).
Proof.
  intros Hl Hf. unfold writeLayer, bind, theLayer. rewrite Hl.
  now apply host_run.
Qed.

Lemma clearKeys_run (c t : nat) (fuel : nat) :
  fails env (OpRemoveKey t) = false ->
  forall (a : App) (lay : Layer),
    getLayer (project a) c t = Some lay ->
    length (remapKeys lay) <= fuel ->
    exists a' lay',
      Startup.clearKeys env c t fuel a = (Ok tt, a')
      /\ getLayer (project a') c t = Some lay'
      /\ remapKeys lay' = []
      /\ timeRemapEnabled lay' = timeRemapEnabled lay.
Proof.
  intros Hf. induction fuel as [|n IH]; intros a lay Hl Hn.
  - exists a, lay. repeat apply conj; try reflexivity; try assumption.
    destruct (remapKeys lay); [reflexivity | simpl in Hn; lia].
  - simpl. unfold bind at 1, theLayer. rewrite Hl.
    destruct (remapKeys lay) as [|k ks] eqn:Ek.
    + exists a, lay. repeat apply conj; try reflexivity; assumption.
    + rewrite (bind_run _ _ _ _ _
                 (writeLayer_run (OpRemoveKey t) c t
                    (fun x => setRemapKeys (tl (remapKeys x)) x) a lay Hl Hf)).
      destruct (IH (setProject (updLayer c t (fun x => setRemapKeys (tl (remapKeys x)) x)
                                  (project a)) a)
                   (setRemapKeys (tl (remapKeys lay)) lay))
        as (a' & lay' & Hr & Hl' & Hk & He).
      * simpl.
        apply (getLayer_updLayer_same c t (fun x => setRemapKeys (tl (remapKeys x)) x));
          [reflexivity | exact Hl].
      * simpl. rewrite Ek. simpl in *. lia.
      * exists a', lay'. repeat apply conj; assumption.
Qed.

(** With the first frame no later than the last and a positive frame rate,
    the layer ends after it starts. *)
Lemma layer_ends_after_start (sf ef : Q) :
  (sf <= ef)%Q -> (0 < Startup.FRAME_RATE st)%Q ->
  (Startup.layerStartTime st sf < Startup.layerEndTime st sf ef)%Q.
Proof.
  intros Hle Hfr. unfold Startup.layerEndTime, Startup.layerDuration.
  rewrite <- (Qplus_0_r (Startup.layerStartTime st sf)) at 1.
  apply Qplus_lt_r. apply Qlt_shift_div_l; [exact Hfr|].
  rewrite Qmult_0_l.
  apply Qlt_le_trans with (y := 1%Q); [reflexivity|].
  rewrite <- (Qplus_0_l 1) at 1. apply Qplus_le_l.
  now apply (Qplus_le_l _ _ sf); ring_simplify.
Qed.

Lemma two_keys (s e d : Q) :
  (s < e)%Q -> setValueAtTime e d (setValueAtTime s 0 []) = [(s, 0%Q); (e, d)].
Proof.
  intros Hlt. simpl.
  destruct (Qeq_bool e s) eqn:E1.
  - apply Qeq_bool_eq in E1. rewrite E1 in Hlt. now apply Qlt_irrefl in Hlt.
  - destruct (Qle_bool e s) eqn:E2; [|reflexivity].
    apply Qle_bool_imp_le in E2. exfalso. now apply (Qlt_not_le _ _ Hlt).
Qed.

Lemma theLayer_run (c l : nat) (a : App) (lay : Layer) :
  getLayer (project a) c l = Some lay -> theLayer c l a = (Ok lay, a).
Proof. intros H. unfold theLayer. now rewrite H. Qed.

Lemma theFootage_run (f : nat) (a : App) (fo : Footage) :
  getFootage (project a) f = Some fo -> theFootage f a = (Ok fo, a).
Proof. intros H. unfold theFootage. now rewrite H. Qed.

(** The time-remap block on its own, for a shot with [first <= last] at a
    positive frame rate whose footage differs in duration from the layer by
    more than 0.01 s: when time remapping is already enabled on the layer the
    block changes nothing; when it is not, the layer can be remapped and the
    host accepts the writes, the block enables it and leaves exactly the two
    keys [layerStartTime -> 0] and [layerEndTime -> footage.duration]. *)
Lemma remapIfNeeded_rebuilds
    (c t f : nat) (sf ef : Q) (a : App) (lay : Layer) (fo : Footage) :
  getLayer (project a) c t = Some lay ->
  getFootage (project a) f = Some fo ->
  (sf <= ef)%Q ->
  (0 < Startup.FRAME_RATE st)%Q ->
  Startup.differs (fduration fo) (Startup.layerDuration st sf ef) = true ->
  timeRemapEnabled lay
  || (canSetTimeRemapEnabled (project a) lay
      && negb (fails env (OpSetTimeRemapEnabled t))
      && negb (fails env (OpRemoveKey t))
      && negb (fails env (OpSetValueAtTime t))) = true ->
  exists a',
    Startup.remapIfNeeded env st c t f sf ef a = (Ok tt, a')
    /\ if timeRemapEnabled lay then a' = a
       else exists lay',
              getLayer (project a') c t = Some lay'
              /\ timeRemapEnabled lay' = true
              /\ remapKeys lay'
                 = [(Startup.layerStartTime st sf, 0%Q);
                    (Startup.layerEndTime st sf ef, fduration fo)].
Proof.
  intros Hl Hfo Hle Hfr Hd Hok.
  unfold Startup.remapIfNeeded, attempt, tryCatch.
  rewrite (bind_run _ _ _ _ _ (theLayer_run c t a lay Hl)).
  unfold bind at 1, gets at 1.
  destruct (timeRemapEnabled lay) eqn:En.
  - exists a. rewrite andb_false_r. simpl. split; reflexivity.
  - simpl in Hok.
    apply andb_prop in Hok as [Hok H3]. apply andb_prop in Hok as [Hok H2].
    apply andb_prop in Hok as [Hcan H1].
    apply negb_true_iff in H1, H2, H3.
    rewrite Hcan. simpl.
    rewrite (bind_run _ _ _ _ _ (theFootage_run f a fo Hfo)).
    rewrite Hd. simpl.
    unfold bind at 1, gets at 1.
    rewrite (bind_run _ _ _ _ _
               (writeLayer_run (OpSetTimeRemapEnabled t) c t
                  (enableTimeRemap (project a)) a lay Hl H1)).
    set (a1 := setProject (updLayer c t (enableTimeRemap (project a)) (project a)) a).
    assert (Hl1 : getLayer (project a1) c t = Some (enableTimeRemap (project a) lay)).
    { apply (getLayer_updLayer_same c t (enableTimeRemap (project a)));
        [reflexivity | exact Hl]. }
    rewrite (bind_run _ _ _ _ _ (theLayer_run c t a1 _ Hl1)).
    destruct (clearKeys_run c t (length (remapKeys (enableTimeRemap (project a) lay)))
                H2 a1 _ Hl1 (le_n _))
      as (a2 & lay2 & Hr & Hl2 & Hk2 & He2).
    rewrite (bind_run _ _ _ _ _ Hr).
    rewrite (bind_run _ _ _ _ _
               (writeLayer_run (OpSetValueAtTime t) c t
                  (fun x => setRemapKeys
                              (setValueAtTime (Startup.layerStartTime st sf) 0
                                 (remapKeys x)) x) a2 lay2 Hl2 H3)).
    match goal with |- context [writeLayer _ _ _ _ ?g ?s] =>
      assert (Hl3 : getLayer (project s) c t
                    = Some (setRemapKeys
                              (setValueAtTime (Startup.layerStartTime st sf) 0
                                 (remapKeys lay2)) lay2))
    end.
    { apply (getLayer_updLayer_same c t
               (fun x => setRemapKeys
                           (setValueAtTime (Startup.layerStartTime st sf) 0
                              (remapKeys x)) x));
        [reflexivity | exact Hl2]. }
    rewrite (writeLayer_run (OpSetValueAtTime t) c t _ _ _ Hl3 H3).
    eexists. split; [reflexivity|].
    eexists. split.
    + simpl. apply (getLayer_updLayer_same c t
               (fun x => setRemapKeys
                           (setValueAtTime (Startup.layerEndTime st sf ef) (fduration fo)
                              (remapKeys x)) x));
        [reflexivity | exact Hl3].
    + simpl. rewrite Hk2. split; [exact He2|].
      apply two_keys, layer_ends_after_start; assumption.
Qed.

End Remap.

Lemma source_layer_timing_is_recomputed_witness :
  exists l lay,
    Some 4 = Some l
    /\ getLayer (project Scenario.reconciledShifted) 2 l = Some lay
    /\ startTime lay = ((1001 - inject_Z 991) / 24)%Q
    /\ inPoint lay = startTime lay
    /\ outPoint lay = (startTime lay + (1100 - 1001 + 1) / 24)%Q
    /\ (Qabs (outPoint lay - startTime lay - (1100 - 1001 + 1) / 24) <= 1 # 100)%Q.
Proof.
  apply (source_layer_timing_is_recomputed Scenario.allFiles
           (Scenario.beautySettings 991) 1 Scenario.beautyShot
           Scenario.foundOnce Scenario.reconciledShifted 2 (Some 4)).
  vm_compute. reflexivity.
Defined.

(** The block on the project of the first run, time remapping switched off. *)
Example remapIfNeeded_rebuilds_unremapped :
  exists a',
    Startup.remapIfNeeded Scenario.allFiles (Scenario.beautySettings 1001)
      2 4 3 1001 1100 Scenario.unremapped = (Ok tt, a')
    /\ exists lay',
         getLayer (project a') 2 4 = Some lay'
         /\ timeRemapEnabled lay' = true
         /\ remapKeys lay'
            = [(Startup.layerStartTime (Scenario.beautySettings 1001) 1001, 0%Q);
               (Startup.layerEndTime (Scenario.beautySettings 1001) 1001 1100, 2%Q)].
Proof.
  apply (remapIfNeeded_rebuilds Scenario.allFiles
           (Scenario.beautySettings 1001) 2 4 3 1001 1100 Scenario.unremapped
           {| lid := 4; lname := "[AEBridge]_Source_beauty"; source := 3;
              startTime := 0 # 24; inPoint := 0 # 24; outPoint := 2400 # 576;
              timeRemapEnabled := false; remapKeys := [] |}
           {| file := Some "/x/beauty.0001.exr"; isStill := false; fduration := 2;
              conformFrameRate := 24; alphaMode := AlphaGuessed |}).
  - vm_compute. reflexivity.
  - vm_compute. reflexivity.
  - vm_compute. discriminate.
  - vm_compute. reflexivity.
  - vm_compute. reflexivity.
  - vm_compute. reflexivity.
Qed.

(** ** Layer identities *)

Section WellFormed.

Lemma wfLayers_mono (n m : nat) (ls : list Layer) :
  n <= m -> wfLayers n ls -> wfLayers m ls.
Proof.
  intros Hle [Hnd Hlt]. split; [exact Hnd|].
  eapply List.Forall_impl; [|exact Hlt]. simpl. intros l Hl. lia.
Qed.

Lemma wfBody_mono (n m : nat) (b : Body) : n <= m -> wfBody n b -> wfBody m b.
Proof. destruct b; simpl; [apply wfLayers_mono | trivial]. Qed.

Lemma wfLayers_filter (n : nat) (keep : Layer -> bool) (ls : list Layer) :
  wfLayers n ls -> wfLayers n (List.filter keep ls).
Proof.
  intros [Hnd Hlt]. split.
  - induction ls as [|x ls IH]; simpl; [constructor|].
    inversion Hnd as [|? ? Hx Hnd']; subst. inversion Hlt; subst.
    destruct (keep x); simpl; [|now apply IH].
    constructor; [|now apply IH].
    intros Hin. apply Hx. apply list_elem_of_In in Hin. apply list_elem_of_In.
    apply in_map_iff in Hin as (y & Hy & Hin).
    apply in_map_iff. exists y. split; [exact Hy|].
    now apply List.filter_In in Hin as [Hin _].
  - apply List.Forall_forall. intros x Hin. apply List.filter_In in Hin as [Hin _].
    revert x Hin. now apply List.Forall_forall.
Qed.

Lemma wfLayers_map (n : nat) (h : Layer -> Layer) (ls : list Layer) :
  (forall x, lid (h x) = lid x) -> wfLayers n ls -> wfLayers n (map h ls).
Proof.
  intros Hh [Hnd Hlt]. split.
  - rewrite map_map. now rewrite (map_ext _ lid Hh).
  - apply List.Forall_map. eapply List.Forall_impl; [|exact Hlt].
    simpl. intros l Hl. now rewrite Hh.
Qed.

Lemma wfLayers_cons (n : nat) (x : Layer) (ls : list Layer) :
  lid x = n -> wfLayers n ls -> wfLayers (S n) (x :: ls).
Proof.
  intros Hx [Hnd Hlt]. split; simpl.
  - constructor; [|exact Hnd].
    intros Hin. apply list_elem_of_In in Hin.
    apply in_map_iff in Hin as (y & Hy & Hin).
    rewrite List.Forall_forall in Hlt. apply Hlt in Hin. lia.
  - constructor; [lia|]. eapply List.Forall_impl; [|exact Hlt]. simpl. intros l Hl. lia.
Qed.

(** A change of the items, one item at a time. *)
Lemma wf_items (p q : Project) (h : Item -> Item) :
  pitems q = map h (pitems p) ->
  (forall it, wfBody (nextId p) (body it) -> wfBody (nextId q) (body (h it))) ->
  wf p -> wf q.
Proof.
  intros Hq Hh Hp. unfold wf in *. rewrite Hq. apply List.Forall_map.
  eapply List.Forall_impl; [|exact Hp]. exact Hh.
Qed.

Lemma wf_updComp (c : nat) (g : Comp -> Comp) (p : Project) :
  (forall k, wfLayers (nextId p) (layers k) -> wfLayers (nextId p) (layers (g k))) ->
  wf p -> wf (updComp c g p).
Proof.
  intros Hg. eapply wf_items; [reflexivity|].
  intros it Hit. simpl. destruct (Nat.eqb (iid it) c); [|exact Hit].
  simpl. destruct (body it); simpl in *; [now apply Hg | trivial].
Qed.

Lemma wf_updFootage (i : nat) (g : Footage -> Footage) (p : Project) :
  wf p -> wf (updFootage i g p).
Proof.
  eapply wf_items; [reflexivity|].
  intros it Hit. simpl. destruct (Nat.eqb (iid it) i); [|exact Hit].
  simpl. now destruct (body it).
Qed.

Lemma wf_updLayers (c : nat) (G : list Layer -> list Layer) (p : Project) :
  (forall ls, wfLayers (nextId p) ls -> wfLayers (nextId p) (G ls)) ->
  wf p -> wf (updLayers c G p).
Proof. intros HG. apply wf_updComp. intros k. simpl. apply HG. Qed.

Lemma wf_updLayer (c l : nat) (g : Layer -> Layer) (p : Project) :
  (forall x, lid (g x) = lid x) -> wf p -> wf (updLayer c l g p).
Proof.
  intros Hg. apply wf_updLayers. intros ls. apply wfLayers_map.
  intros x. destruct (Nat.eqb (lid x) l); [apply Hg | reflexivity].
Qed.

Lemma wf_bumpId (p : Project) : wf p -> wf (bumpId p).
Proof.
  eapply (wf_items p (bumpId p) id); [symmetry; apply map_id|].
  intros it. simpl. apply wfBody_mono. lia.
Qed.

Lemma wf_addItem (n : string) (b : Body) (p : Project) :
  wfBody (nextId p) b -> wf p -> wf (addItem n b p).
Proof.
  intros Hb Hp. unfold wf, addItem. simpl. apply List.Forall_app. split.
  - eapply List.Forall_impl; [|exact Hp]. intros it. apply wfBody_mono. lia.
  - constructor; [|constructor]. simpl. eapply wfBody_mono; [|exact Hb]. lia.
Qed.

Lemma wf_pushed (c : nat) (x : Layer) (p : Project) :
  lid x = nextId p -> wf p -> wf (bumpId (updLayers c (cons x) p)).
Proof.
  intros Hx. eapply wf_items; [reflexivity|].
  intros it Hit. simpl. destruct (Nat.eqb (iid it) c).
  - simpl. destruct (body it); simpl in *; [|trivial].
    now apply wfLayers_cons.
  - eapply wfBody_mono; [|exact Hit]. lia.
Qed.

Lemma wf_pushLayer (c src : nat) (p : Project) : wf p -> wf (pushLayer c src p).
Proof. apply wf_pushed. reflexivity. Qed.

Lemma wf_pushSolid (c : nat) (n : string) (d : Q) (p : Project) :
  wf p -> wf (pushSolid c n d p).
Proof.
  intros Hp. unfold pushSolid. apply wf_pushed; [reflexivity|].
  apply wf_addItem; [exact I | exact Hp].
Qed.

End WellFormed.

Section WellFormedScripts.

Variable env : Env.
Variable st : Startup.Settings.

Lemma preserves_wf_host (op : Op) (f : Project -> Project) :
  (forall p, wf p -> wf (f p)) -> preserves wfApp (host env op f).
Proof. intros Hf. apply preserves_host. intros a. apply Hf. Qed.

Lemma preserves_wf_writeComp (op : Op) (c : nat) (g : Comp -> Comp) :
  (forall k, layers (g k) = layers k) -> preserves wfApp (writeComp env op c g).
Proof.
  intros Hg. unfold writeComp.
  pres ltac:(apply preserves_wf_host; intros p; apply wf_updComp;
             intros k; now rewrite Hg).
Qed.

Lemma preserves_wf_updComp (op : Op) (c : nat) (g : Comp -> Comp) :
  (forall k, layers (g k) = layers k) ->
  preserves wfApp (host env op (updComp c g)).
Proof.
  intros Hg. apply preserves_wf_host. intros p. apply wf_updComp.
  intros k. now rewrite Hg.
Qed.

Lemma preserves_wf_writeFootage (op : Op) (i : nat) (g : Footage -> Footage) :
  preserves wfApp (writeFootage env op i g).
Proof.
  unfold writeFootage.
  pres ltac:(apply preserves_wf_host; intros p; apply wf_updFootage).
Qed.

Lemma preserves_wf_writeLayer (op : Op) (c l : nat) (g : Layer -> Layer) :
  (forall x, lid (g x) = lid x) -> preserves wfApp (writeLayer env op c l g).
Proof.
  intros Hg. unfold writeLayer.
  pres ltac:(apply preserves_wf_host; intros p; apply wf_updLayer; exact Hg).
Qed.

Lemma preserves_wf_removeLayer (c l : nat) : preserves wfApp (removeLayer env c l).
Proof.
  unfold removeLayer.
  pres ltac:(apply preserves_wf_host; intros p; apply wf_updLayers;
             intros ls; apply wfLayers_filter).
Qed.

Lemma preserves_wf_removeLayersWhere (c : nat) (sel : Project -> Layer -> bool) :
  preserves wfApp (removeLayersWhere env c sel).
Proof.
  unfold removeLayersWhere. apply preserves_modify. intros a Ha.
  unfold wfApp. simpl. apply wf_updLayers; [|exact Ha].
  intros ls. apply wfLayers_filter.
Qed.

Lemma preserves_wf_addLayer (c src : nat) : preserves wfApp (addLayer env c src).
Proof.
  unfold addLayer.
  pres ltac:(apply preserves_wf_host; intros p; apply wf_pushLayer).
Qed.

Lemma preserves_wf_addSolid (c : nat) (n : string) (d : Q) :
  preserves wfApp (addSolid env c n d).
Proof.
  unfold addSolid.
  pres ltac:(apply preserves_wf_host; intros p; apply wf_pushSolid).
Qed.

Lemma preserves_wf_id (op : Op) : preserves wfApp (host env op id).
Proof. apply preserves_wf_host. intros p Hp. exact Hp. Qed.

Lemma preserves_wf_ensureComp (n : string) :
  preserves wfApp (Startup.ensureComp env st n).
Proof.
  assert (Hs : forall c, preserves wfApp (Startup.syncCompSettings env st c)).
  { intros c. unfold Startup.syncCompSettings.
    pres ltac:(first [ apply preserves_wf_writeComp; intros; reflexivity
                     | apply preserves_wf_updComp; intros; reflexivity ]). }
  unfold Startup.ensureComp, Startup.addComp.
  pres ltac:(first [ apply Hs
                   | apply preserves_wf_host; intros p; apply wf_addItem;
                     repeat constructor ]).
Qed.

Lemma preserves_wf_importOrUpdateSequence (f : option string) (n : string) :
  preserves wfApp (Startup.importOrUpdateSequence env f n).
Proof.
  unfold Startup.importOrUpdateSequence, Startup.importFile, Startup.reload,
    Startup.replaceWithSequence, Startup.replace.
  pres ltac:(first [ apply preserves_wf_writeFootage
                   | apply preserves_wf_host; intros p; apply wf_addItem; exact I ]).
Qed.

Lemma preserves_wf_clearKeys (c t n : nat) :
  preserves wfApp (Startup.clearKeys env c t n).
Proof.
  induction n as [|n IH]; simpl.
  - apply preserves_ret.
  - pres ltac:(first [ exact IH
                     | apply preserves_wf_writeLayer; intros; reflexivity ]).
Qed.

Lemma preserves_wf_configureLayer (c t f : nat) (n : string) (sf ef : Q) :
  preserves wfApp (Startup.configureLayer env st c t f n sf ef).
Proof.
  unfold Startup.configureLayer, Startup.remapIfNeeded.
  pres ltac:(first [ apply preserves_wf_clearKeys
                   | apply preserves_wf_writeLayer; intros; reflexivity
                   | apply preserves_wf_writeFootage
                   | apply preserves_wf_id ]).
Qed.

Lemma preserves_wf_bindSourceLayer (c : nat) (f : option nat) (n : string) :
  preserves wfApp (Startup.bindSourceLayer env c f n).
Proof.
  unfold Startup.bindSourceLayer.
  pres ltac:(first [ apply preserves_wf_writeLayer; intros; reflexivity
                   | apply preserves_wf_removeLayer
                   | apply preserves_wf_addLayer ]).
Qed.

End WellFormedScripts.

(** ** The layers of a child composition after a pass *)

Section Counting.

Lemma getFootage_updComp (c i : nat) (g : Comp -> Comp) (p : Project) :
  getFootage (updComp c g p) i = getFootage p i.
Proof.
  unfold getFootage, getItem, updComp, updItem. simpl.
  rewrite (find_map_stable iid); [|intros x; now destruct (Nat.eqb (iid x) c)].
  destruct (List.find (fun it => Nat.eqb (iid it) i) (pitems p)) as [it|]; simpl;
    [|reflexivity].
  destruct (Nat.eqb (iid it) c); [|reflexivity].
  simpl. now destruct (body it).
Qed.




Lemma getComp_wf (p : Project) (c : nat) (k : Comp) :
  wf p -> getComp p c = Some k -> wfLayers (nextId p) (layers k).
Proof.
  intros Hp Hk. unfold getComp, getItem in Hk.
  destruct (List.find _ (pitems p)) as [it|] eqn:E; [|discriminate Hk].
  apply List.find_some in E as [Hin _].
  unfold wf in Hp. rewrite List.Forall_forall in Hp. specialize (Hp it Hin).
  destruct (body it); [|discriminate Hk]. inversion Hk; subst. exact Hp.
Qed.

Lemma find_app_found {A} (sel : A -> bool) (l l' : list A) (x : A) :
  List.find sel l = Some x -> List.find sel (l ++ l') = Some x.
Proof.
  induction l as [|y l IH]; simpl; [discriminate|].
  destruct (sel y); [trivial | exact IH].
Qed.




End Counting.

Section ChildComposition.

Variable env : Env.
Variable st : Startup.Settings.
Hypothesis removals : forall l, fails env (OpRemoveLayer l) = false.






End ChildComposition.

Section Placeholder.

Variable env : Env.
Variable st : Startup.Settings.
Hypothesis removals : forall l, fails env (OpRemoveLayer l) = false.
Hypothesis solids : forall c, fails env (OpAddSolid c) = false.










End Placeholder.

Section AfterReconcile.

Variable env : Env.
Variable st : Startup.Settings.

Lemma theComp_ok (c : nat) (a a' : App) (k : Comp) :
  theComp c a = (Ok k, a') -> a' = a /\ getComp (project a) c = Some k.
Proof.
  unfold theComp. destruct (getComp (project a) c); intros H; inversion H; auto.
Qed.



End AfterReconcile.



(** ** Scripts that cannot throw *)

Section NeverThrows.

Lemma neverThrows_ret {A} (x : A) : neverThrows (ret x).
Proof. intros a. now exists x, a. Qed.

Lemma neverThrows_gets {A} (f : Project -> A) : neverThrows (gets f).
Proof. intros a. now exists (f (project a)), a. Qed.

Lemma neverThrows_modify (f : App -> App) : neverThrows (modify f).
Proof. intros a. now exists tt, (f a). Qed.

Lemma neverThrows_bind {A B} (m : M A) (k : A -> M B) :
  neverThrows m -> (forall x, neverThrows (k x)) -> neverThrows (bind m k).
Proof.
  intros Hm Hk a. destruct (Hm a) as (x & a1 & E).
  destruct (Hk x a1) as (y & a2 & E2).
  exists y, a2. now rewrite (bind_run _ _ _ _ _ E).
Qed.

Lemma neverThrows_tryCatch {A} (m : M A) (h : string -> M A) :
  (forall e, neverThrows (h e)) -> neverThrows (tryCatch m h).
Proof.
  intros Hh a. unfold tryCatch. destruct (m a) as [[x|e] a1]; [eauto|].
  apply Hh.
Qed.

Lemma neverThrows_attempt (m : M unit) : neverThrows (attempt m).
Proof. apply neverThrows_tryCatch. intros e. apply neverThrows_ret. Qed.

Lemma neverThrows_when (b : bool) (m : M unit) :
  neverThrows m -> neverThrows (when b m).
Proof. intros Hm. destruct b; [exact Hm | apply neverThrows_ret]. Qed.

End NeverThrows.

(** Walks through a script that guards its host calls. *)
Ltac safe leaf :=
  repeat first
    [ leaf
    | apply neverThrows_ret | apply neverThrows_gets | apply neverThrows_modify
    | apply neverThrows_attempt
    | apply neverThrows_tryCatch; intros ?
    | apply neverThrows_when
    | apply neverThrows_bind; [|intros ?]
    | match goal with |- neverThrows (if ?b then _ else _) => destruct b end
    | match goal with |- neverThrows (match ?x with _ => _ end) => destruct x end ].

(** ** Runs on a host that accepts *)

Section Runs.

Variable env : Env.

Lemma theComp_run (c : nat) (a : App) (k : Comp) :
  getComp (project a) c = Some k -> theComp c a = (Ok k, a).
Proof. intros H. unfold theComp. now rewrite H. Qed.

Lemma getComp_updComp_same (c : nat) (g : Comp -> Comp) (p : Project) (k : Comp) :
  getComp p c = Some k -> getComp (updComp c g p) c = Some (g k).
Proof. intros H. now rewrite getComp_updComp, Nat.eqb_refl, H. Qed.

Lemma writeComp_run (op : Op) (c : nat) (g : Comp -> Comp) (a : App) (k : Comp) :
  fails env op = false ->
  getComp (project a) c = Some k ->
  writeComp env op c g a = (Ok tt, setProject (updComp c g (project a)) a).
Proof.
  intros Hop H. unfold writeComp. rewrite (bind_run _ _ _ _ _ (theComp_run c a k H)).
  apply host_run, Hop.
Qed.

Lemma bind_gets {A C} (f : Project -> A) (k : A -> M C) (a : App) :
  bind (gets f) k a = k (f (project a)) a.
Proof. reflexivity. Qed.

Lemma attempt_run (m : M unit) (a a' : App) :
  m a = (Ok tt, a') -> attempt m a = (Ok tt, a').
Proof. intros H. unfold attempt, tryCatch. now rewrite H. Qed.

End Runs.

(** ** What a script leaves as it is *)

Section Outside.

Context {B : Type}.
Variable obs : App -> B.
Variable v : B.
Variable env : Env.

Hypothesis outsideProject : forall p a, obs (setProject p a) = obs a.

Lemma preserves_outside_host (op : Op) (f : Project -> Project) :
  preserves (fun a => obs a = v) (host env op f).
Proof using outsideProject.
  apply preserves_host. intros a Ha. now rewrite outsideProject.
Qed.

Lemma preserves_outside_removeLayersWhere (c : nat) (sel : Project -> Layer -> bool) :
  preserves (fun a => obs a = v) (removeLayersWhere env c sel).
Proof using outsideProject.
  apply preserves_modify. intros a Ha. now rewrite outsideProject.
Qed.

Lemma preserves_projectFileExists (I : App -> Prop) (f : string) :
  preserves I (projectFileExists f).
Proof. intros a r a' Ha E. unfold projectFileExists in E. now inversion E as [[Er Ea]]; rewrite <- Ea. Qed.

Lemma preserves_outside_openProject (f : string) :
  preserves (fun a => obs a = v) (openProject env f).
Proof using outsideProject.
  intros a r a' Ha E. unfold openProject in E.
  destruct (fails env OpOpen); [inversion E as [[Er Ea]]; now rewrite <- Ea|].
  destruct (disk a !! f); inversion E as [[Er Ea]]; [|now rewrite <- Ea].
  now rewrite outsideProject.
Qed.

Lemma preserves_outside_newProject :
  preserves (fun a => obs a = v) (newProject env).
Proof using outsideProject.
  intros a r a' Ha E. unfold newProject in E.
  destruct (fails env OpNewProject); inversion E as [[Er Ea]]; [now rewrite <- Ea|].
  now rewrite outsideProject.
Qed.

Hypothesis outsideDisk : forall d a, obs (setDisk d a) = obs a.

Lemma preserves_outside_save (f : string) :
  preserves (fun a => obs a = v) (save env f).
Proof using outsideProject outsideDisk.
  intros a r a' Ha E. unfold save in E.
  destruct (fails env OpSave); inversion E as [[Er Ea]]; [now rewrite <- Ea|].
  now rewrite outsideDisk, outsideProject.
Qed.

Hypothesis outsideRenders : forall a, obs (addRender a) = obs a.

Lemma preserves_outside_render :
  preserves (fun a => obs a = v) (render env).
Proof using outsideRenders.
  intros a r a' Ha E. unfold render in E.
  destruct (fails env OpRender); inversion E as [[Er Ea]]; [now rewrite <- Ea|].
  now rewrite outsideRenders.
Qed.

End Outside.

(** The leaves of a script that works on the project only. *)
Ltac outside Hp :=
  first [ apply preserves_outside_host; exact Hp
        | apply preserves_outside_removeLayersWhere; exact Hp
        | apply preserves_projectFileExists
        | apply preserves_outside_openProject; exact Hp
        | apply preserves_outside_newProject; exact Hp ].

(** ** The items of the project panel *)

Section Shapes.

Lemma shapes_updItem (i : nat) (f : Body -> Body) (p : Project) :
  (forall b, match f b with CompItem _ => true | _ => false end
             = match b with CompItem _ => true | _ => false end) ->
  shapes (updItem i f p) = shapes p.
Proof.
  intros Hf. unfold shapes, updItem. simpl. rewrite map_map.
  apply map_ext. intros it. destruct (Nat.eqb (iid it) i); [|reflexivity].
  unfold shape, isComp. simpl. now rewrite Hf.
Qed.

Lemma shapes_updComp (c : nat) (g : Comp -> Comp) (p : Project) :
  shapes (updComp c g p) = shapes p.
Proof. apply shapes_updItem. now intros []. Qed.

Lemma shapes_updFootage (i : nat) (g : Footage -> Footage) (p : Project) :
  shapes (updFootage i g p) = shapes p.
Proof. apply shapes_updItem. now intros []. Qed.

Lemma shapes_addItem (n : string) (b : Body) (p : Project) :
  shapes (addItem n b p)
  = (shapes p ++ [(nextId p, n, match b with CompItem _ => true | _ => false end)])%list.
Proof. unfold shapes, addItem. simpl. now rewrite map_app. Qed.

Lemma shapes_pushLayer (c src : nat) (p : Project) : shapes (pushLayer c src p) = shapes p.
Proof. unfold pushLayer, updLayers. exact (shapes_updComp _ _ _). Qed.

Lemma shapes_pushSolid (c : nat) (n : string) (d : Q) (p : Project) :
  shapes (pushSolid c n d p) = (shapes p ++ [(nextId p, n, false)])%list.
Proof.
  unfold pushSolid, updLayers.
  change (shapes (bumpId ?q)) with (shapes q).
  now rewrite shapes_updComp, shapes_addItem.
Qed.

Lemma find_map {A C} (h : A -> C) (sel : C -> bool) (l : list A) :
  List.find sel (map h l) = option_map h (List.find (fun x => sel (h x)) l).
Proof.
  induction l as [|x l IH]; simpl; [reflexivity|].
  destruct (sel (h x)); [reflexivity | exact IH].
Qed.

Lemma filter_map_length {A C} (h : A -> C) (sel : C -> bool) (l : list A) :
  length (List.filter sel (map h l)) = length (List.filter (fun x => sel (h x)) l).
Proof.
  induction l as [|x l IH]; simpl; [reflexivity|].
  destruct (sel (h x)); simpl; now rewrite IH.
Qed.

Lemma findCompByName_shapes (n : string) (p : Project) :
  findCompByName n p
  = option_map (fun s => fst (fst s)) (List.find (namedComp n) (shapes p)).
Proof.
  unfold findCompByName, findItem, shapes. rewrite find_map.
  now destruct (List.find _ (pitems p)).
Qed.

Lemma compsNamed_shapes (n : string) (p : Project) :
  Scenario.compsNamed n p = length (List.filter (namedComp n) (shapes p)).
Proof. unfold Scenario.compsNamed, shapes. now rewrite filter_map_length. Qed.

Lemma find_none_filter {A} (sel : A -> bool) (l : list A) :
  List.find sel l = None -> List.filter sel l = [].
Proof.
  induction l as [|x l IH]; simpl; [reflexivity|].
  destruct (sel x); [discriminate | exact IH].
Qed.

Lemma find_some_filter {A} (sel : A -> bool) (l : list A) (x : A) :
  List.find sel l = Some x -> 1 <= length (List.filter sel l).
Proof.
  induction l as [|y l IH]; simpl; [discriminate|].
  destruct (sel y); simpl; [lia | exact IH].
Qed.

Lemma find_app_none {A} (sel : A -> bool) (l l' : list A) :
  List.find sel l = None -> List.find sel (l ++ l') = List.find sel l'.
Proof.
  induction l as [|y l IH]; simpl; [reflexivity|].
  destruct (sel y); [discriminate | exact IH].
Qed.

Lemma shapes_skeletons (a a' : App) :
  skeletons a' = skeletons a -> shapes (project a') = shapes (project a).
Proof.
  unfold skeletons, shapes. intros H.
  assert (E : forall l, map shape l
                        = map (fun s : nat * string * (list Layer + Footage) =>
                                 (fst s, match snd s with inl _ => true | inr _ => false end))
                              (map skeleton l)).
  { intros l. rewrite map_map. apply map_ext. intros it.
    unfold shape, skeleton, isComp. simpl. now destruct (body it). }
  now rewrite !E, H.
Qed.

(** A composition found by name is still found, and is the same, in a
    project that has grown. *)
Lemma findCompByName_grows (n : string) (p q : Project) (c : nat) :
  grows p q -> findCompByName n p = Some c -> findCompByName n q = Some c.
Proof.
  intros [extra E]. rewrite !findCompByName_shapes, E.
  destruct (List.find (namedComp n) (shapes p)) as [s|] eqn:F; [|discriminate].
  now rewrite (find_app_found _ _ extra _ F).
Qed.

Lemma grows_refl (p : Project) : grows p p.
Proof. exists []. now rewrite app_nil_r. Qed.

Lemma grows_trans (p q r : Project) : grows p q -> grows q r -> grows p r.
Proof.
  intros [e1 E1] [e2 E2]. exists (e1 ++ e2)%list. now rewrite E2, E1, <- app_assoc.
Qed.

Lemma grows_same (p q : Project) : shapes q = shapes p -> grows p q.
Proof. intros E. exists []. now rewrite app_nil_r. Qed.

End Shapes.

(** ** Synchronising the settings of a composition *)

Section SyncCompSettings.

Variable env : Env.
Variable st : Startup.Settings.

Lemma skeleton_updComp (c : nat) (g : Comp -> Comp) (p : Project) :
  (forall k, layers (g k) = layers k) ->
  map skeleton (pitems (updComp c g p)) = map skeleton (pitems p).
Proof.
  intros Hg. unfold updComp, updItem. simpl. rewrite map_map.
  apply map_ext. intros it. destruct (Nat.eqb (iid it) c); [|reflexivity].
  unfold skeleton. simpl. destruct (body it); simpl; [now rewrite Hg | reflexivity].
Qed.

Lemma preserves_skeletons_updComp (l : list _) (op : Op) (c : nat) (g : Comp -> Comp) :
  (forall k, layers (g k) = layers k) ->
  preserves (fun a => skeletons a = l) (host env op (updComp c g)).
Proof.
  intros Hg. apply preserves_host. intros a Ha. unfold skeletons in *.
  cbn [project setProject]. now rewrite skeleton_updComp.
Qed.

Lemma preserves_skeletons_syncCompSettings (l : list _) (comp : nat) :
  preserves (fun a => skeletons a = l) (Startup.syncCompSettings env st comp).
Proof.
  unfold Startup.syncCompSettings, writeComp.
  pres ltac:(apply preserves_skeletons_updComp; intros; reflexivity).
Qed.

Lemma neverThrows_syncCompSettings (comp : nat) :
  neverThrows (Startup.syncCompSettings env st comp).
Proof. unfold Startup.syncCompSettings. safe fail. Qed.

(** X1.  Every write of [syncCompSettings] sits in a [try]/[catch] of its own:
    whatever the host refuses, the function returns, and it has changed
    nothing but settings of compositions -- the items of the project, their
    names, the layers of every composition and the footage are as before. *)
Theorem syncCompSettings_patches_in_place (comp : nat) (a : App) :
  exists a',
    Startup.syncCompSettings env st comp a = (Ok tt, a')
    /\ skeletons a' = skeletons a
    /\ nextId (project a') = nextId (project a)
    /\ renderQueue (project a') = renderQueue (project a).
Proof.
  destruct (neverThrows_syncCompSettings comp a) as ([] & a' & E).
  exists a'. split; [exact E|]. split.
  - exact (preserves_skeletons_syncCompSettings _ comp _ _ _ eq_refl E).
  - assert (H : preserves (fun b => nextId (project b) = nextId (project a)
                                    /\ renderQueue (project b) = renderQueue (project a))
                  (Startup.syncCompSettings env st comp)).
    { unfold Startup.syncCompSettings, writeComp.
      pres ltac:(apply preserves_host; intros ? Hx; exact Hx). }
    exact (H _ _ _ (conj eq_refl eq_refl) E).
Qed.

Lemma differs_same (x : Q) : Startup.differs x x = false.
Proof.
  unfold Startup.differs. apply negb_false_iff, Qle_bool_iff.
  assert (E : (x - x == 0)%Q) by ring. rewrite E. discriminate.
Qed.

(** One guarded write: read the composition, test, write. *)
Lemma guarded_write (c : nat) (test : Comp -> bool) (op : Op) (g : Comp -> Comp)
    (a : App) (k : Comp) :
  fails env op = false ->
  getComp (project a) c = Some k ->
  exists a',
    attempt (k <- theComp c ;; when (test k) (host env op (updComp c g))) a = (Ok tt, a')
    /\ getComp (project a') c = Some (if test k then g k else k).
Proof.
  intros Hop H. destruct (test k) eqn:T.
  - exists (setProject (updComp c g (project a)) a). split.
    + apply attempt_run. rewrite (bind_run _ _ _ _ _ (theComp_run c a k H)), T.
      apply host_run, Hop.
    + now apply getComp_updComp_same.
  - exists a. split; [|exact H].
    apply attempt_run. now rewrite (bind_run _ _ _ _ _ (theComp_run c a k H)), T.
Qed.

(** X2.  On a host that accepts every write, [syncCompSettings] leaves the
    composition with the frame rate and the duration of the configuration
    (within 0.01), its width and height, the start frame [GLOBAL_FIRST]
    (a start time of [GLOBAL_FIRST] frames of the composition), and a work
    area over the whole duration; the layers are as before. *)
Theorem syncCompSettings_applies_settings (comp : nat) (a : App) (k : Comp) :
  (forall op, fails env op = false) ->
  getComp (project a) comp = Some k ->
  exists a' k',
    Startup.syncCompSettings env st comp a = (Ok tt, a')
    /\ getComp (project a') comp = Some k'
    /\ Startup.differs (cframeRate k') (Startup.FRAME_RATE st) = false
    /\ Startup.differs (duration k') (Startup.DURATION st) = false
    /\ Qeq_bool (width k') (Startup.COMP_WIDTH st) = true
    /\ Qeq_bool (height k') (Startup.COMP_HEIGHT st) = true
    /\ displayStartTime k' = (Startup.GLOBAL_FIRST st / cframeRate k')%Q
    /\ workAreaStart k' = 0%Q
    /\ workAreaDuration k' = Startup.DURATION st
    /\ layers k' = layers k.
Proof.
  intros accepts H0. unfold Startup.syncCompSettings.
  destruct (guarded_write comp
              (fun k => Startup.differs (cframeRate k) (Startup.FRAME_RATE st))
              (OpSetFrameRate comp) (setFrameRate (Startup.FRAME_RATE st)) a k
              (accepts _) H0)
    as (a1 & E1 & H1).
  rewrite (bind_run _ _ _ _ _ E1).
  destruct (guarded_write comp
              (fun k => Startup.differs (duration k) (Startup.DURATION st))
              (OpSetDuration comp) (setDuration (Startup.DURATION st)) a1 _
              (accepts _) H1)
    as (a2 & E2 & H2).
  rewrite (bind_run _ _ _ _ _ E2).
  set (k2 := if Startup.differs (duration _) _ then _ else _) in H2.
  assert (Hfr : Startup.differs (cframeRate k2) (Startup.FRAME_RATE st) = false).
  { subst k2.
    destruct (Startup.differs (cframeRate k) (Startup.FRAME_RATE st)) eqn:T1;
      match goal with |- context [if ?b then _ else _] => destruct b end;
      simpl; first [apply differs_same | exact T1]. }
  assert (Hdu : Startup.differs (duration k2) (Startup.DURATION st) = false).
  { subst k2.
    match goal with |- context [if ?b then _ else _] => destruct b eqn:T2 end;
      simpl; first [apply differs_same | exact T2]. }
  assert (Hla : layers k2 = layers k).
  { subst k2. repeat match goal with |- context [if ?b then _ else _] => destruct b end;
      reflexivity. }
  clearbody k2.
  assert (H3 : exists a3 k3,
             attempt (k <- theComp comp ;;
                      when (negb (Qeq_bool (width k) (Startup.COMP_WIDTH st))
                            || negb (Qeq_bool (height k) (Startup.COMP_HEIGHT st)))
                        (host env (OpSetWidth comp)
                           (updComp comp (setWidth (Startup.COMP_WIDTH st))) ;;
                         host env (OpSetHeight comp)
                           (updComp comp (setHeight (Startup.COMP_HEIGHT st))))) a2
             = (Ok tt, a3)
             /\ getComp (project a3) comp = Some k3
             /\ Qeq_bool (width k3) (Startup.COMP_WIDTH st) = true
             /\ Qeq_bool (height k3) (Startup.COMP_HEIGHT st) = true
             /\ cframeRate k3 = cframeRate k2 /\ duration k3 = duration k2
             /\ layers k3 = layers k2).
  { destruct (negb (Qeq_bool (width k2) (Startup.COMP_WIDTH st))
              || negb (Qeq_bool (height k2) (Startup.COMP_HEIGHT st))) eqn:T.
    - eexists _, (setHeight (Startup.COMP_HEIGHT st) (setWidth (Startup.COMP_WIDTH st) k2)).
      split.
      + apply attempt_run. rewrite (bind_run _ _ _ _ _ (theComp_run comp a2 k2 H2)).
        rewrite T. simpl.
        rewrite (bind_run _ _ _ _ _ (host_run _ _ _ _ (accepts _))).
        apply host_run, accepts.
      + split.
        * cbn [project setProject].
          now apply getComp_updComp_same, getComp_updComp_same.
        * simpl. rewrite !Qeq_bool_refl. repeat split; reflexivity.
    - exists a2, k2. split.
      + apply attempt_run. rewrite (bind_run _ _ _ _ _ (theComp_run comp a2 k2 H2)).
        now rewrite T.
      + apply orb_false_elim in T as [Tw Th].
        apply negb_false_iff in Tw, Th. repeat split; try reflexivity; assumption. }
  destruct H3 as (a3 & k3 & E3 & H3 & Hw & Hh & Efr & Edu & Ela).
  rewrite (bind_run _ _ _ _ _ E3).
  set (g4 := fun k : Comp =>
               setDisplayStartTime (Startup.GLOBAL_FIRST st / cframeRate k)%Q k).
  set (a4 := setProject (updComp comp g4 (project a3)) a3).
  assert (E4 : tryCatch
                 (writeComp env (OpSetDisplayStartFrame comp) comp g4)
                 (fun _ =>
                    attempt (writeComp env (OpSetDisplayStartTime comp) comp
                               (setDisplayStartTime
                                  ((Startup.GLOBAL_FIRST st - 1)
                                   / Startup.FRAME_RATE st)%Q))) a3
               = (Ok tt, a4)).
  { unfold tryCatch. now rewrite (writeComp_run env _ comp g4 a3 k3 (accepts _) H3). }
  rewrite (bind_run _ _ _ _ _ E4).
  assert (H4 : getComp (project a4) comp = Some (g4 k3))
    by (apply getComp_updComp_same; exact H3).
  assert (E5 : attempt
                 (writeComp env (OpSetWorkAreaStart comp) comp (setWorkAreaStart 0) ;;
                  writeComp env (OpSetWorkAreaDuration comp) comp
                    (setWorkAreaDuration (Startup.DURATION st))) a4
               = (Ok tt, setProject
                           (updComp comp (setWorkAreaDuration (Startup.DURATION st))
                              (updComp comp (setWorkAreaStart 0) (project a4))) a4)).
  { apply attempt_run.
    rewrite (bind_run _ _ _ _ _ (writeComp_run env _ comp _ _ _ (accepts _) H4)).
    etransitivity;
      [apply (writeComp_run env _ comp _ _ (setWorkAreaStart 0 (g4 k3)) (accepts _))
      |reflexivity].
    cbn [project setProject].
    exact (getComp_updComp_same comp (setWorkAreaStart 0) _ _ H4). }
  rewrite E5. eexists _, _. split; [reflexivity|]. split.
  { cbn [project setProject].
    exact (getComp_updComp_same comp _ _ _
             (getComp_updComp_same comp (setWorkAreaStart 0) _ _ H4)). }
  simpl. rewrite Efr, Edu, Ela, Hla. repeat split; try reflexivity; assumption.
Qed.

(** ** Finding or creating a composition *)

(** X3.  A composition that exists under the name is the one [ensureComp]
    returns: the function cannot throw then, and it adds no item. *)
Theorem ensureComp_reuses_the_composition (n : string) (a : App) (c : nat) :
  findCompByName n (project a) = Some c ->
  exists a',
    Startup.ensureComp env st n a = (Ok c, a')
    /\ skeletons a' = skeletons a
    /\ nextId (project a') = nextId (project a).
Proof.
  intros H. unfold Startup.ensureComp.
  assert (E0 : gets (findCompByName n) a = (Ok (Some c), a))
    by (unfold gets; now rewrite H).
  rewrite (bind_run _ _ _ _ _ E0).
  destruct (neverThrows_syncCompSettings c a) as ([] & a' & E).
  exists a'. rewrite (bind_run _ _ _ _ _ E). split; [reflexivity|]. split.
  - exact (preserves_skeletons_syncCompSettings _ c _ _ _ eq_refl E).
  - assert (Hn : preserves (fun b => nextId (project b) = nextId (project a))
                   (Startup.syncCompSettings env st c)).
    { unfold Startup.syncCompSettings, writeComp.
      pres ltac:(apply preserves_host; intros ? Hx; exact Hx). }
    exact (Hn _ _ _ eq_refl E).
Qed.

Lemma ensureComp_shapes (n : string) (a a' : App) (c : nat) :
  Startup.ensureComp env st n a = (Ok c, a') ->
  match findCompByName n (project a) with
  | Some c0 => c = c0 /\ shapes (project a') = shapes (project a)
  | None => c = nextId (project a)
            /\ shapes (project a') = (shapes (project a) ++ [(c, n, true)])%list
  end.
Proof.
  unfold Startup.ensureComp. rewrite bind_gets. intros H.
  destruct (findCompByName n (project a)) as [c0|].
  - bind_inv H. injection H as Hc Ha. subst c0 a0. split; [reflexivity|].
    apply shapes_skeletons.
    exact (preserves_skeletons_syncCompSettings _ c _ _ _ eq_refl E).
  - bind_inv H. bind_inv H. injection H as Hc Ha. subst x a1.
    unfold Startup.addComp in E. rewrite bind_gets in E. bind_inv E.
    injection E as Hc Ha. subst c a1. split; [reflexivity|].
    apply host_ok in E1 as [_ Ea0].
    pose proof (preserves_skeletons_syncCompSettings _ _ _ _ _ eq_refl E0) as Hs.
    apply shapes_skeletons in Hs. rewrite Ea0 in Hs. cbn [project setProject] in Hs.
    now rewrite shapes_addItem in Hs.
Qed.

Lemma ensureComp_finds (n : string) (a a' : App) (c : nat) :
  Startup.ensureComp env st n a = (Ok c, a') ->
  findCompByName n (project a') = Some c.
Proof.
  intros H. apply ensureComp_shapes in H. rewrite findCompByName_shapes in H |- *.
  destruct (List.find (namedComp n) (shapes (project a))) as [s|] eqn:F; simpl in H.
  - destruct H as [-> ->]. now rewrite F.
  - destruct H as [-> ->]. rewrite (find_app_none _ _ _ F). simpl.
    unfold namedComp. simpl. now rewrite String.eqb_refl.
Qed.

(** X4.  Whenever [ensureComp] returns, the composition it returns is the one
    that [findCompByName] finds under the name from then on, and the number
    of compositions of that name is what it was, or one if there was none:
    the function never makes a second composition of a name. *)
Theorem ensureComp_creates_at_most_once (n : string) (a a' : App) (c : nat) :
  Startup.ensureComp env st n a = (Ok c, a') ->
  findCompByName n (project a') = Some c
  /\ Scenario.compsNamed n (project a')
     = Nat.max 1 (Scenario.compsNamed n (project a)).
Proof.
  intros H. split; [exact (ensureComp_finds _ _ _ _ H)|].
  apply ensureComp_shapes in H. rewrite findCompByName_shapes in H.
  rewrite !compsNamed_shapes.
  destruct (List.find (namedComp n) (shapes (project a))) as [s|] eqn:F; simpl in H.
  - destruct H as [_ ->]. pose proof (find_some_filter _ _ _ F). lia.
  - destruct H as [_ ->]. rewrite List.filter_app, (find_none_filter _ _ F).
    simpl. unfold namedComp. simpl. now rewrite String.eqb_refl.
Qed.

End SyncCompSettings.

Lemma syncCompSettings_applies_settings_witness :
  exists k,
    getComp (project Scenario.foundOnce) 1 = Some k
    /\ exists a' k',
         Startup.syncCompSettings Scenario.noFiles (Scenario.beautySettings 991) 1
           Scenario.foundOnce = (Ok tt, a')
         /\ getComp (project a') 1 = Some k'
         /\ Startup.differs (cframeRate k') 24 = false
         /\ Startup.differs (duration k')
              (Startup.DURATION (Scenario.beautySettings 991)) = false
         /\ Qeq_bool (width k') 1920 = true
         /\ Qeq_bool (height k') 1080 = true
         /\ displayStartTime k' = (inject_Z 991 / cframeRate k')%Q
         /\ workAreaStart k' = 0%Q
         /\ workAreaDuration k' = Startup.DURATION (Scenario.beautySettings 991)
         /\ layers k' = layers k.
Proof.
  eexists. split; [vm_compute; reflexivity|].
  apply (syncCompSettings_applies_settings Scenario.noFiles
           (Scenario.beautySettings 991) 1 Scenario.foundOnce).
  - intros op. reflexivity.
  - vm_compute. reflexivity.
Defined.

Lemma ensureComp_reuses_the_composition_witness :
  exists a',
    Startup.ensureComp Scenario.noFiles (Scenario.beautySettings 1001) "AEBridge"
      Scenario.foundOnce = (Ok 1, a')
    /\ skeletons a' = skeletons Scenario.foundOnce
    /\ nextId (project a') = nextId (project Scenario.foundOnce).
Proof.
  apply (ensureComp_reuses_the_composition Scenario.noFiles
           (Scenario.beautySettings 1001) "AEBridge" Scenario.foundOnce 1).
  vm_compute. reflexivity.
Defined.

Lemma ensureComp_creates_at_most_once_witness :
  findCompByName "AEBridge" (project Scenario.ensured) = Some 1
  /\ Scenario.compsNamed "AEBridge" (project Scenario.ensured)
     = Nat.max 1 (Scenario.compsNamed "AEBridge" (project Scenario.blank)).
Proof.
  apply (ensureComp_creates_at_most_once Scenario.noFiles
           (Scenario.beautySettings 1001) "AEBridge" Scenario.blank Scenario.ensured 1).
  vm_compute. reflexivity.
Defined.

(** ** The suffix After Effects gives to the name of a sequence *)

Section SequenceSuffix.

Lemma append_empty (s : string) : "" ++ s = s.
Proof. reflexivity. Qed.

Lemma append_String (c : ascii) (s t : string) : String c s ++ t = String c (s ++ t).
Proof. reflexivity. Qed.

Lemma matchesRange_spec (s : string) :
  forall seen,
    Startup.matchesRange seen s = true
    <-> exists pre ext,
          s = pre ++ "." ++ ext
          /\ (seen = true \/ pre <> "")
          /\ allRange pre = true
          /\ Startup.isImageExt ext = true.
Proof.
  induction s as [|c r IH]; intros seen; simpl.
  - split; [discriminate|].
    intros (pre & ext & E & _). destruct pre; discriminate E.
  - rewrite orb_true_iff, !andb_true_iff, IH. split.
    + intros [[[Hs Hc] He] | [Hc (pre & ext & E & _ & Hp & He)]].
      * apply Ascii.eqb_eq in Hc. subst c.
        exists "", r. split; [reflexivity|]. split; [now left|]. split; [reflexivity|exact He].
      * exists (String c pre), ext. subst r.
        split; [reflexivity|]. split; [right; discriminate|]. split; [|exact He].
        simpl. now rewrite Hc, Hp.
    + intros (pre & ext & E & Hs & Hp & He). destruct pre as [|c' pre].
      * rewrite append_empty, append_String, append_empty in E.
        injection E as -> ->. left.
        destruct Hs as [Hs|Hs]; [|now contradiction Hs].
        split; [split; [exact Hs | apply Ascii.eqb_refl] | exact He].
      * rewrite append_String in E. simpl in Hp. injection E as -> ->.
        apply andb_true_iff in Hp as [Hc Hp]. right. split; [exact Hc|].
        exists pre, ext. split; [reflexivity|]. split; [now left|]. now split.
Qed.

(** X5.  The matcher for [/^[_\.\[\]0-9\-]+\.(exr|dpx|tif|tiff|jpg|jpeg|png)$/i]
    accepts exactly the strings that are a non-empty run of characters of
    the class, a dot, and one of the extensions in any letter case. *)
Theorem isSequenceSuffix_matches_the_pattern (s : string) :
  Startup.isSequenceSuffix s = true
  <-> exists pre ext,
        s = pre ++ "." ++ ext
        /\ pre <> ""
        /\ allRange pre = true
        /\ Startup.isImageExt ext = true.
Proof.
  unfold Startup.isSequenceSuffix. rewrite matchesRange_spec. split.
  - intros (pre & ext & E & [Hs|Hs] & H); [discriminate Hs|].
    now exists pre, ext.
  - intros (pre & ext & E & Hs & H). exists pre, ext. auto.
Qed.

End SequenceSuffix.

(** ** Finding a footage item by the name of its shot *)

Section FootageByName.

Variable env : Env.

Lemma prefix_split (n s : string) :
  String.prefix n s = true -> s = n ++ Startup.substringFrom (String.length n) s.
Proof.
  revert s. induction n as [|c n IH]; intros s H; simpl.
  - now destruct s.
  - destruct s as [|c' s]; simpl in H; [discriminate|].
    destruct (Ascii.ascii_dec c c') as [->|]; [|discriminate].
    change (String c' s = String c' (n ++ Startup.substringFrom (String.length n) s)).
    f_equal. now apply IH.
Qed.

Lemma findItem_found (sel : Item -> bool) (p : Project) (i : nat) :
  findItem sel p = Some i ->
  exists it, In it (pitems p) /\ iid it = i /\ sel it = true.
Proof.
  unfold findItem. destruct (List.find sel (pitems p)) as [it|] eqn:F; [|discriminate].
  intros [= <-]. apply List.find_some in F as [Hin Hs]. now exists it.
Qed.

Lemma find_none_all {A} (sel : A -> bool) (l : list A) (x : A) :
  List.find sel l = None -> In x l -> sel x = false.
Proof. intros F Hin. exact (List.find_none sel l F x Hin). Qed.

(** X6.  What [findFootageByName] returns is a footage item of the project whose
    name is the name asked for, or that name followed by a sequence suffix;
    a footage item of exactly the name, when there is one, wins. *)
Theorem findFootageByName_finds_the_shot (n : string) (p : Project) (i : nat) :
  Startup.findFootageByName n p = Some i ->
  n <> ""
  /\ exists it,
       In it (pitems p) /\ iid it = i /\ isFootage it = true
       /\ (iname it = n
           \/ (exists suffix, iname it = n ++ suffix
                              /\ Startup.isSequenceSuffix suffix = true)
              /\ forall other, In other (pitems p) -> isFootage other = true ->
                               iname other <> n).
Proof.
  unfold Startup.findFootageByName.
  destruct (String.eqb n "") eqn:En; [discriminate|].
  apply String.eqb_neq in En. intros H. split; [exact En|].
  destruct (findItem (fun it => isFootage it && String.eqb (iname it) n) p)
    as [j|] eqn:F1.
  - injection H as ->. apply findItem_found in F1 as (it & Hin & Hid & Hs).
    apply andb_true_iff in Hs as [Hf Hn]. apply String.eqb_eq in Hn.
    exists it. auto.
  - apply findItem_found in H as (it & Hin & Hid & Hs).
    apply andb_true_iff in Hs as [Hs Hx]. apply andb_true_iff in Hs as [Hf Hp].
    exists it. repeat split; auto. right. split.
    + eexists. split; [apply prefix_split; exact Hp | exact Hx].
    + intros other Ho Hfo Hno. unfold findItem in F1.
      destruct (List.find _ (pitems p)) eqn:F; [discriminate|].
      pose proof (find_none_all _ _ other F Ho) as Hsel. simpl in Hsel.
      rewrite Hfo, Hno, String.eqb_refl in Hsel. discriminate.
Qed.

End FootageByName.

Lemma findFootageByName_finds_the_shot_witness :
  "beauty" <> ""
  /\ exists it,
       In it (pitems (project Scenario.foundOnce)) /\ iid it = 3 /\ isFootage it = true
       /\ (iname it = "beauty"
           \/ (exists suffix, iname it = "beauty" ++ suffix
                              /\ Startup.isSequenceSuffix suffix = true)
              /\ forall other, In other (pitems (project Scenario.foundOnce)) ->
                               isFootage other = true -> iname other <> "beauty").
Proof.
  apply (findFootageByName_finds_the_shot "beauty" (project Scenario.foundOnce) 3).
  vm_compute. reflexivity.
Defined.

(** ** The footage of a shot *)

Section Resolver.

Variable env : Env.

Lemma outlines_updFootage (i : nat) (g : Footage -> Footage) (p : Project) (a : App) :
  outlines (setProject (updFootage i g p) a) = map outline (pitems p).
Proof.
  unfold outlines, updFootage, updItem. simpl. rewrite map_map.
  apply map_ext. intros it. destruct (Nat.eqb (iid it) i); [|reflexivity].
  unfold outline. simpl. now destruct (body it).
Qed.

Lemma preserves_outlines_writeFootage (o : list _) (op : Op) (i : nat)
    (g : Footage -> Footage) :
  preserves (fun a => outlines a = o) (writeFootage env op i g).
Proof.
  unfold writeFootage.
  pres ltac:(apply preserves_host; intros a Ha; now rewrite outlines_updFootage).
Qed.

(** The resolver, by cases. *)
Lemma importOrUpdateSequence_cases (f : string) (n : string) (a : App) :
  f <> "" -> fileExists env f = true ->
  Startup.importOrUpdateSequence env (Some f) n a
  = match Startup.findFootageByFirstFile env f (project a) with
    | Some e => refresh env e a
    | None =>
        match Startup.sameNameWithFile n (project a) with
        | Some (s, oldFile) => swap env f s oldFile a
        | None => Startup.importFile env f a
        end
    end.
Proof.
  intros Hf Hx. unfold Startup.importOrUpdateSequence.
  apply String.eqb_neq in Hf. rewrite Hf, Hx. simpl.
  rewrite bind_gets. destruct (Startup.findFootageByFirstFile env f (project a));
    [reflexivity|].
  rewrite bind_gets. now destruct (Startup.sameNameWithFile n (project a)) as [[s o]|].
Qed.

Lemma refresh_some (e : nat) (a : App) :
  exists a', refresh env e a = (Ok (Some e), a').
Proof.
  unfold refresh. destruct (attempt_ok (Startup.reload env e) a) as (a' & E & _).
  exists a'. now rewrite (bind_run _ _ _ _ _ E).
Qed.

Lemma swap_some (f : string) (s : nat) (oldFile : string) (a : App) :
  exists a', swap env f s oldFile a = (Ok (Some s), a').
Proof.
  unfold swap.
  match goal with |- context [bind ?m ?k] =>
    assert (Hm : exists r a1, m a = (Ok r, a1) /\ (r = None \/ r = Some s)) end.
  { unfold tryCatch at 1.
    match goal with |- context [match ?m a with _ => _ end] =>
      destruct (m a) as [[r|e] a1] eqn:E end.
    - exists r, a1. split; [reflexivity|].
      destruct (negb (String.eqb oldFile (fsName env f))).
      + unfold tryCatch at 1 in E.
        match type of E with context [match ?m a with _ => _ end] =>
          destruct (m a) as [[r2|e2] a2] eqn:E2 end.
        * injection E as -> ->. do 2 bind_inv E2. injection E2 as <- _. now right.
        * unfold tryCatch at 1 in E.
          match type of E with context [match ?m a2 with _ => _ end] =>
            destruct (m a2) as [[r3|e3] a3] eqn:E3 end.
          -- injection E as -> ->. do 2 bind_inv E3. injection E3 as <- _. now right.
          -- injection E as <- _. now left.
      + injection E as <- _. now left.
    - exists None, a1. split; [reflexivity | now left]. }
  destruct Hm as (r & a1 & E & Hr). rewrite (bind_run _ _ _ _ _ E).
  destruct Hr as [-> | ->].
  - destruct (attempt_ok (Startup.reload env s) a1) as (a' & E' & _).
    exists a'. now rewrite (bind_run _ _ _ _ _ E').
  - now exists a1.
Qed.

(** X7.  The resolver answers [null] only when it was given no path or the file
    is not on disk; the project is then as it was. *)
Theorem resolver_is_null_only_without_file
    (firstFile : option string) (n : string) (a a' : App) :
  Startup.importOrUpdateSequence env firstFile n a = (Ok None, a') ->
  a' = a
  /\ match firstFile with
     | None => True
     | Some f => f = "" \/ fileExists env f = false
     end.
Proof.
  destruct firstFile as [f|]; [|now intros [= <-]].
  destruct (String.eqb f "") eqn:Ef.
  { unfold Startup.importOrUpdateSequence. rewrite Ef. intros [= <-].
    apply String.eqb_eq in Ef. auto. }
  destruct (fileExists env f) eqn:Ex.
  2:{ unfold Startup.importOrUpdateSequence. rewrite Ef, Ex. intros [= <-]. auto. }
  apply String.eqb_neq in Ef. rewrite (importOrUpdateSequence_cases f n a Ef Ex).
  destruct (Startup.findFootageByFirstFile env f (project a)) as [e|].
  { destruct (refresh_some e a) as (a1 & ->). discriminate. }
  destruct (Startup.sameNameWithFile n (project a)) as [[s o]|].
  { destruct (swap_some f s o a) as (a1 & ->). discriminate. }
  unfold Startup.importFile. intros H. do 2 bind_inv H. discriminate H.
Qed.

(** X8.  The one exception that leaves the resolver is a refused import of a file
    that no footage of the project has, by path or by name; nothing has been
    changed then. *)
Theorem resolver_throws_only_on_refused_import
    (firstFile : option string) (n : string) (a a' : App) (e : string) :
  Startup.importOrUpdateSequence env firstFile n a = (Throw e, a') ->
  exists f,
    firstFile = Some f
    /\ fails env (OpImportFile f) = true
    /\ Startup.findFootageByFirstFile env f (project a) = None
    /\ Startup.sameNameWithFile n (project a) = None
    /\ e = hostError /\ a' = a.
Proof.
  destruct firstFile as [f|]; [|discriminate].
  destruct (String.eqb f "") eqn:Ef.
  { unfold Startup.importOrUpdateSequence. rewrite Ef. discriminate. }
  destruct (fileExists env f) eqn:Ex.
  2:{ unfold Startup.importOrUpdateSequence. rewrite Ef, Ex. discriminate. }
  apply String.eqb_neq in Ef. rewrite (importOrUpdateSequence_cases f n a Ef Ex).
  destruct (Startup.findFootageByFirstFile env f (project a)) as [x|] eqn:F1.
  { destruct (refresh_some x a) as (a1 & ->). discriminate. }
  destruct (Startup.sameNameWithFile n (project a)) as [[s o]|] eqn:F2.
  { destruct (swap_some f s o a) as (a1 & ->). discriminate. }
  unfold Startup.importFile. rewrite bind_gets. unfold bind at 1, host.
  destruct (fails env (OpImportFile f)) eqn:Hfl; [|discriminate].
  intros [= <- <-]. exists f. repeat apply conj; first [assumption | reflexivity].
Qed.

(** X9.  The resolver changes no composition and removes, renames and reorders
    no item: the items are as before but for the interpretation of footage,
    followed by the imported footage when the resolver had to import. *)
Theorem resolver_leaves_compositions_alone
    (firstFile : option string) (n : string) (a a' : App) (r : Res (option nat)) :
  Startup.importOrUpdateSequence env firstFile n a = (r, a') ->
  outlines a' = outlines a
  \/ (r = Ok (Some (nextId (project a)))
      /\ exists name,
           outlines a' = (outlines a ++ [(nextId (project a), name, None)])%list).
Proof.
  destruct firstFile as [f|]; [|intros [= _ <-]; now left].
  destruct (String.eqb f "") eqn:Ef.
  { unfold Startup.importOrUpdateSequence. rewrite Ef. intros [= _ <-]. now left. }
  destruct (fileExists env f) eqn:Ex.
  2:{ unfold Startup.importOrUpdateSequence. rewrite Ef, Ex. intros [= _ <-]. now left. }
  apply String.eqb_neq in Ef. rewrite (importOrUpdateSequence_cases f n a Ef Ex).
  destruct (Startup.findFootageByFirstFile env f (project a)) as [x|].
  { intros H. left.
    assert (P : preserves (fun b => outlines b = outlines a) (refresh env x)).
    { unfold refresh, Startup.reload.
      pres ltac:(apply preserves_outlines_writeFootage). }
    exact (P _ _ _ eq_refl H). }
  destruct (Startup.sameNameWithFile n (project a)) as [[s o]|].
  { intros H. left.
    assert (P : preserves (fun b => outlines b = outlines a) (swap env f s o)).
    { unfold swap, Startup.reload, Startup.replaceWithSequence, Startup.replace.
      pres ltac:(apply preserves_outlines_writeFootage). }
    exact (P _ _ _ eq_refl H). }
  unfold Startup.importFile. rewrite bind_gets. unfold bind at 1, host.
  destruct (fails env (OpImportFile f)); [intros [= _ <-]; now left|].
  intros [= <- <-]. right. split; [reflexivity|]. eexists.
  unfold outlines, addItem. simpl. now rewrite map_app.
Qed.

End Resolver.

Lemma resolver_is_null_only_without_file_witness :
  Scenario.blank = Scenario.blank
  /\ ("/x/beauty.0001.exr" = "" \/ fileExists Scenario.noFiles "/x/beauty.0001.exr" = false).
Proof.
  apply (resolver_is_null_only_without_file Scenario.noFiles
           (Some "/x/beauty.0001.exr") "beauty" Scenario.blank Scenario.blank).
  vm_compute. reflexivity.
Defined.

Lemma resolver_throws_only_on_refused_import_witness :
  exists f,
    Some "/x/beauty.0001.exr" = Some f
    /\ fails Scenario.noImport (OpImportFile f) = true
    /\ Startup.findFootageByFirstFile Scenario.noImport f (project Scenario.blank) = None
    /\ Startup.sameNameWithFile "beauty" (project Scenario.blank) = None
    /\ hostError = hostError /\ Scenario.blank = Scenario.blank.
Proof.
  apply (resolver_throws_only_on_refused_import Scenario.noImport
           (Some "/x/beauty.0001.exr") "beauty" Scenario.blank Scenario.blank hostError).
  vm_compute. reflexivity.
Defined.

Lemma resolver_leaves_compositions_alone_witness :
  outlines Scenario.imported = outlines Scenario.blank
  \/ (Ok (Some 1) = Ok (Some (nextId (project Scenario.blank)))
      /\ exists name,
           outlines Scenario.imported
           = (outlines Scenario.blank
              ++ [(nextId (project Scenario.blank), name, None)])%list).
Proof.
  apply (resolver_leaves_compositions_alone Scenario.allFiles
           (Some "/x/beauty.0001.exr") "beauty" Scenario.blank Scenario.imported
           (Ok (Some 1))).
  vm_compute. reflexivity.
Defined.

(** ** The keys of the time remapping *)

Section ClearKeys.

Variable env : Env.

Lemma setRemapKeys_same (lay : Layer) :
  remapKeys lay = [] -> setRemapKeys [] lay = lay.
Proof. destruct lay. simpl. now intros ->. Qed.

(** X10.  The loop that removes the keys of the time remapping ends, when the host
    accepts the removals, with no key left on the layer; the layer is
    otherwise as it was, and so is every other layer.  (As many rounds as
    there are keys suffice.) *)
Theorem clearKeys_removes_every_key (c t fuel : nat) (a : App) (lay : Layer) :
  fails env (OpRemoveKey t) = false ->
  getLayer (project a) c t = Some lay ->
  length (remapKeys lay) <= fuel ->
  exists a',
    Startup.clearKeys env c t fuel a = (Ok tt, a')
    /\ getLayer (project a') c t = Some (setRemapKeys [] lay)
    /\ forall c' t', Nat.eqb c' c && Nat.eqb t' t = false ->
         getLayer (project a') c' t' = getLayer (project a) c' t'.
Proof.
  intros Hop. revert a lay.
  assert (Hnil : forall a lay, getLayer (project a) c t = Some lay ->
                   remapKeys lay = [] ->
                   getLayer (project a) c t = Some (setRemapKeys [] lay)
                   /\ forall c' t', Nat.eqb c' c && Nat.eqb t' t = false ->
                        getLayer (project a) c' t' = getLayer (project a) c' t').
  { intros a lay Hl Hk. now rewrite (setRemapKeys_same _ Hk). }
  induction fuel as [|n IH]; intros a lay Hl Hlen; simpl.
  - exists a. split; [reflexivity|]. apply Hnil; [exact Hl|].
    destruct (remapKeys lay); [reflexivity | simpl in Hlen; lia].
  - rewrite (bind_run _ _ _ _ _ (theLayer_run _ _ _ _ Hl)).
    destruct (remapKeys lay) as [|k ks] eqn:Hk.
    + exists a. split; [reflexivity|]. now apply Hnil.
    + set (g := fun x : Layer => setRemapKeys (tl (remapKeys x)) x).
      rewrite (bind_run _ _ _ _ _ (writeLayer_run env _ c t g a lay Hl Hop)).
      assert (Hid : forall x, lid (g x) = lid x) by reflexivity.
      assert (Hl1 : getLayer (project (setProject (updLayer c t g (project a)) a)) c t
                    = Some (g lay))
        by (cbn [project setProject]; now apply getLayer_updLayer_same).
      destruct (IH _ (g lay) Hl1) as (a' & E & Hl' & Hother).
      { subst g. simpl. rewrite Hk. simpl in *. lia. }
      exists a'. split; [exact E|]. split; [exact Hl'|].
      intros c' t' Hne. rewrite (Hother c' t' Hne). cbn [project setProject].
      rewrite (getLayer_updLayer _ _ _ _ _ _ Hid).
      rewrite (Nat.eqb_sym c c'), (Nat.eqb_sym t t'), Hne.
      now destruct (getLayer (project a) c' t').
Qed.

End ClearKeys.

(** ** The source of the source layer *)

Section Shows.

Variable env : Env.
Variable st : Startup.Settings.
Variables c t f : nat.

Lemma preserves_host_source (op : Op) (g : Project -> Project) :
  keepsSource c t g -> preserves (shows c t f) (host env op g).
Proof.
  intros Hg. apply preserves_host. intros a (lay & Hl & Hs).
  destruct (Hg _ _ Hl) as (lay' & Hl' & Hs').
  exists lay'. split; [exact Hl' | congruence].
Qed.

Lemma keepsSource_updLayer (c' l : nat) (g : Layer -> Layer) :
  (forall x, lid (g x) = lid x) -> (forall x, source (g x) = source x) ->
  keepsSource c t (updLayer c' l g).
Proof.
  intros Hid Hs p lay Hl. rewrite (getLayer_updLayer _ _ _ _ _ _ Hid), Hl. simpl.
  eexists. split; [reflexivity|].
  destruct (Nat.eqb c' c && Nat.eqb l t); [apply Hs | reflexivity].
Qed.

Lemma keepsSource_updFootage (i : nat) (g : Footage -> Footage) :
  keepsSource c t (updFootage i g).
Proof. intros p lay Hl. rewrite getLayer_updFootage. eauto. Qed.

Lemma keepsSource_id : keepsSource c t id.
Proof. intros p lay Hl. eauto. Qed.

Lemma preserves_source_clearKeys (n : nat) :
  preserves (shows c t f) (Startup.clearKeys env c t n).
Proof.
  induction n as [|n IH]; simpl.
  - apply preserves_ret.
  - unfold writeLayer.
    pres ltac:(first [ exact IH
                     | apply preserves_host_source, keepsSource_updLayer;
                       intros; reflexivity ]).
Qed.

Lemma preserves_source_configureLayer (layerName : string) (sf ef : Q) :
  preserves (shows c t f) (Startup.configureLayer env st c t f layerName sf ef).
Proof.
  unfold Startup.configureLayer, Startup.remapIfNeeded, writeLayer, writeFootage.
  pres ltac:(first [ apply preserves_source_clearKeys
                   | apply preserves_host_source, keepsSource_updLayer;
                     intros; reflexivity
                   | apply preserves_host_source, keepsSource_updFootage
                   | apply preserves_host_source, keepsSource_id ]).
Qed.

Lemma preserves_source_dedupe (layerName : string) :
  preserves (shows c t f)
    (removeLayersWhere env c
       (fun p other => negb (Nat.eqb (lid other) t)
                       && Startup.isSourceLayer layerName p other)).
Proof.
  unfold removeLayersWhere. apply preserves_modify.
  intros a (lay & Hl & Hs). exists lay. split; [|exact Hs].
  cbn [project setProject]. rewrite getLayer_updLayers.
  unfold getLayer in Hl. destruct (getComp (project a) c) as [k|]; [|discriminate Hl].
  rewrite find_filter_kept; [exact Hl|].
  intros x Hx. apply Nat.eqb_eq in Hx. now rewrite Hx, Nat.eqb_refl.
Qed.

End Shows.

Section SourceOfTheLayer.

Variable env : Env.
Variable st : Startup.Settings.

Lemma addLayer_shows (c f : nat) (a a' : App) (l : nat) :
  addLayer env c f a = (Ok l, a') -> shows c l f a'.
Proof.
  unfold addLayer. intros H. bind_inv H.
  apply theComp_ok in E as [-> Hk].
  destruct (Nat.eqb c f); [discriminate H|].
  rewrite bind_gets in H. bind_inv H. apply host_ok in E as [_ ->].
  injection H as <- <-.
  exists (newLayer (project a) f). split; [|reflexivity].
  cbn [project setProject]. unfold pushLayer.
  rewrite getLayer_bumpId, getLayer_updLayers, Hk. simpl.
  now rewrite Nat.eqb_refl.
Qed.

Lemma bindSourceLayer_shows (c f : nat) (layerName : string)
    (a a' : App) (r : option nat) :
  Startup.bindSourceLayer env c (Some f) layerName a = (Ok r, a') ->
  exists t, r = Some t /\ shows c t f a'.
Proof.
  unfold Startup.bindSourceLayer. intros H. bind_inv H.
  rewrite bind_gets in H.
  destruct (Startup.findSourceLayer c layerName (project a0)) as [t|].
  - bind_inv H. unfold theLayer in E0.
    destruct (getLayer (project a0) c t) as [lay|] eqn:Hl; [|discriminate E0].
    injection E0 as <- <-.
    destruct (Nat.eqb (source lay) f) eqn:Hs; simpl in H.
    + injection H as <- <-. exists t. split; [reflexivity|].
      exists lay. split; [exact Hl | now apply Nat.eqb_eq].
    + unfold tryCatch in H.
      destruct (bind _ _ a0) as [[y|e] a3] eqn:E2.
      * injection H as -> ->. bind_inv E2. injection E2 as <- <-.
        apply writeLayer_ok in E0 as (lay0 & Hl0 & ->).
        exists t. split; [reflexivity|]. exists (setSource f lay0). split; [|reflexivity].
        cbn [project setProject].
        now apply (getLayer_updLayer_same c t (setSource f)).
      * bind_inv H. bind_inv H. injection H as <- <-.
        match goal with E : addLayer _ _ _ _ = (Ok ?l, _) |- _ =>
          exists l; split; [reflexivity | exact (addLayer_shows _ _ _ _ _ E)] end.
  - bind_inv H. injection H as <- <-.
    match goal with E : addLayer _ _ _ _ = (Ok ?l, _) |- _ =>
      exists l; split; [reflexivity | exact (addLayer_shows _ _ _ _ _ E)] end.
Qed.

(** X11.  Whenever [ensureSourceLayer] returns for a footage, the layer it returns
    is in the child composition and shows that footage: it was found showing
    it, given it by [replaceSource], or added for it. *)
Theorem source_layer_shows_the_footage
    (c f : nat) (layerName : string) (sf ef : Q) (a a' : App) (r : option nat) :
  Startup.ensureSourceLayer env st c (Some f) layerName sf ef a = (Ok r, a') ->
  exists t lay,
    r = Some t /\ getLayer (project a') c t = Some lay /\ source lay = f.
Proof.
  unfold Startup.ensureSourceLayer. intros H. bind_inv H.
  apply bindSourceLayer_shows in E as (t & -> & Hs).
  bind_inv H. bind_inv H. injection H as <- <-.
  pose proof (preserves_source_configureLayer env st c t f layerName sf ef
                _ _ _ Hs E) as Hs1.
  destruct (preserves_source_dedupe env c t f layerName _ _ _ Hs1 E0)
    as (lay & Hl & Hf).
  now exists t, lay.
Qed.

End SourceOfTheLayer.

Lemma clearKeys_removes_every_key_witness :
  exists lay,
    getLayer (project Scenario.foundOnce) 2 4 = Some lay
    /\ exists a',
         Startup.clearKeys Scenario.allFiles 2 4 2 Scenario.foundOnce = (Ok tt, a')
         /\ getLayer (project a') 2 4 = Some (setRemapKeys [] lay)
         /\ forall c' t', Nat.eqb c' 2 && Nat.eqb t' 4 = false ->
              getLayer (project a') c' t' = getLayer (project Scenario.foundOnce) c' t'.
Proof.
  eexists. split; [vm_compute; reflexivity|].
  apply (clearKeys_removes_every_key Scenario.allFiles 2 4 2 Scenario.foundOnce).
  - reflexivity.
  - vm_compute. reflexivity.
  - vm_compute. lia.
Defined.

Lemma source_layer_shows_the_footage_witness :
  exists t lay,
    Some 4 = Some t
    /\ getLayer (project Scenario.rebound) 2 t = Some lay
    /\ source lay = 3.
Proof.
  apply (source_layer_shows_the_footage Scenario.allFiles (Scenario.beautySettings 1001)
           2 3 "[AEBridge]_Source_beauty" 1001 1100 Scenario.foundOnce Scenario.rebound
           (Some 4)).
  vm_compute. reflexivity.
Defined.

(** ** What the start-up script leaves as it is *)

Lemma bind_res {A C} (m : M A) (k : A -> M C) (a a' : App) (r : Res C) :
  bind m k a = (r, a') ->
  (exists e, m a = (Throw e, a') /\ r = Throw e)
  \/ (exists x a1, m a = (Ok x, a1) /\ k x a1 = (r, a')).
Proof.
  unfold bind. destruct (m a) as [[x|e] a1].
  - intros H. right. now exists x, a1.
  - intros [= <- <-]. left. now exists e.
Qed.

Section OutsideStartup.

Context {B : Type}.
Variable obs : App -> B.
Variable v : B.
Variable env : Env.
Variable st : Startup.Settings.

Hypothesis outsideProject : forall p a, obs (setProject p a) = obs a.
Hypothesis outsideErrorLog : forall l a, obs (writeLog Startup.errorLog l a) = obs a.

Lemma preserves_outside_clearKeys (c t n : nat) :
  preserves (fun a => obs a = v) (Startup.clearKeys env c t n).
Proof using outsideProject.
  induction n as [|n IH]; simpl.
  - apply preserves_ret.
  - unfold writeLayer. pres ltac:(first [ exact IH | outside outsideProject ]).
Qed.

Lemma preserves_outside_ensureComp (n : string) :
  preserves (fun a => obs a = v) (Startup.ensureComp env st n).
Proof using outsideProject.
  unfold Startup.ensureComp, Startup.addComp, Startup.syncCompSettings, writeComp.
  pres ltac:(outside outsideProject).
Qed.

Lemma preserves_outside_importOrUpdateSequence (f : option string) (n : string) :
  preserves (fun a => obs a = v) (Startup.importOrUpdateSequence env f n).
Proof using outsideProject.
  unfold Startup.importOrUpdateSequence, Startup.importFile, Startup.reload,
    Startup.replaceWithSequence, Startup.replace, writeFootage.
  pres ltac:(outside outsideProject).
Qed.

Lemma preserves_outside_ensureSourceLayer (c : nat) (f : option nat) (n : string)
    (sf ef : Q) :
  preserves (fun a => obs a = v) (Startup.ensureSourceLayer env st c f n sf ef).
Proof using outsideProject.
  unfold Startup.ensureSourceLayer, Startup.bindSourceLayer, Startup.configureLayer,
    Startup.remapIfNeeded, addLayer, removeLayer, writeLayer, writeFootage.
  pres ltac:(first [ apply preserves_outside_clearKeys | outside outsideProject ]).
Qed.

Lemma preserves_outside_reconcile (mainComp : nat) (it : Startup.ShotItem) :
  preserves (fun a => obs a = v) (Startup.reconcile env st mainComp it).
Proof using outsideProject.
  unfold Startup.reconcile, addLayer, addSolid, writeLayer, writeFootage.
  pres ltac:(first [ apply preserves_outside_ensureComp
                   | apply preserves_outside_importOrUpdateSequence
                   | apply preserves_outside_ensureSourceLayer
                   | outside outsideProject ]).
Qed.

Lemma preserves_outside_processItems (mainComp : nat) (its : list Startup.ShotItem) :
  forall idx, preserves (fun a => obs a = v) (Startup.processItems env st mainComp idx its).
Proof using outsideProject outsideErrorLog.
  induction its as [|it rest IH]; intros idx; simpl.
  - apply preserves_ret.
  - pres ltac:(first [ apply IH
                     | apply preserves_outside_reconcile
                     | apply preserves_modify; intros a Ha; now rewrite outsideErrorLog
                     | outside outsideProject ]).
Qed.

Lemma preserves_outside_colorPolicy :
  preserves (fun a => obs a = v) (Startup.colorPolicy env st).
Proof using outsideProject.
  unfold Startup.colorPolicy, Startup.setWS.
  pres ltac:(outside outsideProject).
Qed.

Lemma preserves_outside_build :
  preserves (fun a => obs a = v) (build env st).
Proof using outsideProject outsideErrorLog.
  unfold build.
  pres ltac:(first [ apply preserves_outside_processItems
                   | apply preserves_outside_ensureComp
                   | apply preserves_outside_colorPolicy
                   | outside outsideProject ]).
Qed.

End OutsideStartup.

(** ** The two parts of the start-up script *)

Section Body.

Variable env : Env.
Variable st : Startup.Settings.

Lemma body_build (a : App) :
  Startup.body env st a = (mainComp <- build env st ;; finish env st mainComp) a.
Proof.
  unfold Startup.body, build, finish, bind.
  repeat match goal with
         | |- context [match ?m a with _ => _ end] =>
             destruct (m a) as [[?|?] ?]; try reflexivity
         | |- context [match ?m ?b with _ => _ end] =>
             destruct (m b) as [[?|?] ?]; try reflexivity
         end.
Qed.

End Body.

(** ** How a run of the start-up script ends *)

Section Reports.

Variable env : Env.
Variable st : Startup.Settings.

Lemma preserves_alerts_build (v : list string) :
  preserves (fun a => alerts a = v) (build env st).
Proof. apply preserves_outside_build; reflexivity. Qed.

Lemma preserves_alerts_finish (v : list string) (mainComp : nat) :
  preserves (fun a => alerts a = v) (finish env st mainComp).
Proof.
  unfold finish, Startup.renderMain, addRQItem, omWrite.
  pres ltac:(first [ apply preserves_outside_save; reflexivity
                   | apply preserves_outside_render; reflexivity
                   | apply preserves_modify; intros ? Hx; exact Hx
                   | outside (fun (p : Project) (a : App) => eq_refl (alerts a)) ]).
Qed.

Lemma preserves_alerts_body (v : list string) :
  preserves (fun a => alerts a = v) (Startup.body env st).
Proof.
  intros a r a' Ha E. rewrite body_build in E. revert a r a' Ha E.
  apply preserves_bind; [apply preserves_alerts_build|].
  intros mainComp. apply preserves_alerts_finish.
Qed.

Lemma body_logs_success (a a' : App) :
  Startup.body env st a = (Ok tt, a') ->
  logs a' !! Startup.successLog
  = Some ["SUCCESS: Project updated";
          "Project: " ++ default "undefined" (Startup.PROJECT_PATH st);
          "Comp: " ++ Startup.COMP_NAME st].
Proof.
  rewrite body_build. intros H. bind_inv H. unfold finish in H. do 3 bind_inv H.
  injection H as <-. simpl. apply lookup_insert_eq.
Qed.

(** X12.  The script always comes to an end, and says how: when its [try] block
    ran through, the success log names the project and the composition and
    no alert was raised; when the block threw, the error log holds the
    message, followed by the line number when the error has one, and one
    alert shows the message, unless it is that of a cancelled or timed-out
    run, which raises none. *)
Theorem startup_run_reports_how_it_ended (a : App) :
  exists a',
    Startup.run env st a = (Ok tt, a')
    /\ match fst (Startup.body env st a) with
       | Ok _ =>
           logs a' !! Startup.successLog
           = Some ["SUCCESS: Project updated";
                   "Project: " ++ default "undefined" (Startup.PROJECT_PATH st);
                   "Comp: " ++ Startup.COMP_NAME st]
           /\ alerts a' = alerts a
       | Throw e =>
           logs a' !! Startup.errorLog
           = Some (("ERROR: Error: " ++ e)%string :: lineEntry env e)
           /\ alerts a'
              = if String.eqb e "User cancelled" || String.eqb e "Script timeout"
                then alerts a
                else List.app (alerts a) ["AEBridge Error: Error: " ++ e]
       end.
Proof.
  unfold Startup.run, tryCatch.
  destruct (Startup.body env st a) as [[[]|e] a1] eqn:E; simpl.
  - exists a1. split; [reflexivity|]. split.
    + exact (body_logs_success _ _ E).
    + exact (preserves_alerts_body _ _ _ _ eq_refl E).
  - pose proof (preserves_alerts_body _ _ _ _ eq_refl E) as Ha.
    unfold bind, modify.
    destruct (String.eqb e "User cancelled"); simpl.
    + eexists. split; [reflexivity|]. simpl. split; [apply lookup_insert_eq | exact Ha].
    + destruct (String.eqb e "Script timeout"); simpl.
      * eexists. split; [reflexivity|]. simpl. split; [apply lookup_insert_eq | exact Ha].
      * eexists. split; [reflexivity|]. simpl. split; [apply lookup_insert_eq|].
        now rewrite Ha.
Qed.

Lemma processItems_stopped (mainComp : nat) (its : list Startup.ShotItem) :
  forall idx j a x a',
    j < length its ->
    cancelAt env (idx + j) || timeoutAt env (idx + j) = true ->
    Startup.processItems env st mainComp idx its a = (Ok x, a') -> False.
Proof.
  induction its as [|it rest IH]; intros idx j a x a' Hj Hc H; simpl in *; [lia|].
  bind_inv H. bind_inv H. do 2 bind_inv H.
  destruct j as [|j].
  - rewrite Nat.add_0_r in Hc. apply orb_true_iff in Hc as [Hc|Hc].
    + rewrite Hc in E. discriminate E.
    + rewrite Hc in E0. simpl in E0. bind_inv E0. discriminate E0.
  - apply (IH (S idx) j _ _ _ ltac:(lia)) in H; [exact H|].
    now replace (S idx + j) with (idx + S j) by lia.
Qed.

Lemma outcome_errorLog (l : list string) (a : App) :
  outcome (writeLog Startup.errorLog l a) = outcome a.
Proof. unfold outcome. simpl. now rewrite lookup_insert_ne. Qed.

(** X13.  A run that is cancelled, or that times out, at one of its items saves
    no project file, starts no render and leaves the success log as it was. *)
Theorem stopped_run_saves_nothing (a : App) (i : nat) :
  i < length (Startup.items st) ->
  cancelAt env i || timeoutAt env i = true ->
  exists a',
    Startup.run env st a = (Ok tt, a')
    /\ disk a' = disk a
    /\ renders a' = renders a
    /\ logs a' !! Startup.successLog = logs a !! Startup.successLog.
Proof.
  intros Hi Hc.
  assert (Hb : exists e a1, Startup.body env st a = (Throw e, a1)
                            /\ outcome a1 = outcome a).
  { rewrite body_build. destruct (build env st a) as [[mc|e] a1] eqn:E.
    - exfalso. unfold build in E. do 6 bind_inv E.
      match goal with Ep : Startup.processItems _ _ _ _ _ _ = _ |- _ =>
        exact (processItems_stopped _ _ 0 i _ _ _ Hi Hc Ep) end.
    - exists e, a1. split; [now rewrite (bind_throw _ _ _ _ _ E)|].
      refine (preserves_outside_build outcome _ env st _ _ _ _ _ eq_refl E).
      + reflexivity.
      + apply outcome_errorLog. }
  destruct Hb as (e & a1 & E & Ho).
  unfold Startup.run, tryCatch. rewrite E. unfold bind, modify, when.
  assert (Hw : outcome (writeLog Startup.errorLog
                          (("ERROR: Error: " ++ e)%string :: lineEntry env e) a1)
               = outcome a)
    by now rewrite outcome_errorLog.
  destruct (negb _ && negb _); eexists; (split; [reflexivity|]);
    unfold outcome in Hw; simpl in *; injection Hw as H1 H2 H3; auto.
Qed.

Lemma preserves_render (I : App -> Prop) :
  (forall a, I a -> I (addRender a)) -> preserves I (render env).
Proof.
  intros HI a r a' Ha E. unfold render in E.
  destruct (fails env OpRender); inversion E as [[Er Ea]]; [now rewrite <- Ea | auto].
Qed.

(** X14.  The project is saved before the main composition is queued for
    rendering: when the [try] block runs through, the project file holds a
    project with every item of the open project, which bears the name of the
    file; without a render the file holds the open project itself. *)
Theorem saved_project_has_every_item (a a' : App) :
  Startup.body env st a = (Ok tt, a') ->
  exists p,
    disk a' !! Startup.prjFile env st = Some p
    /\ pitems p = pitems (project a')
    /\ pfile p = Some (Startup.prjFile env st)
    /\ pfile (project a') = Some (Startup.prjFile env st)
    /\ (Startup.SHOULD_RENDER st && negb (String.eqb (Startup.OUTPUT_PATH st) "") = false ->
        p = project a').
Proof.
  rewrite body_build. intros H. bind_inv H. unfold finish in H. do 3 bind_inv H.
  injection H as <-. rename x into mainComp.
  unfold save in E1. destruct (fails env OpSave); [discriminate E1|].
  injection E1 as _ <-.
  set (f := Startup.prjFile env st) in *.
  set (p := setPfile (Some f) (project a1)) in *.
  exists p.
  assert (Hk : disk a3 !! f = Some p /\ pitems (project a3) = pitems p
               /\ pfile (project a3) = Some f
               /\ (Startup.SHOULD_RENDER st
                   && negb (String.eqb (Startup.OUTPUT_PATH st) "") = false ->
                   p = project a3)).
  { destruct (Startup.SHOULD_RENDER st && negb (String.eqb (Startup.OUTPUT_PATH st) ""));
      simpl in E2.
    - assert (P : preserves (fun b => disk b !! f = Some p
                                      /\ pitems (project b) = pitems p
                                      /\ pfile (project b) = Some f)
                    (Startup.renderMain env st mainComp)).
      { unfold Startup.renderMain, addRQItem, omWrite.
        pres ltac:(first [ apply preserves_render; intros ? Hx; exact Hx
                         | apply preserves_host; intros ? Hx; exact Hx ]). }
      assert (H0 : disk (setDisk (<[f:=p]> (disk a1)) (setProject p a1)) !! f = Some p
                   /\ pitems (project (setDisk (<[f:=p]> (disk a1)) (setProject p a1)))
                      = pitems p
                   /\ pfile (project (setDisk (<[f:=p]> (disk a1)) (setProject p a1)))
                      = Some f).
      { simpl. now rewrite lookup_insert_eq. }
      destruct (P _ _ _ H0 E2) as (H1 & H2 & H3).
      repeat split; auto. discriminate.
    - unfold ret in E2. inversion E2 as [[Ex Ea]]. simpl.
      rewrite lookup_insert_eq. auto. }
  destruct Hk as (H1 & H2 & H3 & H4). simpl. auto.
Qed.

End Reports.

Lemma stopped_run_saves_nothing_witness :
  exists a',
    Startup.run Scenario.cancelled Scenario.shotSettings Scenario.blank = (Ok tt, a')
    /\ disk a' = disk Scenario.blank
    /\ renders a' = renders Scenario.blank
    /\ logs a' !! Startup.successLog = logs Scenario.blank !! Startup.successLog.
Proof.
  apply (stopped_run_saves_nothing Scenario.cancelled Scenario.shotSettings
           Scenario.blank 0).
  - vm_compute. lia.
  - reflexivity.
Defined.

Lemma saved_project_has_every_item_witness :
  exists p,
    disk Scenario.built !! Startup.prjFile Scenario.allFiles Scenario.shotSettings = Some p
    /\ pitems p = pitems (project Scenario.built)
    /\ pfile p = Some (Startup.prjFile Scenario.allFiles Scenario.shotSettings)
    /\ pfile (project Scenario.built)
       = Some (Startup.prjFile Scenario.allFiles Scenario.shotSettings)
    /\ (Startup.SHOULD_RENDER Scenario.shotSettings
        && negb (String.eqb (Startup.OUTPUT_PATH Scenario.shotSettings) "") = false ->
        p = project Scenario.built).
Proof.
  apply (saved_project_has_every_item Scenario.allFiles Scenario.shotSettings
           Scenario.blank Scenario.built).
  vm_compute. reflexivity.
Defined.

(** ** The render block of the start-up script *)

Section RenderMain.

Variable env : Env.
Variable st : Startup.Settings.

Lemma queued_updRQItem (ri c n i : nat) (g : RQItem -> RQItem) (a : App) :
  (forall r, rqComp (g r) = rqComp r) ->
  queued ri c n a -> queued ri c n (setProject (updRQItem i g (project a)) a).
Proof.
  intros Hg (Hl & Hc & Hn). unfold queued. simpl. rewrite length_alter.
  split; [exact Hl|]. split; [|exact Hn].
  destruct (Nat.eq_dec i ri) as [->|Hne].
  - rewrite list_lookup_alter_eq.
    destruct (renderQueue (project a) !! ri) as [r|]; [|discriminate Hc].
    simpl in *. now rewrite Hg.
  - now rewrite list_lookup_alter_ne.
Qed.

Lemma preserves_queued_omWrite (ri c n i : nat) (op : Op) (w : OmWrite) :
  preserves (queued ri c n) (omWrite env i op w).
Proof.
  unfold omWrite. apply preserves_host. intros a Ha.
  now apply queued_updRQItem.
Qed.

Lemma addRQItem_queued (c : nat) (a a' : App) (ri : nat) :
  addRQItem env c a = (Ok ri, a') -> queued ri c (renders a) a'.
Proof.
  unfold addRQItem. rewrite bind_gets. intros H. bind_inv H.
  apply host_ok in E as [_ ->]. injection H as <- <-.
  unfold queued. simpl. rewrite length_app, Nat.add_comm. split; [reflexivity|].
  split; [|reflexivity].
  rewrite lookup_app_r by lia. now rewrite Nat.sub_diag.
Qed.

(** X15.  When the render block of the start-up script runs through, the item it
    queued is the last of the render queue, it renders the main composition,
    the last write to its output module is the output file, and one render
    has been started. *)
Theorem startup_render_sets_the_file_last (mainComp : nat) (a a' : App) :
  Startup.renderMain env st mainComp a = (Ok tt, a') ->
  exists r writes,
    last (renderQueue (project a')) = Some r
    /\ rqComp r = mainComp
    /\ om r = (writes ++ [WFile (Startup.OUTPUT_PATH st)])%list
    /\ renders a' = S (renders a).
Proof.
  unfold Startup.renderMain. intros H. bind_inv H. rename x into ri.
  apply addRQItem_queued in E. do 4 bind_inv H.
  pose proof (preserves_queued_omWrite _ _ _ _ _ _ _ _ _ E E0) as Q1.
  assert (Q2 : queued ri mainComp (renders a) a2).
  { refine (preserves_attempt _ _ _ _ _ _ Q1 E1).
    pres ltac:(apply preserves_queued_omWrite). }
  pose proof (preserves_attempt _ _ (preserves_queued_omWrite _ _ _ _ _ _) _ _ _ Q2 E2)
    as Q3.
  apply host_ok in E3 as [_ ->].
  unfold render in H. destruct (fails env OpRender); [discriminate H|].
  injection H as <-. destruct Q3 as (Hl & Hc & Hn). simpl.
  destruct (last_alter_end (fun r => setOm (om r ++ [WFile (Startup.OUTPUT_PATH st)]) r)
              (renderQueue (project a3)) ri Hl) as (r & Hr & Hlast).
  rewrite Hr in Hc. simpl in Hc. injection Hc as Hc.
  eexists _, (om r). split; [exact Hlast|]. simpl. auto.
Qed.

End RenderMain.

Lemma startup_render_sets_the_file_last_witness :
  exists r writes,
    last (renderQueue (project Scenario.renderedMain)) = Some r
    /\ rqComp r = 1
    /\ om r = (writes ++ [WFile (Startup.OUTPUT_PATH Scenario.shotSettings)])%list
    /\ renders Scenario.renderedMain = S (renders Scenario.foundOnce).
Proof.
  apply (startup_render_sets_the_file_last Scenario.allFiles Scenario.shotSettings 1
           Scenario.foundOnce Scenario.renderedMain).
  vm_compute. reflexivity.
Defined.

(** ** The colour settings of the project *)

Section ColorPolicy.

Variable env : Env.
Variable st : Startup.Settings.

(** X16.  The colour block cannot throw and works on the colour settings only.
    The working space it leaves is the one it found or one of three names,
    [ACEScg] only for an ACES configuration on a host with colour settings;
    and linear blending is switched on only after a working space was set:
    when the host refuses the working space, blending stays as it was. *)
Theorem colorPolicy_is_guarded (a : App) :
  exists a',
    Startup.colorPolicy env st a = (Ok tt, a')
    /\ pitems (project a') = pitems (project a)
    /\ renderQueue (project a') = renderQueue (project a)
    /\ (workingSpace (project a') = workingSpace (project a)
        \/ workingSpace (project a') = Startup.sRGB
        \/ workingSpace (project a') = "Rec. 709 Gamma 2.4"
        \/ workingSpace (project a') = "ACEScg"
           /\ Startup.ACES_COMPLIANT st = true /\ hasColorSettings env = true)
    /\ (linearBlending (project a') = linearBlending (project a)
        \/ linearBlending (project a') = true
           /\ In (workingSpace (project a'))
                ["ACEScg"; Startup.sRGB; "Rec. 709 Gamma 2.4"]).
Proof.
  unfold Startup.colorPolicy, Startup.setWS, attempt, tryCatch, bind, host, ret.
  repeat match goal with
         | |- context [if ?b then _ else _] => destruct b eqn:?
         end;
    eexists; (split; [reflexivity|]); simpl; auto 10.
Qed.

End ColorPolicy.

(** ** The item loop only adds items *)

Section Grows.

Variable env : Env.
Variable st : Startup.Settings.
Variable p0 : Project.

Lemma preserves_grows_host (op : Op) (f : Project -> Project) :
  (forall p, grows p (f p)) ->
  preserves (fun a => grows p0 (project a)) (host env op f).
Proof.
  intros Hf. apply preserves_host. intros a Ha.
  exact (grows_trans _ _ _ Ha (Hf _)).
Qed.

Lemma grows_updComp (c : nat) (g : Comp -> Comp) (p : Project) : grows p (updComp c g p).
Proof. apply grows_same, shapes_updComp. Qed.

Lemma grows_updFootage (i : nat) (g : Footage -> Footage) (p : Project) :
  grows p (updFootage i g p).
Proof. apply grows_same, shapes_updFootage. Qed.

Lemma grows_updLayers (c : nat) (G : list Layer -> list Layer) (p : Project) :
  grows p (updLayers c G p).
Proof. apply grows_updComp. Qed.

Lemma grows_updLayer (c l : nat) (g : Layer -> Layer) (p : Project) :
  grows p (updLayer c l g p).
Proof. apply grows_updComp. Qed.

Lemma grows_addItem (n : string) (b : Body) (p : Project) : grows p (addItem n b p).
Proof. eexists. apply shapes_addItem. Qed.

Lemma grows_pushLayer (c src : nat) (p : Project) : grows p (pushLayer c src p).
Proof. apply grows_same, shapes_pushLayer. Qed.

Lemma grows_pushSolid (c : nat) (n : string) (d : Q) (p : Project) :
  grows p (pushSolid c n d p).
Proof. eexists. apply shapes_pushSolid. Qed.

Lemma preserves_grows_removeLayersWhere (c : nat) (sel : Project -> Layer -> bool) :
  preserves (fun a => grows p0 (project a)) (removeLayersWhere env c sel).
Proof.
  apply preserves_modify. intros a Ha.
  exact (grows_trans _ _ _ Ha (grows_updLayers _ _ _)).
Qed.

End Grows.

(** The leaves of the scripts of the item loop. *)
Ltac growing :=
  first [ apply preserves_grows_removeLayersWhere
        | apply preserves_grows_host; intros ?;
          first [ apply grows_updComp | apply grows_updFootage | apply grows_updLayers
                | apply grows_updLayer | apply grows_addItem | apply grows_pushLayer
                | apply grows_pushSolid | apply grows_refl ] ].

Section ItemLoop.

Variable env : Env.
Variable st : Startup.Settings.

Lemma preserves_grows_clearKeys (p0 : Project) (c t n : nat) :
  preserves (fun a => grows p0 (project a)) (Startup.clearKeys env c t n).
Proof.
  induction n as [|n IH]; simpl.
  - apply preserves_ret.
  - unfold writeLayer. pres ltac:(first [ exact IH | growing ]).
Qed.

Lemma preserves_grows_ensureComp (p0 : Project) (n : string) :
  preserves (fun a => grows p0 (project a)) (Startup.ensureComp env st n).
Proof.
  unfold Startup.ensureComp, Startup.addComp, Startup.syncCompSettings, writeComp.
  pres growing.
Qed.

Lemma preserves_grows_importOrUpdateSequence (p0 : Project) (f : option string)
    (n : string) :
  preserves (fun a => grows p0 (project a)) (Startup.importOrUpdateSequence env f n).
Proof.
  unfold Startup.importOrUpdateSequence, Startup.importFile, Startup.reload,
    Startup.replaceWithSequence, Startup.replace, writeFootage.
  pres growing.
Qed.

Lemma preserves_grows_ensureSourceLayer (p0 : Project) (c : nat) (f : option nat)
    (n : string) (sf ef : Q) :
  preserves (fun a => grows p0 (project a))
    (Startup.ensureSourceLayer env st c f n sf ef).
Proof.
  unfold Startup.ensureSourceLayer, Startup.bindSourceLayer, Startup.configureLayer,
    Startup.remapIfNeeded, addLayer, removeLayer, writeLayer, writeFootage.
  pres ltac:(first [ apply preserves_grows_clearKeys | growing ]).
Qed.

Lemma preserves_grows_reconcile (p0 : Project) (mainComp : nat) (it : Startup.ShotItem) :
  preserves (fun a => grows p0 (project a)) (Startup.reconcile env st mainComp it).
Proof.
  unfold Startup.reconcile, addLayer, addSolid, writeLayer, writeFootage.
  pres ltac:(first [ apply preserves_grows_ensureComp
                   | apply preserves_grows_importOrUpdateSequence
                   | apply preserves_grows_ensureSourceLayer
                   | growing ]).
Qed.

Lemma preserves_grows_processItems (p0 : Project) (mainComp : nat)
    (its : list Startup.ShotItem) :
  forall idx,
    preserves (fun a => grows p0 (project a))
      (Startup.processItems env st mainComp idx its).
Proof.
  induction its as [|it rest IH]; intros idx; simpl.
  - apply preserves_ret.
  - pres ltac:(first [ apply IH
                     | apply preserves_grows_reconcile
                     | apply preserves_modify; intros ? Hx; exact Hx
                     | growing ]).
Qed.

(** X17.  The item loop removes, renames and reorders no item of the project:
    however it ends, the project panel lists the items it listed before the
    loop, in their order, and after them the items the loop has added. *)
Theorem item_loop_only_adds_items
    (mainComp idx : nat) (its : list Startup.ShotItem) (a a' : App) (r : Res unit) :
  Startup.processItems env st mainComp idx its a = (r, a') ->
  exists added, shapes (project a') = (shapes (project a) ++ added)%list.
Proof.
  intros H.
  exact (preserves_grows_processItems _ mainComp its idx _ _ _ (grows_refl _) H).
Qed.

Lemma reconcile_child (mainComp : nat) (it : Startup.ShotItem) (a a' : App)
    (x : nat * Startup.Outcome) :
  Startup.reconcile env st mainComp it a = (Ok x, a') ->
  exists c, findCompByName (Startup.preName it) (project a') = Some c.
Proof.
  unfold Startup.reconcile. intros H. bind_inv H. rename x0 into preComp.
  apply ensureComp_finds in E. exists preComp.
  refine (findCompByName_grows _ _ _ _ _ E).
  match type of H with ?m ?s = _ =>
    assert (P : preserves (fun b => grows (project s) (project b)) m) end.
  { cbv beta. unfold addLayer, addSolid, writeLayer, writeFootage.
    pres ltac:(first [ apply preserves_grows_importOrUpdateSequence
                     | apply preserves_grows_ensureSourceLayer
                     | growing ]). }
  exact (P _ _ _ (grows_refl _) H).
Qed.

(** X18.  When the item loop runs through, every shot of the configuration has its
    child composition in the project, under the name [[AEBridge]_<shot>],
    whether its footage was found or not. *)
Theorem every_shot_gets_its_composition
    (mainComp : nat) (its : list Startup.ShotItem) :
  forall (idx : nat) (a a' : App),
    Startup.processItems env st mainComp idx its a = (Ok tt, a') ->
    Forall (fun it => exists c, findCompByName (Startup.preName it) (project a') = Some c)
           its.
Proof.
  induction its as [|it rest IH]; intros idx a a' H; [constructor|].
  simpl in H. do 4 bind_inv H. constructor; [|exact (IH _ _ _ H)].
  match goal with Er : Startup.reconcile _ _ _ _ _ = _ |- _ =>
    destruct (reconcile_child _ _ _ _ _ Er) as (c & Hc) end.
  exists c. refine (findCompByName_grows _ _ _ _ _ Hc).
  exact (preserves_grows_processItems _ mainComp rest (S idx) _ _ _ (grows_refl _) H).
Qed.

(** X19.  The item loop keeps the identities of the layers apart: in a project in
    which no composition has two layers of one identity, and every identity
    is one the project has handed out, that is still so after the loop,
    however the loop ends. *)
Theorem item_loop_keeps_identities_apart
    (mainComp idx : nat) (its : list Startup.ShotItem) (a a' : App) (r : Res unit) :
  wf (project a) ->
  Startup.processItems env st mainComp idx its a = (r, a') ->
  wf (project a').
Proof.
  intros Hwf H.
  assert (Hs : forall c f n sf ef,
             preserves wfApp (Startup.ensureSourceLayer env st c f n sf ef)).
  { intros c f n sf ef. unfold Startup.ensureSourceLayer.
    pres ltac:(first [ apply preserves_wf_bindSourceLayer
                     | apply preserves_wf_configureLayer
                     | apply preserves_wf_removeLayersWhere ]). }
  assert (Hr : forall it, preserves wfApp (Startup.reconcile env st mainComp it)).
  { intros it. unfold Startup.reconcile.
    pres ltac:(first [ apply preserves_wf_ensureComp
                     | apply preserves_wf_importOrUpdateSequence
                     | apply Hs
                     | apply preserves_wf_writeFootage
                     | apply preserves_wf_removeLayersWhere
                     | apply preserves_wf_addSolid
                     | apply preserves_wf_addLayer
                     | apply preserves_wf_writeLayer; intros; reflexivity ]). }
  assert (Hp : forall l i, preserves wfApp (Startup.processItems env st mainComp i l)).
  { induction l as [|it rest IH]; intros i; simpl.
    - apply preserves_ret.
    - pres ltac:(first [ apply IH | apply Hr | apply preserves_wf_id
                       | apply preserves_modify; intros ? Hx; exact Hx ]). }
  exact (Hp its idx _ _ _ Hwf H).
Qed.

End ItemLoop.

Lemma item_loop_only_adds_items_witness :
  exists added,
    shapes (project Scenario.looped) = (shapes (project Scenario.ensured) ++ added)%list.
Proof.
  apply (item_loop_only_adds_items Scenario.allFiles Scenario.shotSettings 1 0
           [Scenario.beautyShot] Scenario.ensured Scenario.looped (Ok tt)).
  vm_compute. reflexivity.
Defined.

Lemma every_shot_gets_its_composition_witness :
  Forall (fun it => exists c,
            findCompByName (Startup.preName it) (project Scenario.looped) = Some c)
         [Scenario.beautyShot].
Proof.
  apply (every_shot_gets_its_composition Scenario.allFiles Scenario.shotSettings 1
           [Scenario.beautyShot] 0 Scenario.ensured Scenario.looped).
  vm_compute. reflexivity.
Defined.

Lemma item_loop_keeps_identities_apart_witness : wf (project Scenario.looped).
Proof.
  apply (item_loop_keeps_identities_apart Scenario.allFiles Scenario.shotSettings 1 0
           [Scenario.beautyShot] Scenario.ensured Scenario.looped (Ok tt)).
  - vm_compute. repeat constructor.
  - vm_compute. reflexivity.
Defined.

(** ** The render queue of the render script *)

Section RemoveQueued.

Variable env : Env.

(** X20.  The loop that clears the render queue keeps the items that render
    another composition, every one of them and in their order, whatever the
    host refuses. *)
Theorem removeQueued_keeps_the_others (comp i : nat) (rq : list RQItem) :
  queuedForOthers comp (Render.removeQueued env comp i rq) = queuedForOthers comp rq.
Proof.
  revert i. induction rq as [|r rest IH]; intros i; simpl; [reflexivity|].
  destruct (Nat.eqb (rqComp r) comp) eqn:Hc; simpl.
  - destruct (fails env (OpRemoveRQItem i)); simpl; [rewrite Hc; simpl|]; apply IH.
  - rewrite Hc. simpl. f_equal. apply IH.
Qed.

Lemma removeQueued_accepted (comp : nat) (rq : list RQItem) :
  (forall j, fails env (OpRemoveRQItem j) = false) ->
  forall i, Render.removeQueued env comp i rq = queuedForOthers comp rq.
Proof.
  intros Hrm. induction rq as [|r rest IH]; intros i; simpl; [reflexivity|].
  rewrite Hrm. destruct (Nat.eqb (rqComp r) comp); simpl; [|f_equal]; apply IH.
Qed.

Lemma queuedFor_others (comp : nat) (rq : list RQItem) :
  queuedFor comp (queuedForOthers comp rq) = [].
Proof.
  unfold queuedFor, queuedForOthers.
  induction rq as [|r rest IH]; simpl; [reflexivity|].
  destruct (Nat.eqb (rqComp r) comp) eqn:Hc; simpl; [|rewrite Hc]; exact IH.
Qed.

(** X21.  On a host that accepts the removals the loop leaves exactly the items
    that render another composition: none for the composition is left. *)
Theorem removeQueued_drops_the_composition (comp i : nat) (rq : list RQItem) :
  (forall j, fails env (OpRemoveRQItem j) = false) ->
  Render.removeQueued env comp i rq = queuedForOthers comp rq
  /\ queuedFor comp (Render.removeQueued env comp i rq) = [].
Proof.
  intros Hrm. rewrite (removeQueued_accepted comp rq Hrm i).
  split; [reflexivity | apply queuedFor_others].
Qed.

End RemoveQueued.

Lemma removeQueued_drops_the_composition_witness :
  Render.removeQueued Scenario.lossless 1 0 Scenario.threeQueued
  = queuedForOthers 1 Scenario.threeQueued
  /\ queuedFor 1 (Render.removeQueued Scenario.lossless 1 0 Scenario.threeQueued) = [].
Proof.
  apply (removeQueued_drops_the_composition Scenario.lossless 1 0 Scenario.threeQueued).
  intros j. reflexivity.
Defined.

(** ** How the render script ends *)

Section Ends.

Context {A C : Type}.
Variable I : App -> Prop.
Variable Q : Res C -> App -> Prop.
Hypothesis onThrow : forall e a, I a -> Q (Throw e) a.

Lemma ends_bind (m : M A) (k : A -> M C) :
  preserves I m -> (forall x, ends I Q (k x)) -> ends I Q (bind m k).
Proof using onThrow.
  intros Hm Hk a r a' Ha E. apply bind_res in E as [(e & E & ->) | (x & a1 & E & E')].
  - apply onThrow. exact (Hm _ _ _ Ha E).
  - exact (Hk x _ _ _ (Hm _ _ _ Ha E) E').
Qed.

Lemma ends_throw (e : string) : ends I Q (throw e).
Proof using onThrow. intros a r a' Ha [= <- <-]. now apply onThrow. Qed.

End Ends.

Section RenderScript.

Variable env : Env.
Variable st : Render.Settings.

Lemma preserves_renders_configureOutputModule (n om : nat) (outfile : string) :
  preserves (fun a => renders a = n) (Render.configureOutputModule env st om outfile).
Proof.
  unfold Render.configureOutputModule, Render.configureWithTemplate,
    Render.configurePNGDefault, Render.applyTemplateByNames, Render.setStartNumbering,
    Render.setSetting, omWrite.
  pres ltac:(first [ apply preserves_modify; intros ? Hx; exact Hx
                   | outside (fun (p : Project) (a : App) => eq_refl (renders a)) ]).
Qed.

Lemma body_ends (n : nat) :
  ends (fun a => renders a = n) (renderedOnce st n) (Render.body env st).
Proof.
  assert (Ht : forall e a, renders a = n -> renderedOnce st n (@Throw unit e) a)
    by (intros e a Ha; exact Ha).
  unfold Render.body.
  apply ends_bind; [exact Ht | pres fail | intros current].
  apply ends_bind; [exact Ht | | intros _].
  { pres ltac:(outside (fun (p : Project) (a : App) => eq_refl (renders a))). }
  apply ends_bind; [exact Ht | pres fail | intros found].
  destruct found as [mainComp|].
  2:{ unfold Render.alertAndStop.
      apply ends_bind; [exact Ht | apply preserves_modify; intros ? Hx; exact Hx | intros _].
      apply ends_bind; [exact Ht | apply preserves_modify; intros ? Hx; exact Hx | intros _].
      apply ends_throw, Ht. }
  repeat (apply ends_bind;
          [ exact Ht
          | solve [ unfold Render.setStartFrame, Render.alertAndStop, writeComp,
                      addRQItem, omWrite;
                    pres ltac:(first
                      [ apply preserves_renders_configureOutputModule
                      | apply preserves_modify; intros ? Hx; exact Hx
                      | outside (fun (p : Project) (a : App) => eq_refl (renders a)) ]) ]
          | intros ? ]).
  intros a r a' Ha E. unfold bind, render in E.
  destruct (fails env OpRender).
  - injection E as <- <-. exact Ha.
  - unfold modify in E. injection E as <- <-. simpl. split; [now rewrite Ha|].
    apply lookup_insert_eq.
Qed.

Lemma run_cases (a : App) :
  Render.run env st a
  = match disk a !! Render.projectPath st with
    | Some _ =>
        tryCatch (Render.body env st)
          (fun e =>
             modify (writeLog Render.renderErrorLog
                       (("ERROR: Error: " ++ e)%string :: lineEntry env e)) ;;
             when (negb (String.eqb e "User cancelled"))
                  (modify (addAlert ("AEBridge Render Error: Error: " ++ e)))) a
    | None =>
        Render.alertAndStop
          ("ERROR: AE project file not found: " ++ Render.projectPath st) a
    end.
Proof.
  unfold Render.run, projectFileExists, bind.
  destruct (disk a !! Render.projectPath st) as [p|] eqn:D.
  - now rewrite bool_decide_eq_true_2 by eauto.
  - now rewrite bool_decide_eq_false_2 by (intros [? ?]; discriminate).
Qed.

(** X22.  The render script starts at most one render, and says which way it
    went: either it returns with one more render finished and the success
    log naming the output; or no render has finished and the error log holds
    the message -- alone when the script stopped before its [try] block, and
    in the [catch] handler followed by the line number when the error has
    one. *)
Theorem render_script_renders_once (a a' : App) (r : Res unit) :
  Render.run env st a = (r, a') ->
  (r = Ok tt
   /\ renders a' = S (renders a)
   /\ logs a' !! Render.renderSuccessLog
      = Some ["SUCCESS: Render completed"; "Output: " ++ Render.outputPath st])
  \/ (renders a' = renders a
      /\ exists msg,
           (r = Throw msg
            /\ logs a' !! Render.renderErrorLog = Some ["ERROR: " ++ msg])
           \/ (r = Ok tt
               /\ logs a' !! Render.renderErrorLog
                  = Some (("ERROR: Error: " ++ msg)%string :: lineEntry env msg))).
Proof.
  rewrite run_cases. destruct (disk a !! Render.projectPath st).
  2:{ unfold Render.alertAndStop, bind, modify, throw. intros [= <- <-]. right.
      split; [reflexivity|]. eexists. left. split; [reflexivity|].
      apply lookup_insert_eq. }
  unfold tryCatch. destruct (Render.body env st a) as [[[]|e] a1] eqn:E.
  - intros [= <- <-]. left. destruct (body_ends _ _ _ _ eq_refl E) as [H1 H2]. auto.
  - pose proof (body_ends _ _ _ _ eq_refl E) as Hn. simpl in Hn.
    unfold bind, modify, when. destruct (negb _); intros [= <- <-]; right;
      (split; [exact Hn|]); exists e; right; (split; [reflexivity|]);
      apply lookup_insert_eq.
Qed.

(** X23.  An exception leaves the render script only when the project file is not
    on disk; everything thrown after that is caught, logged and shown. *)
Theorem render_script_throws_only_without_project (a : App) :
  match disk a !! Render.projectPath st with
  | None =>
      let msg := "ERROR: AE project file not found: " ++ Render.projectPath st in
      Render.run env st a
      = (Throw msg, addAlert msg (writeLog Render.renderErrorLog ["ERROR: " ++ msg] a))
  | Some _ => exists a', Render.run env st a = (Ok tt, a')
  end.
Proof.
  rewrite run_cases. destruct (disk a !! Render.projectPath st) as [p|]; [|reflexivity].
  assert (Hn : neverThrows
                 (tryCatch (Render.body env st)
                    (fun e =>
                       modify (writeLog Render.renderErrorLog
                                 (("ERROR: Error: " ++ e)%string :: lineEntry env e)) ;;
                       when (negb (String.eqb e "User cancelled"))
                            (modify (addAlert ("AEBridge Render Error: Error: " ++ e))))))
    by safe fail.
  destruct (Hn a) as ([] & a' & E). now exists a'.
Qed.

End RenderScript.

Lemma render_script_renders_once_witness :
  (fst Scenario.notRendered = Ok tt
   /\ renders (snd Scenario.notRendered) = S (renders Scenario.onDisk)
   /\ logs (snd Scenario.notRendered) !! Render.renderSuccessLog
      = Some ["SUCCESS: Render completed";
              "Output: " ++ Render.outputPath Scenario.defaultSettings])
  \/ (renders (snd Scenario.notRendered) = renders Scenario.onDisk
      /\ exists msg,
           (fst Scenario.notRendered = Throw msg
            /\ logs (snd Scenario.notRendered) !! Render.renderErrorLog
               = Some ["ERROR: " ++ msg])
           \/ (fst Scenario.notRendered = Ok tt
               /\ logs (snd Scenario.notRendered) !! Render.renderErrorLog
                  = Some (("ERROR: Error: " ++ msg)%string
                          :: lineEntry Scenario.refusedRender msg))).
Proof.
  apply (render_script_renders_once Scenario.refusedRender Scenario.defaultSettings
           Scenario.onDisk).
  vm_compute. reflexivity.
Defined.

(** The two ways on the saved project: the render, and the refused render
    with the two entries of its error log. *)
Example render_logs :
  fst Scenario.renderedAgain = Ok tt
  /\ renders (snd Scenario.renderedAgain) = 1
  /\ logs (snd Scenario.renderedAgain) !! Render.renderErrorLog = None
  /\ fst Scenario.notRendered = Ok tt
  /\ renders (snd Scenario.notRendered) = 0
  /\ logs (snd Scenario.notRendered) !! Render.renderErrorLog
     = Some ["ERROR: Error: After Effects error"; "Line: 319"].
Proof. repeat apply conj; vm_compute; reflexivity. Qed.

(** ** The output module *)

Section OutputModule.

Variable env : Env.
Variable st : Render.Settings.

Lemma find_first {A} (sel : A -> bool) (l : list A) (x : A) :
  List.find sel l = Some x ->
  sel x = true
  /\ exists before after,
       l = (before ++ x :: after)%list /\ forall y, In y before -> sel y = false.
Proof.
  induction l as [|y l IH]; simpl; [discriminate|].
  destruct (sel y) eqn:Hy.
  - intros [= ->]. split; [exact Hy|]. exists [], l. split; [reflexivity|].
    intros ? [].
  - intros H. destruct (IH H) as (Hx & before & after & -> & Hb).
    split; [exact Hx|]. exists (y :: before), after. split; [reflexivity|].
    intros z [<- | Hz]; [exact Hy | now apply Hb].
Qed.

Lemma existsb_eqb_In (t : string) (names : list string) :
  existsb (String.eqb t) names = true <-> In t names.
Proof.
  rewrite existsb_exists. split.
  - intros (n & Hn & E). apply String.eqb_eq in E. now subst.
  - intros Hn. exists t. split; [exact Hn | apply String.eqb_refl].
Qed.

Lemma applyTemplateByNames_cases (i : nat) (names : list string) (a : App) :
  Render.applyTemplateByNames env i names a = (Ok None, a)
  \/ exists n,
       Render.firstMatch env names = Some n
       /\ fails env (OpApplyTemplate n) = false
       /\ Render.applyTemplateByNames env i names a
          = (Ok (Some n),
             setProject (updRQItem i (fun r => setOm (om r ++ [WTemplate n]) r)
                           (project a)) a).
Proof.
  unfold Render.applyTemplateByNames, tryCatch.
  destruct (Render.firstMatch env names) as [n|]; [|now left].
  unfold bind, omWrite, host. destruct (fails env (OpApplyTemplate n)) eqn:Hf.
  - now left.
  - right. exists n. auto.
Qed.

(** X24.  [applyTemplateByNames] cannot throw.  The name it returns is one of the
    names asked for, and it is the first template of the host's list that is
    among them -- the order of the host decides, not the order of the names;
    the template has then been applied.  When it returns [null], nothing has
    been written: no such template, or the host refused to apply it. *)
Theorem applyTemplateByNames_follows_the_host (i : nat) (names : list string) (a : App) :
  exists r a',
    Render.applyTemplateByNames env i names a = (Ok r, a')
    /\ match r with
       | Some n =>
           In n names
           /\ (exists before after,
                 templates env = (before ++ n :: after)%list
                 /\ forall t, In t before -> ~ In t names)
           /\ omWrites i (project a')
              = match renderQueue (project a) !! i with
                | Some _ => (omWrites i (project a) ++ [WTemplate n])%list
                | None => []
                end
       | None => a' = a
       end.
Proof.
  destruct (applyTemplateByNames_cases i names a) as [E | (n & F & Hf & E)].
  - now exists None, a.
  - eexists (Some n), _. split; [exact E|].
    unfold Render.firstMatch in F. apply find_first in F as (Hn & before & after & Ht & Hb).
    split; [now apply existsb_eqb_In|]. split.
    + exists before, after. split; [exact Ht|].
      intros t Hin Hnames. apply existsb_eqb_In in Hnames.
      now rewrite (Hb t Hin) in Hnames.
    + unfold omWrites, updRQItem. simpl. rewrite list_lookup_alter_eq.
      now destruct (renderQueue (project a) !! i).
Qed.

(** On a host that lists [Lossless] before [PNG Sequence], the default names
    get [Lossless], although they name [PNG Sequence] first. *)
Example host_order_beats_name_order :
  Render.firstMatch Scenario.twoTemplates Render.defaultTemplates = Some "Lossless"
  /\ List.find (fun n => existsb (String.eqb n) (templates Scenario.twoTemplates))
       Render.defaultTemplates = Some "PNG Sequence".
Proof. split; vm_compute; reflexivity. Qed.

Lemma notApplied_firstMatch (names : list string) (n : string) :
  ~ In "" names -> Render.firstMatch env names = Some n ->
  Render.notApplied (Some n) = false.
Proof.
  intros Hne F. unfold Render.firstMatch in F. apply List.find_some in F as [_ F].
  apply existsb_eqb_In in F. simpl. apply String.eqb_neq. now intros ->.
Qed.

(** X25.  Whenever the configuration of the output module fails, nothing has been
    written to the project and one warning has been raised: the named
    template is not installed or could not be applied, or no default
    template could be applied and the host refused the PNG format. *)
Theorem failed_configuration_writes_nothing (i : nat) (outfile : string) (a a' : App) :
  Render.configureOutputModule env st i outfile a = (Ok false, a') ->
  project a' = project a
  /\ renders a' = renders a
  /\ exists warning, alerts a' = (alerts a ++ [warning])%list.
Proof.
  unfold Render.configureOutputModule.
  destruct (String.eqb (Render.templateName st) "") eqn:Et; simpl.
  - unfold Render.configurePNGDefault.
    destruct (applyTemplateByNames_cases i Render.defaultTemplates a)
      as [E | (n & F & Hf & E)]; rewrite (bind_run _ _ _ _ _ E).
    + simpl. unfold tryCatch at 1, bind at 2, Render.setSetting, omWrite, host.
      destruct (fails env (OpSetSetting "Output Module Settings" "Format")).
      * unfold bind, modify, ret. simpl. intros [= <-]. simpl. eauto.
      * unfold bind at 1. simpl. intros H. do 7 bind_inv H. discriminate H.
    + rewrite (notApplied_firstMatch Render.defaultTemplates n) by
        (first [ exact F | simpl; intuition discriminate ]).
      intros H. bind_inv H.
      match goal with E' : ret true _ = _ |- _ => injection E' as <- <- end.
      simpl in H. do 7 bind_inv H. discriminate H.
  - apply String.eqb_neq in Et. unfold Render.configureWithTemplate.
    intros H. bind_inv H. bind_inv E.
    destruct (applyTemplateByNames_cases i [Render.templateName st] a)
      as [E' | (n & F & Hf & E')]; rewrite E' in E0; injection E0 as <- <-.
    + simpl in E. unfold bind, modify, ret in E. injection E as <- <-.
      simpl in H. unfold bind, ret in H. injection H as <-. simpl. eauto.
    + rewrite (notApplied_firstMatch [Render.templateName st] n) in E by
        (first [ exact F | simpl; intuition congruence ]).
      bind_inv E. injection E as <- <-. bind_inv H. discriminate H.
Qed.

End OutputModule.

Lemma failed_configuration_writes_nothing_witness :
  project (snd (Render.configureOutputModule Scenario.noSettings Scenario.defaultSettings
                  0 "/out/beauty_[#####].png" Scenario.queued))
  = project Scenario.queued
  /\ renders (snd (Render.configureOutputModule Scenario.noSettings
                     Scenario.defaultSettings 0 "/out/beauty_[#####].png" Scenario.queued))
     = renders Scenario.queued
  /\ exists warning,
       alerts (snd (Render.configureOutputModule Scenario.noSettings
                      Scenario.defaultSettings 0 "/out/beauty_[#####].png" Scenario.queued))
       = (alerts Scenario.queued ++ [warning])%list.
Proof.
  apply (failed_configuration_writes_nothing Scenario.noSettings Scenario.defaultSettings
           0 "/out/beauty_[#####].png" Scenario.queued).
  vm_compute. reflexivity.
Defined.

(** ** The render queue after a render *)

Section OneQueued.

Variable env : Env.
Variable st : Render.Settings.

Lemma queuedFor_alter (c i : nat) (g : RQItem -> RQItem) (rq : list RQItem) :
  (forall r, rqComp (g r) = rqComp r) ->
  length (queuedFor c (alter g i rq)) = length (queuedFor c rq).
Proof.
  intros Hg. unfold queuedFor. revert i.
  induction rq as [|r rest IH]; intros i; [reflexivity|].
  destruct i as [|i]; simpl.
  - rewrite Hg. now destruct (Nat.eqb (rqComp r) c).
  - destruct (Nat.eqb (rqComp r) c); simpl; [f_equal|]; apply IH.
Qed.

Lemma preserves_oneQueued_updRQItem (s : list _) (c i : nat) (op : Op)
    (g : RQItem -> RQItem) :
  (forall r, rqComp (g r) = rqComp r) ->
  preserves (oneQueued s c) (host env op (updRQItem i g)).
Proof.
  intros Hg. apply preserves_host. intros a [Hs Hq]. split; [exact Hs|].
  cbn [project setProject]. unfold updRQItem. simpl. now rewrite queuedFor_alter.
Qed.

(** X26.  When the [try] block of the render script runs through on a host that
    accepts the removals from the render queue, the composition of the
    configured name is queued exactly once, however often it was queued
    before: renders do not pile up in the queue. *)
Theorem render_queues_the_composition_once (a a' : App) :
  (forall j, fails env (OpRemoveRQItem j) = false) ->
  Render.body env st a = (Ok tt, a') ->
  exists c,
    findCompByName (Render.compName st) (project a') = Some c
    /\ length (queuedFor c (renderQueue (project a'))) = 1.
Proof.
  intros Hrm. unfold Render.body. intros H.
  bind_inv H. bind_inv H. rewrite bind_gets in H.
  destruct (findCompByName (Render.compName st) (project a1)) as [c|] eqn:F.
  2:{ unfold Render.alertAndStop in H. do 2 bind_inv H. discriminate H. }
  exists c.
  assert (Hshape : forall m : M unit,
             m = Render.setStartFrame env st c
             \/ m = attempt (writeComp env (OpSetFrameRate c) c
                               (setFrameRate (Render.frameRate st)))
             \/ m = attempt (writeComp env (OpSetDuration c) c
                               (setDuration (Render.durationFrames st / Render.frameRate st)%Q)) ->
             forall s, preserves (fun b => shapes (project b) = s) m).
  { intros m Hm s.
    assert (Hleaf : forall op g, preserves (fun b => shapes (project b) = s)
                                   (host env op (updComp c g))).
    { intros op g. apply preserves_host. intros b Hb. cbn [project setProject].
      now rewrite shapes_updComp. }
    destruct Hm as [-> | [-> | ->]]; unfold Render.setStartFrame, writeComp;
      pres ltac:(apply Hleaf). }
  do 5 bind_inv H.
  assert (S3 : shapes (project a4) = shapes (project a1)).
  { pose proof (Hshape _ (or_introl eq_refl) _ _ _ _ eq_refl E1) as S1.
    pose proof (Hshape _ (or_intror (or_introl eq_refl)) _ _ _ _ S1 E2) as S2.
    exact (Hshape _ (or_intror (or_intror eq_refl)) _ _ _ _ S2 E3). }
  unfold modify in E4. inversion E4 as [[Ex Ea]]. subst a5. clear E4 Ex.
  apply bind_ok in E5 as (n & b & En & E5). unfold gets in En. injection En as <- <-.
  apply bind_ok in E5 as (u & b & Eh & E5). apply host_ok in Eh as [_ ->].
  injection E5 as <- <-.
  match type of H with ?m ?s = _ =>
    assert (P : preserves (oneQueued (shapes (project a1)) c) m) end.
  { unfold Render.alertAndStop, Render.configureOutputModule, Render.configureWithTemplate,
      Render.configurePNGDefault, Render.applyTemplateByNames, Render.setStartNumbering,
      Render.setSetting, omWrite.
    pres ltac:(first [ apply preserves_oneQueued_updRQItem; intros; reflexivity
                     | apply preserves_render; intros ? Hx; exact Hx
                     | apply preserves_modify; intros ? Hx; exact Hx
                     | apply preserves_host; intros ? Hx; exact Hx ]). }
  match type of H with _ ?s = _ => assert (K0 : oneQueued (shapes (project a1)) c s) end.
  { split; [exact S3|]. simpl.
    rewrite (removeQueued_accepted env c _ Hrm 0).
    unfold queuedFor at 1. rewrite List.filter_app. fold (queuedFor c).
    rewrite length_app.
    change (List.filter _ (queuedForOthers c ?l)) with (queuedFor c (queuedForOthers c l)).
    rewrite queuedFor_others. simpl. now rewrite Nat.eqb_refl. }
  destruct (P _ _ _ K0 H) as [Hs Hq]. split; [|exact Hq].
  now rewrite findCompByName_shapes, Hs, <- findCompByName_shapes.
Qed.

End OneQueued.

Lemma render_queues_the_composition_once_witness :
  exists c,
    findCompByName (Render.compName Scenario.defaultSettings)
      (project Scenario.requeued) = Some c
    /\ length (queuedFor c (renderQueue (project Scenario.requeued))) = 1.
Proof.
  apply (render_queues_the_composition_once Scenario.lossless Scenario.defaultSettings
           Scenario.queued Scenario.requeued).
  - intros j. reflexivity.
  - vm_compute. reflexivity.
Defined.

(** ** The settings the scripts divide by *)

Section Typed.

Lemma asNum_or (v : value) (d : Z) (q : Q) :
  d <> 0%Z -> asNum (or v (num d)) = Some q -> ~ (q == 0)%Q.
Proof.
  unfold or. intros Hd. destruct (truthy v) eqn:T.
  - destruct v; try discriminate. intros [= ->]. simpl in T.
    apply negb_true_iff in T. intros Hq. apply Qeq_bool_iff in Hq. congruence.
  - intros [= <-]. unfold Qeq. simpl. lia.
Qed.

Lemma asStr_or (v : value) (d s : string) :
  d <> "" -> asStr (or v (VStr d)) = Some s -> s <> "".
Proof.
  unfold or. intros Hd. destruct (truthy v) eqn:T.
  - destruct v; try discriminate. intros [= ->]. simpl in T.
    apply negb_true_iff in T. now apply String.eqb_neq.
  - now intros [= <-].
Qed.

(** X27.  The settings the start-up script works with, whatever the configuration
    holds: the frame rate it divides by is not zero, the composition has a
    size and a name -- a [0] or an empty name in the configuration has been
    replaced by the default. *)
Theorem startup_settings_are_usable (config : gmap string value) (st : Startup.Settings) :
  Startup.typed (Config.readStartup config) = Some st ->
  ~ (Startup.FRAME_RATE st == 0)%Q
  /\ ~ (Startup.COMP_WIDTH st == 0)%Q
  /\ ~ (Startup.COMP_HEIGHT st == 0)%Q
  /\ Startup.COMP_NAME st <> "".
Proof.
  unfold Startup.typed, Config.readStartup. simpl. intros H.
  repeat match type of H with
         | (match ?x with Some _ => _ | None => _ end) = Some _ =>
             let E := fresh "E" in destruct x eqn:E; [|discriminate H]
         | mbind _ ?x = Some _ =>
             let E := fresh "E" in destruct x eqn:E; [|discriminate H]; simpl in H
         end.
  injection H as <-. simpl.
  repeat apply conj;
    first [ eapply asNum_or; [|eassumption]; discriminate
          | eapply asStr_or; [|eassumption]; discriminate ].
Qed.

(** X28.  The same for the render script: the frame rate it divides the duration
    by is not zero, and the composition it looks for has a name. *)
Theorem render_settings_are_usable (cfg : gmap string value) (st : Render.Settings) :
  Render.typed (Config.readRender cfg) = Some st ->
  ~ (Render.frameRate st == 0)%Q /\ Render.compName st <> "".
Proof.
  unfold Render.typed, Config.readRender. simpl. intros H.
  repeat match type of H with
         | (match ?x with Some _ => _ | None => _ end) = Some _ =>
             let E := fresh "E" in destruct x eqn:E; [|discriminate H]
         | mbind _ ?x = Some _ =>
             let E := fresh "E" in destruct x eqn:E; [|discriminate H]; simpl in H
         end.
  injection H as <-. simpl.
  repeat apply conj;
    first [ eapply asNum_or; [|eassumption]; discriminate
          | eapply asStr_or; [|eassumption]; discriminate ].
Qed.

End Typed.

Lemma startup_settings_are_usable_witness :
  ~ (Startup.FRAME_RATE Scenario.zeroedSettings == 0)%Q
  /\ ~ (Startup.COMP_WIDTH Scenario.zeroedSettings == 0)%Q
  /\ ~ (Startup.COMP_HEIGHT Scenario.zeroedSettings == 0)%Q
  /\ Startup.COMP_NAME Scenario.zeroedSettings <> "".
Proof.
  apply (startup_settings_are_usable Scenario.zeroed Scenario.zeroedSettings).
  vm_compute. reflexivity.
Defined.

Lemma render_settings_are_usable_witness :
  ~ (Render.frameRate Scenario.zeroedRender == 0)%Q
  /\ Render.compName Scenario.zeroedRender <> "".
Proof.
  apply (render_settings_are_usable Scenario.zeroed Scenario.zeroedRender).
  vm_compute. reflexivity.
Defined.

(** ** A project without the composition to render *)

Section MissingComposition.

Variable env : Env.
Variable st : Render.Settings.

(** X29.  When the project on disk has no composition of the configured
    name, the render script opens the project, queues and renders nothing,
    and reports the failure twice: [alertAndStop] shows its message and
    throws inside the [try] block, and the [catch] handler shows the message
    again, wrapped, and writes it to the error log, with the line number
    when the error has one. *)
Theorem missing_composition_is_shown_twice (a : App) (p : Project) :
  disk a !! Render.projectPath st = Some p ->
  pfile (project a) = None ->
  fails env OpOpen = false ->
  findCompByName (Render.compName st) p = None ->
  exists a',
    Render.run env st a = (Ok tt, a')
    /\ project a' = setPfile (Some (Render.projectPath st)) p
    /\ renders a' = renders a
    /\ alerts a'
       = List.app (alerts a)
           ["ERROR: Composition " ++ Render.compName st ++ " not found in project.";
            "AEBridge Render Error: Error: ERROR: Composition "
              ++ Render.compName st ++ " not found in project."]
    /\ logs a' !! Render.renderErrorLog
       = Some (("ERROR: Error: ERROR: Composition "
                  ++ Render.compName st ++ " not found in project.")%string
               :: lineEntry env
                    ("ERROR: Composition " ++ Render.compName st
                     ++ " not found in project.")).
Proof.
  intros Hd Hf Ho Hc. rewrite run_cases, Hd.
  unfold tryCatch, Render.body. rewrite bind_gets, Hf. simpl.
  unfold bind at 1, openProject. rewrite Ho, Hd. rewrite bind_gets.
  cbn [project setProject].
  change (findCompByName (Render.compName st)
            (setPfile (Some (Render.projectPath st)) p))
    with (findCompByName (Render.compName st) p).
  rewrite Hc. unfold Render.alertAndStop, bind, modify, throw, when.
  set (msg := "ERROR: Composition " ++ Render.compName st ++ " not found in project.").
  assert (Hm : String.eqb msg "User cancelled" = false).
  { apply String.eqb_neq. subst msg. rewrite append_String. discriminate. }
  rewrite Hm. simpl. eexists. split; [reflexivity|]. simpl.
  repeat apply conj; try reflexivity.
  - now rewrite <- app_assoc.
  - apply lookup_insert_eq.
Qed.

End MissingComposition.

Lemma missing_composition_is_shown_twice_witness :
  exists a',
    Render.run Scenario.lossless Scenario.otherComp Scenario.launched = (Ok tt, a')
    /\ project a' = setPfile (Some "/p/shot.aep") (project Scenario.foundOnce)
    /\ renders a' = renders Scenario.launched
    /\ alerts a'
       = List.app (alerts Scenario.launched)
           ["ERROR: Composition " ++ "Other" ++ " not found in project.";
            "AEBridge Render Error: Error: ERROR: Composition "
              ++ "Other" ++ " not found in project."]
    /\ logs a' !! Render.renderErrorLog
       = Some (("ERROR: Error: ERROR: Composition "
                  ++ "Other" ++ " not found in project.")%string
               :: lineEntry Scenario.lossless
                    ("ERROR: Composition " ++ "Other" ++ " not found in project.")).
Proof.
  apply (missing_composition_is_shown_twice Scenario.lossless Scenario.otherComp
           Scenario.launched (project Scenario.foundOnce)).
  - vm_compute. reflexivity.
  - reflexivity.
  - reflexivity.
  - vm_compute. reflexivity.
Defined.

(** ** Nesting the child composition *)

Section ItemsApart.

Lemma find_by_id (l : list Item) (it : Item) :
  NoDup (map iid l) -> In it l ->
  List.find (fun x => Nat.eqb (iid x) (iid it)) l = Some it.
Proof.
  induction l as [|y l IH]; simpl; intros Hn Hin; [contradiction|].
  apply NoDup_cons in Hn as [Hy Hn].
  destruct (Nat.eqb_spec (iid y) (iid it)) as [E|E].
  - destruct Hin as [->|Hin]; [reflexivity|]. exfalso. apply Hy. rewrite E.
    apply list_elem_of_In, in_map, Hin.
  - destruct Hin as [->|Hin]; [contradiction|]. now apply IH.
Qed.

Lemma itemsApart_ids (p q : Project) :
  map iid (pitems q) = map iid (pitems p) -> nextId p <= nextId q ->
  itemsApart p -> itemsApart q.
Proof.
  intros E Hn [Hd Hb]. split; [now rewrite E|].
  apply List.Forall_forall. intros it Hin.
  assert (Hi : In (iid it) (map iid (pitems p))) by (rewrite <- E; now apply in_map).
  apply in_map_iff in Hi as (it' & Ei & Hin').
  rewrite List.Forall_forall in Hb. specialize (Hb it' Hin'). lia.
Qed.

Lemma ids_updItem (i : nat) (f : Body -> Body) (p : Project) :
  map iid (pitems (updItem i f p)) = map iid (pitems p).
Proof.
  unfold updItem. simpl. rewrite map_map. apply map_ext.
  intros it. now destruct (Nat.eqb (iid it) i).
Qed.

Lemma itemsApart_updItem (i : nat) (f : Body -> Body) (p : Project) :
  itemsApart p -> itemsApart (updItem i f p).
Proof. apply itemsApart_ids; [apply ids_updItem | reflexivity]. Qed.

Lemma itemsApart_addItem (n : string) (b : Body) (p : Project) :
  itemsApart p -> itemsApart (addItem n b p).
Proof.
  intros [Hd Hb]. unfold itemsApart, addItem. simpl. rewrite map_app. simpl. split.
  - apply NoDup_app. split; [exact Hd|]. split; [|apply NoDup_singleton].
    intros x Hx Hx'. apply list_elem_of_In in Hx. apply list_elem_of_In in Hx'.
    destruct Hx' as [<-|[]]. apply in_map_iff in Hx as (it & Ei & Hin).
    rewrite List.Forall_forall in Hb. specialize (Hb it Hin). lia.
  - apply List.Forall_app. split.
    + apply (List.Forall_impl _ (P := fun it => iid it < nextId p)); [|exact Hb].
      intros it Hit. lia.
    + constructor; [simpl; lia | constructor].
Qed.

Lemma findCompByName_named (n : string) (a : App) (c : nat) :
  itemsApart (project a) -> findCompByName n (project a) = Some c -> named c n a.
Proof.
  intros [Hd _] F. unfold findCompByName in F.
  apply findItem_found in F as (it & Hin & <- & Hs).
  apply andb_true_iff in Hs as [Hk Hn]. apply String.eqb_eq in Hn.
  pose proof (find_by_id _ _ Hd Hin) as G.
  unfold named, isCompItem, itemName, getComp, getItem. rewrite G.
  unfold isComp in Hk. split; [|exact Hn]. now destruct (body it).
Qed.

End ItemsApart.

Section Named.

Lemma getItem_updItem (i c : nat) (f : Body -> Body) (p : Project) :
  getItem (updItem i f p) c
  = option_map (fun it => if Nat.eqb (iid it) i
                          then {| iid := iid it; iname := iname it; body := f (body it) |}
                          else it) (getItem p c).
Proof.
  unfold getItem, updItem. simpl. apply (find_map_stable iid).
  intros it. now destruct (Nat.eqb (iid it) i).
Qed.

Lemma keepsNamed_updItem (i : nat) (f : Body -> Body) :
  (forall k, exists k', f (CompItem k) = CompItem k') -> keepsNamed (updItem i f).
Proof.
  intros Hf c p. unfold isCompItem, itemName, getComp. rewrite getItem_updItem.
  destruct (getItem p c) as [it|]; simpl; [|discriminate].
  destruct (body it) as [k|x] eqn:Hb; [|discriminate]. intros _.
  destruct (Nat.eqb (iid it) i); simpl; [|now rewrite Hb].
  destruct (Hf k) as (k' & ->). auto.
Qed.

Lemma keepsNamed_updComp (i : nat) (g : Comp -> Comp) : keepsNamed (updComp i g).
Proof. apply keepsNamed_updItem. intros k. eauto. Qed.

Lemma keepsNamed_updFootage (i : nat) (g : Footage -> Footage) :
  keepsNamed (updFootage i g).
Proof. apply keepsNamed_updItem. intros k. eauto. Qed.

Lemma keepsNamed_updLayers (i : nat) (G : list Layer -> list Layer) :
  keepsNamed (updLayers i G).
Proof. apply keepsNamed_updComp. Qed.

Lemma keepsNamed_updLayer (i l : nat) (g : Layer -> Layer) : keepsNamed (updLayer i l g).
Proof. apply keepsNamed_updComp. Qed.

Lemma keepsNamed_addItem (n : string) (b : Body) : keepsNamed (addItem n b).
Proof.
  intros c p. unfold isCompItem, itemName, getComp, getItem, addItem. simpl.
  destruct (List.find _ (pitems p)) as [it|] eqn:F; [|discriminate].
  now rewrite (find_app_found _ _ _ _ F).
Qed.

Lemma keepsNamed_comp (g h : Project -> Project) :
  keepsNamed g -> keepsNamed h -> keepsNamed (fun p => h (g p)).
Proof.
  intros Hg Hh c p Hc. destruct (Hg c p Hc) as [H1 H2].
  destruct (Hh c (g p) H1) as [H3 H4]. split; [exact H3 | now rewrite H4].
Qed.

Lemma keepsNamed_bumpId : keepsNamed bumpId.
Proof. intros c p Hc. now split. Qed.

Lemma keepsNamed_pushLayer (i src : nat) : keepsNamed (pushLayer i src).
Proof.
  intros c p Hc. unfold pushLayer.
  exact (keepsNamed_comp _ _ (keepsNamed_updLayers i _) keepsNamed_bumpId c p Hc).
Qed.

Lemma keepsNamed_pushSolid (i : nat) (n : string) (d : Q) : keepsNamed (pushSolid i n d).
Proof.
  intros c p Hc. unfold pushSolid.
  destruct (keepsNamed_addItem n (FootageItem solid) c p Hc) as [H1 H2].
  destruct (keepsNamed_updLayers i
              (cons {| lid := nextId (addItem n (FootageItem solid) p); lname := n;
                       source := nextId p; startTime := 0; inPoint := 0; outPoint := d;
                       timeRemapEnabled := false; remapKeys := [] |})
              c _ H1) as [H3 H4].
  cbv zeta. split; [exact H3 | rewrite <- H2; exact H4].
Qed.

Lemma keepsNamed_id : keepsNamed id.
Proof. intros c p Hc. now split. Qed.

Variable env : Env.
Variables (c : nat) (n : string).

Lemma preserves_named_host (op : Op) (g : Project -> Project) :
  keepsNamed g -> preserves (named c n) (host env op g).
Proof.
  intros Hg. apply preserves_host. intros a [Hc Hn].
  destruct (Hg c _ Hc) as [H1 H2]. split; [exact H1 | now rewrite <- Hn].
Qed.

Lemma preserves_named_removeLayersWhere (i : nat) (sel : Project -> Layer -> bool) :
  preserves (named c n) (removeLayersWhere env i sel).
Proof.
  apply preserves_modify. intros a [Hc Hn].
  destruct (keepsNamed_updLayers i
              (List.filter (fun x => negb (sel (project a) x)
                                     || fails env (OpRemoveLayer (lid x))))
              c _ Hc) as [H1 H2].
  split; [exact H1 | now rewrite <- Hn].
Qed.

End Named.

(** The leaves of the scripts of a pass. *)
Ltac naming :=
  first [ apply preserves_named_removeLayersWhere
        | apply preserves_named_host;
          first [ apply keepsNamed_updComp | apply keepsNamed_updFootage
                | apply keepsNamed_updLayers | apply keepsNamed_updLayer
                | apply keepsNamed_addItem | apply keepsNamed_pushLayer
                | apply keepsNamed_pushSolid | apply keepsNamed_id ] ].

Section Nesting.

Variable env : Env.
Variable st : Startup.Settings.

Lemma preserves_itemsApart_ensureComp (n : string) :
  preserves (fun a => itemsApart (project a)) (Startup.ensureComp env st n).
Proof.
  unfold Startup.ensureComp, Startup.addComp, Startup.syncCompSettings, writeComp.
  pres ltac:(apply preserves_host; intros ? Hx;
             first [ exact (itemsApart_updItem _ _ _ Hx)
                   | exact (itemsApart_addItem _ _ _ Hx) ]).
Qed.

Lemma preserves_named_clearKeys (c : nat) (n : string) (i t fuel : nat) :
  preserves (named c n) (Startup.clearKeys env i t fuel).
Proof.
  induction fuel as [|fuel IH]; simpl.
  - apply preserves_ret.
  - unfold writeLayer. pres ltac:(first [ exact IH | naming ]).
Qed.

Lemma preserves_named_importOrUpdateSequence (c : nat) (n : string)
    (f : option string) (m : string) :
  preserves (named c n) (Startup.importOrUpdateSequence env f m).
Proof.
  unfold Startup.importOrUpdateSequence, Startup.importFile, Startup.reload,
    Startup.replaceWithSequence, Startup.replace, writeFootage.
  pres naming.
Qed.

Lemma preserves_named_ensureSourceLayer (c : nat) (n : string) (i : nat)
    (f : option nat) (m : string) (sf ef : Q) :
  preserves (named c n) (Startup.ensureSourceLayer env st i f m sf ef).
Proof.
  unfold Startup.ensureSourceLayer, Startup.bindSourceLayer, Startup.configureLayer,
    Startup.remapIfNeeded, addLayer, removeLayer, writeLayer, writeFootage.
  pres ltac:(first [ apply preserves_named_clearKeys | naming ]).
Qed.

(** X30.  Whenever a pass of the item loop ends for a shot whose footage was
    resolved, in a project whose items have identities of their own, the main
    composition has a layer that nests a composition named
    [[AEBridge]_<shot>]: the layer the pass found, or the one it added for
    the child composition. *)
Theorem pass_nests_the_child
    (mainComp : nat) (it : Startup.ShotItem) (a a' : App)
    (preComp : nat) (srcLayer : option nat) :
  itemsApart (project a) ->
  Startup.reconcile env st mainComp it a = (Ok (preComp, Startup.Bound srcLayer), a') ->
  exists k,
    getComp (project a') mainComp = Some k
    /\ existsb (Startup.nests (Startup.preName it) (project a')) (layers k) = true.
Proof.
  unfold Startup.reconcile. intros Hi H.
  bind_inv H. rename x into pre. rename E into Ec.
  assert (N : named pre (Startup.preName it) a0).
  { apply findCompByName_named; [|exact (ensureComp_finds _ _ _ _ _ _ Ec)].
    exact (preserves_itemsApart_ensureComp _ _ _ _ Hi Ec). }
  bind_inv H. rename x into footage. do 3 bind_inv H.
  destruct footage as [f|].
  2:{ do 3 bind_inv H. discriminate H. }
  do 4 bind_inv H. injection H as -> -> ->.
  assert (N5 : named preComp (Startup.preName it) a5).
  { pose proof (preserves_named_importOrUpdateSequence _ _ _ _ _ _ _ N E) as N1.
    assert (N2 : named preComp (Startup.preName it) a2).
    { refine (preserves_attempt _ _ _ _ _ _ N1 E0). unfold writeFootage. pres naming. }
    pose proof (preserves_theComp _ _ _ _ _ N2 E1) as N3.
    pose proof (preserves_named_removeLayersWhere _ _ _ _ _ _ _ _ N3 E2) as N4.
    exact (preserves_named_ensureSourceLayer _ _ _ _ _ _ _ _ _ _ N4 E3). }
  apply theComp_ok in E4 as [-> Hk]. unfold gets in E5. injection E5 as <- <-.
  destruct (existsb (Startup.nests (Startup.preName it) (project a5)) (layers x3)) eqn:Ex;
    simpl in E6.
  - unfold ret in E6. inversion E6; subst. now exists x3.
  - apply bind_ok in E6 as (added & b1 & Ea & E6).
    apply bind_ok in E6 as (u1 & b2 & En & E6).
    pose proof (addLayer_shows _ _ _ _ _ _ Ea) as S1.
    assert (P : forall m : M unit,
               m = attempt (writeLayer env (OpSetLayerName added) mainComp added
                              (setLname (Startup.preName it)))
               \/ m = attempt (writeLayer env (OpSetStartTime added) mainComp added
                                 (setStartTime 0) ;;
                               writeLayer env (OpSetOutPoint added) mainComp added
                                 (setOutPoint (Startup.DURATION st))) ->
               preserves (shows mainComp added preComp) m
               /\ preserves (named preComp (Startup.preName it)) m).
    { intros m [-> | ->]; split; unfold writeLayer;
        pres ltac:(first [ apply preserves_host_source, keepsSource_updLayer;
                           intros; reflexivity
                         | naming ]). }
    assert (N6 : named preComp (Startup.preName it) b1).
    { assert (Pa : preserves (named preComp (Startup.preName it))
                     (addLayer env mainComp preComp)) by (unfold addLayer; pres naming).
      exact (Pa _ _ _ N5 Ea). }
    destruct (P _ (or_introl eq_refl)) as [Ps1 Pn1].
    destruct (P _ (or_intror eq_refl)) as [Ps2 Pn2].
    pose proof (Ps2 _ _ _ (Ps1 _ _ _ S1 En) E6) as (lay & Hl & Hs).
    pose proof (Pn2 _ _ _ (Pn1 _ _ _ N6 En) E6) as [Nc Nn].
    unfold getLayer in Hl.
    destruct (getComp (project a') mainComp) as [k'|]; [|discriminate Hl].
    exists k'. split; [reflexivity|]. apply existsb_exists. exists lay.
    apply List.find_some in Hl as [Hin _]. split; [exact Hin|].
    unfold Startup.nests. rewrite Hs, Nc, Nn. apply String.eqb_refl.
Qed.

End Nesting.

Lemma pass_nests_the_child_witness :
  exists k,
    getComp (project Scenario.nestedOnce) 1 = Some k
    /\ existsb (Startup.nests (Startup.preName Scenario.beautyShot)
                  (project Scenario.nestedOnce)) (layers k) = true.
Proof.
  apply (pass_nests_the_child Scenario.allFiles Scenario.shotSettings 1
           Scenario.beautyShot Scenario.ensured Scenario.nestedOnce 2 (Some 4)).
  - split; vm_compute; repeat constructor. intros H. inversion H.
  - vm_compute. reflexivity.
Defined.

(** ** Time remapping after a pass *)

Section View.

Context {V : Type} (view : Layer -> V).
Variable env : Env.
Variable st : Startup.Settings.
Variables c t : nat.

Lemma preserves_host_view (v : V) (op : Op) (g : Project -> Project) :
  keepsView view c t g -> preserves (hasView view c t v) (host env op g).
Proof.
  intros Hg. apply preserves_host. intros a (lay & Hl & Hv).
  destruct (Hg _ _ Hl) as (lay' & Hl' & Hv').
  exists lay'. split; [exact Hl' | congruence].
Qed.

Lemma keepsView_updLayer (c' l : nat) (g : Layer -> Layer) :
  (forall x, lid (g x) = lid x) -> (forall x, view (g x) = view x) ->
  keepsView view c t (updLayer c' l g).
Proof.
  intros Hid Hv p lay Hl. rewrite (getLayer_updLayer _ _ _ _ _ _ Hid), Hl. simpl.
  eexists. split; [reflexivity|].
  destruct (Nat.eqb c' c && Nat.eqb l t); [apply Hv | reflexivity].
Qed.

Lemma keepsView_updLayer_other (c' l : nat) (g : Layer -> Layer) :
  c' <> c -> keepsView view c t (updLayer c' l g).
Proof.
  intros Hne p lay Hl. unfold updLayer.
  rewrite getLayer_updLayers_other by exact Hne. eauto.
Qed.

Lemma keepsView_pushLayer_other (c' src : nat) :
  c' <> c -> keepsView view c t (pushLayer c' src).
Proof.
  intros Hne p lay Hl. unfold pushLayer.
  rewrite getLayer_bumpId, getLayer_updLayers_other by exact Hne. eauto.
Qed.

Lemma keepsView_updFootage (i : nat) (g : Footage -> Footage) :
  keepsView view c t (updFootage i g).
Proof. intros p lay Hl. rewrite getLayer_updFootage. eauto. Qed.

Lemma keepsView_id : keepsView view c t id.
Proof. intros p lay Hl. eauto. Qed.

(** Removing the other layers of the reserved name leaves layer [t] alone. *)
Lemma preserves_view_dedupe (v : V) (layerName : string) :
  preserves (hasView view c t v)
    (removeLayersWhere env c
       (fun p other => negb (Nat.eqb (lid other) t)
                       && Startup.isSourceLayer layerName p other)).
Proof.
  unfold removeLayersWhere. apply preserves_modify.
  intros a (lay & Hl & Hv). exists lay. split; [|exact Hv].
  cbn [project setProject]. rewrite getLayer_updLayers.
  unfold getLayer in Hl. destruct (getComp (project a) c) as [k|]; [|discriminate Hl].
  rewrite find_filter_kept; [exact Hl|].
  intros x Hx. apply Nat.eqb_eq in Hx. now rewrite Hx, Nat.eqb_refl.
Qed.

(** Nesting the child composition leaves its layers alone. *)
Lemma preserves_view_nest (v : V) (mainComp : nat) (n : string) :
  mainComp <> c ->
  preserves (hasView view c t v)
    (added <- addLayer env mainComp c ;;
     attempt (writeLayer env (OpSetLayerName added) mainComp added (setLname n)) ;;
     attempt (writeLayer env (OpSetStartTime added) mainComp added (setStartTime 0) ;;
              writeLayer env (OpSetOutPoint added) mainComp added
                (setOutPoint (Startup.DURATION st)))).
Proof.
  intros Hne. unfold addLayer, writeLayer.
  pres ltac:(first [ apply preserves_host_view, keepsView_pushLayer_other, Hne
                   | apply preserves_host_view, keepsView_updLayer_other, Hne ]).
Qed.

End View.

Section FootageKept.

Variable env : Env.
Variable st : Startup.Settings.
Variable f : nat.
Variable w : option Footage.

Lemma preserves_host_footage (op : Op) (g : Project -> Project) :
  keepsFootage g ->
  preserves (fun x => getFootage (project x) f = w) (host env op g).
Proof.
  intros Hg. apply preserves_host. intros a Ha. cbn [project setProject].
  now rewrite Hg.
Qed.

Lemma keepsFootage_updLayers (c : nat) (G : list Layer -> list Layer) :
  keepsFootage (updLayers c G).
Proof. intros p i. unfold updLayers. apply getFootage_updComp. Qed.

Lemma keepsFootage_updLayer (c l : nat) (g : Layer -> Layer) :
  keepsFootage (updLayer c l g).
Proof. apply keepsFootage_updLayers. Qed.

Lemma keepsFootage_pushLayer (c src : nat) : keepsFootage (pushLayer c src).
Proof.
  intros p i. unfold pushLayer.
  exact (keepsFootage_updLayers c (cons (newLayer p src)) p i).
Qed.

Lemma preserves_footage_remapIfNeeded (c t f' : nat) (sf ef : Q) :
  preserves (fun x => getFootage (project x) f = w)
    (Startup.remapIfNeeded env st c t f' sf ef).
Proof.
  assert (Hk : forall n, preserves (fun x => getFootage (project x) f = w)
                           (Startup.clearKeys env c t n)).
  { induction n as [|n IH]; simpl.
    - apply preserves_ret.
    - unfold writeLayer.
      pres ltac:(first [ exact IH
                       | apply preserves_host_footage, keepsFootage_updLayer ]). }
  unfold Startup.remapIfNeeded, writeLayer.
  pres ltac:(first [ apply Hk
                   | apply preserves_host_footage, keepsFootage_updLayer ]).
Qed.

Lemma preserves_footage_removeLayersWhere (c : nat) (sel : Project -> Layer -> bool) :
  preserves (fun x => getFootage (project x) f = w) (removeLayersWhere env c sel).
Proof.
  unfold removeLayersWhere. apply preserves_modify. intros a Ha.
  cbn [project setProject]. now rewrite keepsFootage_updLayers.
Qed.

Lemma preserves_footage_nest (mainComp c : nat) (n : string) :
  preserves (fun x => getFootage (project x) f = w)
    (added <- addLayer env mainComp c ;;
     attempt (writeLayer env (OpSetLayerName added) mainComp added (setLname n)) ;;
     attempt (writeLayer env (OpSetStartTime added) mainComp added (setStartTime 0) ;;
              writeLayer env (OpSetOutPoint added) mainComp added
                (setOutPoint (Startup.DURATION st)))).
Proof.
  unfold addLayer, writeLayer.
  pres ltac:(first [ apply preserves_host_footage, keepsFootage_pushLayer
                   | apply preserves_host_footage, keepsFootage_updLayer ]).
Qed.

End FootageKept.

Section LayersFrom.

Variable env : Env.
Variable st : Startup.Settings.

Lemma find_app_cases {A} (sel : A -> bool) (l l' : list A) :
  List.find sel (l ++ l')
  = match List.find sel l with Some x => Some x | None => List.find sel l' end.
Proof.
  induction l as [|y l IH]; simpl; [reflexivity|].
  destruct (sel y); [reflexivity | exact IH].
Qed.

Lemma keepsOld_updComp (c : nat) (g : Comp -> Comp) :
  (forall k, layers (g k) = layers k) -> keepsOld (updComp c g).
Proof.
  intros Hg p c' t lay. unfold getLayer. rewrite getComp_updComp.
  destruct (Nat.eqb c c'); [|trivial].
  destruct (getComp p c') as [k|]; simpl; [|trivial]. now rewrite Hg.
Qed.

Lemma keepsOld_updFootage (i : nat) (g : Footage -> Footage) :
  keepsOld (updFootage i g).
Proof. intros p c t lay. now rewrite getLayer_updFootage. Qed.

Lemma keepsOld_id : keepsOld id.
Proof. intros p c t lay H. exact H. Qed.

(** A new item brings no layers when it is a footage or an empty composition. *)
Lemma keepsOld_addItem (n : string) (b : Body) :
  match b with CompItem k => layers k = [] | FootageItem _ => True end ->
  keepsOld (addItem n b).
Proof.
  intros Hb p c t lay. unfold getLayer, getComp, getItem, addItem. simpl.
  rewrite find_app_cases.
  destruct (List.find (fun it => Nat.eqb (iid it) c) (pitems p)) as [it|]; [trivial|].
  simpl. destruct (Nat.eqb (nextId p) c); [|discriminate].
  simpl. destruct b as [k|x]; [|discriminate].
  rewrite Hb. discriminate.
Qed.

Variable a : App.

Lemma preserves_from_host (op : Op) (g : Project -> Project) :
  keepsOld g -> preserves (layersFrom a) (host env op g).
Proof.
  intros Hg. apply preserves_host. intros x Hx c t lay Hl.
  apply Hx. exact (Hg _ _ _ _ Hl).
Qed.

Lemma preserves_from_writeFootage (op : Op) (i : nat) (g : Footage -> Footage) :
  preserves (layersFrom a) (writeFootage env op i g).
Proof.
  unfold writeFootage.
  pres ltac:(apply preserves_from_host, keepsOld_updFootage).
Qed.

Lemma preserves_from_ensureComp (n : string) :
  preserves (layersFrom a) (Startup.ensureComp env st n).
Proof.
  assert (Hs : forall c, preserves (layersFrom a) (Startup.syncCompSettings env st c)).
  { intros c. unfold Startup.syncCompSettings, writeComp.
    pres ltac:(apply preserves_from_host, keepsOld_updComp; intros; reflexivity). }
  unfold Startup.ensureComp, Startup.addComp.
  pres ltac:(first [ apply Hs
                   | apply preserves_from_host, keepsOld_addItem; reflexivity ]).
Qed.

Lemma preserves_from_importOrUpdateSequence (f : option string) (n : string) :
  preserves (layersFrom a) (Startup.importOrUpdateSequence env f n).
Proof.
  unfold Startup.importOrUpdateSequence, Startup.importFile, Startup.reload,
    Startup.replaceWithSequence, Startup.replace.
  pres ltac:(first [ apply preserves_from_writeFootage
                   | apply preserves_from_host, keepsOld_addItem; exact I ]).
Qed.

(** Among distinct objects, the one found after a removal was the one found
    before it. *)
Lemma find_filter_found (t : nat) (keep : Layer -> bool) (ls : list Layer) (x : Layer) :
  NoDup (map lid ls) ->
  List.find (fun y => Nat.eqb (lid y) t) (List.filter keep ls) = Some x ->
  List.find (fun y => Nat.eqb (lid y) t) ls = Some x.
Proof.
  induction ls as [|y ls IH]; intros Hnd H; simpl in *; [discriminate H|].
  inversion Hnd as [|? ? Hy Hnd']; subst.
  destruct (Nat.eqb (lid y) t) eqn:Et.
  - destruct (keep y); simpl in H.
    + now rewrite Et in H.
    + exfalso. apply Hy. apply List.find_some in H as [Hin Hx].
      apply List.filter_In in Hin as [Hin _].
      apply Nat.eqb_eq in Et, Hx. apply list_elem_of_In, in_map_iff.
      exists x. split; [congruence | exact Hin].
  - apply IH; [exact Hnd'|].
    destruct (keep y); simpl in H; [now rewrite Et in H | exact H].
Qed.

Lemma preserves_from_removeLayersWhere (c : nat) (sel : Project -> Layer -> bool)
    (x x' : App) (r : Res unit) :
  wfApp x -> layersFrom a x ->
  removeLayersWhere env c sel x = (r, x') -> layersFrom a x'.
Proof.
  intros Hwf Hx H. unfold removeLayersWhere, modify in H.
  inversion H; subst; clear H. intros c' t lay. cbn [project setProject].
  destruct (Nat.eqb_spec c c') as [<-|Hne].
  - rewrite getLayer_updLayers. intros Hl. apply Hx. unfold getLayer.
    destruct (getComp (project x) c) as [k|] eqn:Hk; [|discriminate Hl].
    apply (find_filter_found t _ _ _ (proj1 (getComp_wf _ _ _ Hwf Hk)) Hl).
  - rewrite getLayer_updLayers_other by exact Hne. apply Hx.
Qed.

(** A layer of a well-formed project is older than the next identity. *)
Lemma getLayer_old (p : Project) (c t : nat) (lay : Layer) :
  wf p -> getLayer p c t = Some lay -> t < nextId p.
Proof.
  intros Hwf Hl. unfold getLayer in Hl.
  destruct (getComp p c) as [k|] eqn:Hk; [|discriminate Hl].
  destruct (getComp_wf _ _ _ Hwf Hk) as [_ Hlt].
  pose proof (find_key lid _ _ _ Hl) as Hid.
  apply List.find_some in Hl as [Hin _].
  rewrite List.Forall_forall in Hlt. specialize (Hlt _ Hin). simpl in Hlt. lia.
Qed.

Lemma preserves_next_host (n : nat) (op : Op) (g : Project -> Project) :
  (forall p, nextId p <= nextId (g p)) -> preserves (nextFrom n) (host env op g).
Proof.
  intros Hg. apply preserves_host. intros x Hx. unfold nextFrom in *.
  cbn [project setProject]. specialize (Hg (project x)). lia.
Qed.

Lemma preserves_next_ensureComp (n : nat) (name : string) :
  preserves (nextFrom n) (Startup.ensureComp env st name).
Proof.
  unfold Startup.ensureComp, Startup.addComp, Startup.syncCompSettings, writeComp.
  pres ltac:(apply preserves_next_host; intros p; simpl; lia).
Qed.

Lemma preserves_next_importOrUpdateSequence (n : nat) (f : option string)
    (name : string) :
  preserves (nextFrom n) (Startup.importOrUpdateSequence env f name).
Proof.
  unfold Startup.importOrUpdateSequence, Startup.importFile, Startup.reload,
    Startup.replaceWithSequence, Startup.replace, writeFootage.
  pres ltac:(apply preserves_next_host; intros p; simpl; lia).
Qed.

End LayersFrom.

(** From [I] before the step [E] to [I] after it, once the script of the step
    is shown to keep [I]. *)
Ltac kept I H E P :=
  match type of E with
  | ?m ?x = (?r, ?y) =>
      assert (P : preserves I m); [|specialize (P x r y H E)]
  end.

Section RemapAfterPass.

Variable env : Env.
Variable st : Startup.Settings.

(** A layer just added shows its source without time remapping. *)
Lemma addLayer_fresh (c f : nat) (a a' : App) (l : nat) :
  addLayer env c f a = (Ok l, a') ->
  l = nextId (project a) /\ hasView remapping c l (f, false, []) a'.
Proof.
  unfold addLayer. intros H. bind_inv H.
  apply theComp_ok in E as [-> Hk].
  destruct (Nat.eqb c f); [discriminate H|].
  rewrite bind_gets in H. bind_inv H. apply host_ok in E as [_ ->].
  injection H as <- <-. split; [reflexivity|].
  exists (newLayer (project a) f). split; [|reflexivity].
  cbn [project setProject]. unfold pushLayer.
  rewrite getLayer_bumpId, getLayer_updLayers, Hk. simpl.
  now rewrite Nat.eqb_refl.
Qed.

Lemma preserves_nextId_host (n : nat) (op : Op) (g : Project -> Project) :
  (forall p, nextId (g p) = nextId p) ->
  preserves (fun x => nextId (project x) = n) (host env op g).
Proof.
  intros Hg. apply preserves_host. intros x Hx. cbn [project setProject].
  now rewrite Hg.
Qed.

(** The layer that [bindSourceLayer] returns shows the footage; it is a layer
    that was there, with the time remapping it had, or a layer just added,
    without time remapping. *)
Lemma bindSourceLayer_remapping (c f : nat) (layerName : string)
    (a a' : App) (r : option nat) :
  Startup.bindSourceLayer env c (Some f) layerName a = (Ok r, a') ->
  exists t en ks,
    r = Some t
    /\ hasView remapping c t (f, en, ks) a'
    /\ ((exists lay, getLayer (project a) c t = Some lay
                     /\ en = timeRemapEnabled lay /\ ks = remapKeys lay)
        \/ (t = nextId (project a) /\ en = false /\ ks = [])).
Proof.
  unfold Startup.bindSourceLayer. intros H. bind_inv H.
  apply theComp_ok in E as [-> Hk].
  rewrite bind_gets in H.
  destruct (Startup.findSourceLayer c layerName (project a)) as [t|].
  - bind_inv H. unfold theLayer in E.
    destruct (getLayer (project a) c t) as [lay|] eqn:Hl; [|discriminate E].
    injection E as <- <-.
    destruct (Nat.eqb (source lay) f) eqn:Hs; simpl in H.
    + injection H as <- <-. apply Nat.eqb_eq in Hs.
      exists t, (timeRemapEnabled lay), (remapKeys lay).
      split; [reflexivity|]. split.
      * exists lay. split; [exact Hl|]. unfold remapping. now rewrite Hs.
      * left. exists lay. auto.
    + unfold tryCatch in H.
      destruct (bind _ _ a) as [[y|e] a3] eqn:E2.
      * injection H as -> ->. bind_inv E2. injection E2 as <- <-.
        apply writeLayer_ok in E as (lay0 & Hl0 & ->).
        rewrite Hl in Hl0. injection Hl0 as <-.
        exists t, (timeRemapEnabled lay), (remapKeys lay).
        split; [reflexivity|]. split.
        -- exists (setSource f lay). split; [|reflexivity].
           cbn [project setProject].
           now apply (getLayer_updLayer_same c t (setSource f)).
        -- left. exists lay. auto.
      * assert (Hn : nextId (project a3) = nextId (project a)).
        { match type of E2 with ?m _ = _ =>
            assert (P : preserves (fun x => nextId (project x) = nextId (project a)) m)
          end.
          { unfold writeLayer.
            pres ltac:(apply preserves_nextId_host; intros; reflexivity). }
          exact (P _ _ _ eq_refl E2). }
        bind_inv H.
        kept (fun x => nextId (project x) = nextId (project a)) Hn E Hn'.
        { unfold removeLayer.
          pres ltac:(apply preserves_nextId_host; intros; reflexivity). }
        bind_inv H. injection H as <- <-.
        apply addLayer_fresh in E0 as [-> Hv].
        eexists _, false, []. split; [reflexivity|]. split; [exact Hv|].
        right. auto.
  - bind_inv H. injection H as <- <-.
    apply addLayer_fresh in E as [-> Hv].
    eexists _, false, []. split; [reflexivity|]. split; [exact Hv|].
    right. auto.
Qed.

(** What [configureLayer] does before the time-remap block leaves the time
    remapping of the layer as it was. *)
Lemma configureLayer_prefix (c t f : nat) (layerName : string) (sf ef : Q)
    (a a' : App) (u : unit) (v : nat * bool * list (Q * Q)) :
  hasView remapping c t v a ->
  Startup.configureLayer env st c t f layerName sf ef a = (Ok u, a') ->
  exists b, hasView remapping c t v b
            /\ Startup.remapIfNeeded env st c t f sf ef b = (Ok u, a').
Proof.
  unfold Startup.configureLayer. intros Hv H.
  assert (Hw : forall op g, (forall x, lid (g x) = lid x) ->
                 (forall x, remapping (g x) = remapping x) ->
                 preserves (hasView remapping c t v) (writeLayer env op c t g)).
  { intros op g Hid Hg. unfold writeLayer.
    pres ltac:(apply preserves_host_view, keepsView_updLayer; assumption). }
  bind_inv H.
  kept (hasView remapping c t v) Hv E H1.
  { pres ltac:(apply Hw; intros; reflexivity). }
  bind_inv H.
  kept (hasView remapping c t v) H1 E0 H2.
  { unfold writeFootage.
    pres ltac:(first [ apply preserves_host_view, keepsView_updFootage
                     | apply preserves_host_view, keepsView_id ]). }
  bind_inv H.
  kept (hasView remapping c t v) H2 E1 H3.
  { apply Hw; intros; reflexivity. }
  bind_inv H.
  kept (hasView remapping c t v) H3 E2 H4.
  { apply Hw; intros; reflexivity. }
  bind_inv H.
  kept (hasView remapping c t v) H4 E3 H5.
  { apply Hw; intros; reflexivity. }
  destruct x3. eauto.
Qed.

(** With time remapping enabled on the layer, the block does nothing. *)
Lemma remapIfNeeded_enabled (c t f : nat) (sf ef : Q) (a : App) (lay : Layer) :
  getLayer (project a) c t = Some lay ->
  timeRemapEnabled lay = true ->
  Startup.remapIfNeeded env st c t f sf ef a = (Ok tt, a).
Proof.
  intros Hl He. unfold Startup.remapIfNeeded, attempt, tryCatch.
  rewrite (bind_run _ _ _ _ _ (theLayer_run c t a lay Hl)).
  rewrite bind_gets. rewrite He, andb_false_r. reflexivity.
Qed.

(** C6, as the code has it.  Let the layers of every composition be distinct
    objects.  When a pass of the item loop ends for a shot whose footage was
    resolved, the layer [ensureSourceLayer] returned is in the child
    composition, and
    - if that layer was in the child composition before the pass with time
      remapping enabled, time remapping is still enabled and its keys are
      the keys it had before the pass, whatever the durations are;
    - otherwise (the layer is new, or time remapping was not enabled on it),
      if the footage it shows is not a still, the duration of the footage
      differs from [layerDuration] by more than 0.01 s, [first <= last], the
      frame rate is positive and the host accepts enabling time remapping,
      removing keys and setting keys on the layer, then time remapping is
      enabled and the keys are exactly [layerStartTime -> 0] and
      [layerEndTime -> footage.duration].
    The block under [canSetTimeRemapEnabled && !timeRemapEnabled] is the only
    place where the pass writes the keys. *)
Theorem remap_keys_after_reconcile
    (mainComp : nat) (it : Startup.ShotItem) (a a' : App)
    (preComp : nat) (srcLayer : option nat) :
  wf (project a) ->
  Startup.reconcile env st mainComp it a = (Ok (preComp, Startup.Bound srcLayer), a') ->
  exists l lay,
    srcLayer = Some l
    /\ getLayer (project a') preComp l = Some lay
    /\ (forall old,
          getLayer (project a) preComp l = Some old ->
          timeRemapEnabled old = true ->
          timeRemapEnabled lay = true /\ remapKeys lay = remapKeys old)
    /\ ((forall old, getLayer (project a) preComp l = Some old ->
                     timeRemapEnabled old = false) ->
        forall fo,
          getFootage (project a') (source lay) = Some fo ->
          isStill fo = false ->
          Startup.differs (fduration fo)
            (Startup.layerDuration st (Startup.first it) (Startup.last it)) = true ->
          (Startup.first it <= Startup.last it)%Q ->
          (0 < Startup.FRAME_RATE st)%Q ->
          fails env (OpSetTimeRemapEnabled l) = false ->
          fails env (OpRemoveKey l) = false ->
          fails env (OpSetValueAtTime l) = false ->
          timeRemapEnabled lay = true
          /\ remapKeys lay
             = [(Startup.layerStartTime st (Startup.first it), 0%Q);
                (Startup.layerEndTime st (Startup.first it) (Startup.last it),
                 fduration fo)]).
Proof.
  intros Hwf H. unfold Startup.reconcile in H.
  (* up to the source layer: no layer is added or changed *)
  apply bind_ok in H as (pre & s0 & E0 & H).
  pose proof (preserves_wf_ensureComp env st _ _ _ _ Hwf E0) as Hwf0.
  pose proof (preserves_from_ensureComp env st a _ _ _ _ (fun _ _ _ h => h) E0) as Hfrom0.
  pose proof (preserves_next_ensureComp env st _ _ _ _ _ (le_n (nextId (project a))) E0)
    as Hn0.
  apply bind_ok in H as (footage & s1 & E1 & H).
  pose proof (preserves_wf_importOrUpdateSequence env _ _ _ _ _ Hwf0 E1) as Hwf1.
  pose proof (preserves_from_importOrUpdateSequence env a _ _ _ _ _ Hfrom0 E1) as Hfrom1.
  pose proof (preserves_next_importOrUpdateSequence env _ _ _ _ _ _ Hn0 E1) as Hn1.
  apply bind_ok in H as (u2 & s2 & E2 & H).
  destruct footage as [f|].
  2:{ do 5 bind_inv H. inversion H. }
  kept wfApp Hwf1 E2 Hwf2.
  { pres ltac:(apply preserves_wf_writeFootage). }
  kept (layersFrom a) Hfrom1 E2 Hfrom2.
  { pres ltac:(apply preserves_from_writeFootage). }
  kept (nextFrom (nextId (project a))) Hn1 E2 Hn2.
  { unfold writeFootage. pres ltac:(apply preserves_next_host; intros p; simpl; lia). }
  apply bind_ok in H as (k2 & s2' & Ek2 & H). apply theComp_ok in Ek2 as [-> _].
  apply bind_ok in H as (u3 & s3 & E3 & H).
  pose proof (preserves_wf_removeLayersWhere env _ _ _ _ _ Hwf2 E3) as Hwf3.
  pose proof (preserves_from_removeLayersWhere env a _ _ _ _ _ Hwf2 Hfrom2 E3) as Hfrom3.
  assert (Hn3 : nextFrom (nextId (project a)) s3).
  { unfold removeLayersWhere, modify in E3. injection E3 as _ <-. exact Hn2. }
  clear E0 E1 E2 E3 Hwf0 Hwf1 Hwf2 Hfrom0 Hfrom1 Hfrom2 Hn0 Hn1 Hn2.
  (* the source layer *)
  apply bind_ok in H as (bound & s8 & Es & H).
  unfold Startup.ensureSourceLayer in Es.
  apply bind_ok in Es as (b & s5 & Eb & Es).
  destruct (bindSourceLayer_remapping _ _ _ _ _ _ Eb)
    as (l & en & ks & -> & Hv5 & Hcase).
  apply bind_ok in Es as (u6 & s7 & Ec & Es).
  destruct (configureLayer_prefix _ _ _ _ _ _ _ _ _ _ Hv5 Ec) as (s6 & Hv6 & Er).
  apply bind_ok in Es as (u8 & s8' & Ed & Es). injection Es as <- <-.
  assert (Hs7 : shows pre l f s7).
  { destruct Hv5 as (lay5 & Hl5 & Hr5).
    refine (preserves_source_configureLayer env st pre l f _ _ _ _ _ _ _ Ec).
    exists lay5. split; [exact Hl5|]. now inversion Hr5. }
  (* what follows the source layer leaves it alone *)
  apply bind_ok in H as (k & s9 & Ek & H). apply theComp_ok in Ek as [-> _].
  apply bind_ok in H as (ex & s10 & Eg & H). unfold gets in Eg. injection Eg as <- <-.
  apply bind_ok in H as (u11 & s11 & Ew & H). injection H as <- <- <-.
  assert (Htail : forall I : App -> Prop,
             preserves I
               (removeLayersWhere env pre
                  (fun p other => negb (Nat.eqb (lid other) l)
                                  && Startup.isSourceLayer (Startup.sourceLayerName it)
                                       p other)) ->
             (mainComp <> pre ->
              preserves I
                (added <- addLayer env mainComp pre ;;
                 attempt (writeLayer env (OpSetLayerName added) mainComp added
                            (setLname (Startup.preName it))) ;;
                 attempt (writeLayer env (OpSetStartTime added) mainComp added
                            (setStartTime 0) ;;
                          writeLayer env (OpSetOutPoint added) mainComp added
                            (setOutPoint (Startup.DURATION st))))) ->
             I s7 -> I s11).
  { intros I Hd Hnest H7. pose proof (Hd _ _ _ H7 Ed) as H8.
    unfold when in Ew. destruct (negb _).
    - destruct (Nat.eqb_spec mainComp pre) as [->|Hne].
      + exfalso. apply bind_ok in Ew as (added & sa & Ea & _).
        exact (addLayer_self env _ _ _ _ Ea).
      + exact (Hnest Hne _ _ _ H8 Ew).
    - injection Ew as _ <-. exact H8. }
  destruct (Htail (shows pre l f) (preserves_source_dedupe env pre l f _)
              (preserves_view_nest source env st pre l f mainComp _) Hs7)
    as (lay & Hl & Hs).
  exists l, lay. split; [reflexivity|]. split; [exact Hl|].
  destruct Hv6 as (lay6 & Hl6 & Hr6). injection Hr6 as Hs6 He6 Hk6.
  split.
  - (* enabled before the pass *)
    intros old Hold Hen.
    destruct Hcase as [(lay4 & Hl4 & -> & ->) | (-> & _ & _)].
    + apply Hfrom3 in Hl4. rewrite Hold in Hl4. injection Hl4 as <-.
      rewrite Hen in He6.
      rewrite (remapIfNeeded_enabled _ _ _ _ _ _ _ Hl6 He6) in Er.
      injection Er as _ <-.
      destruct (Htail (hasView remapping pre l (f, true, remapKeys old))
                  (preserves_view_dedupe remapping env pre l _ _)
                  (preserves_view_nest remapping env st pre l _ mainComp _))
        as (lay' & Hl' & Hr').
      { exists lay6. split; [exact Hl6|]. unfold remapping. congruence. }
      rewrite Hl in Hl'. injection Hl' as <-. injection Hr' as _ ? ?. auto.
    + exfalso. apply (getLayer_old _ _ _ _ Hwf) in Hold.
      unfold nextFrom in Hn3. lia.
  - (* not enabled before the pass *)
    intros Hall fo Hfo Hstill Hd Hle Hfr H1 H2 H3.
    assert (Hen : en = false).
    { destruct Hcase as [(lay4 & Hl4 & -> & _) | (_ & -> & _)]; [|reflexivity].
      apply Hfrom3 in Hl4. exact (Hall _ Hl4). }
    rewrite Hen in He6.
    assert (Hfo6 : getFootage (project s6) f = Some fo).
    { kept (fun x => getFootage (project x) f = getFootage (project s6) f)
           (eq_refl (getFootage (project s6) f)) Er Hf7.
      { apply preserves_footage_remapIfNeeded. }
      pose proof (Htail (fun x => getFootage (project x) f = getFootage (project s6) f)
                    (preserves_footage_removeLayersWhere env f _ pre _)
                    (fun _ => preserves_footage_nest env st f _ mainComp pre _) Hf7)
        as Hf'.
      simpl in Hf'. rewrite <- Hf'. now rewrite <- Hs. }
    destruct (remapIfNeeded_rebuilds env st pre l f _ _ s6 lay6 fo Hl6 Hfo6 Hle Hfr Hd)
      as (s7' & Hrun & Hres).
    { rewrite He6, H1, H2, H3. simpl. rewrite !andb_true_r.
      unfold canSetTimeRemapEnabled. rewrite Hs6.
      unfold getFootage in Hfo6. destruct (getItem (project s6) f) as [i|];
        [|discriminate Hfo6].
      destruct (body i); [discriminate Hfo6|]. injection Hfo6 as ->. now rewrite Hstill. }
    rewrite Hrun in Er. injection Er as _ <-.
    rewrite He6 in Hres. destruct Hres as (lay7 & Hl7 & He7 & Hk7).
    destruct Hs7 as (lay7' & Hl7' & Hsrc). rewrite Hl7 in Hl7'. injection Hl7' as <-.
    destruct (Htail (hasView remapping pre l (f, true, remapKeys lay7))
                (preserves_view_dedupe remapping env pre l _ _)
                (preserves_view_nest remapping env st pre l _ mainComp _))
      as (lay' & Hl' & Hr').
    { exists lay7. split; [exact Hl7|]. unfold remapping. congruence. }
    rewrite Hl in Hl'. injection Hl' as <-. injection Hr' as _ ? ?.
    split; [assumption|]. congruence.
Qed.

End RemapAfterPass.

Lemma remap_keys_after_reconcile_witness :
  exists lay fo,
    getLayer (project Scenario.ensured) 2 4 = None
    /\ getLayer (project Scenario.nestedOnce) 2 4 = Some lay
    /\ getFootage (project Scenario.nestedOnce) (source lay) = Some fo
    /\ timeRemapEnabled lay = true
    /\ remapKeys lay
       = [(Startup.layerStartTime Scenario.shotSettings 1001, 0%Q);
          (Startup.layerEndTime Scenario.shotSettings 1001 1100, fduration fo)].
Proof.
  destruct (remap_keys_after_reconcile Scenario.allFiles Scenario.shotSettings 1
              Scenario.beautyShot Scenario.ensured Scenario.nestedOnce 2 (Some 4))
    as (l & lay & Hl & Hlay & _ & Hnew).
  - vm_compute. repeat first [ constructor | intros Hin; inversion Hin; fail ].
  - vm_compute. reflexivity.
  - injection Hl as <-.
    assert (Hfo : exists fo,
               getFootage (project Scenario.nestedOnce) (source lay) = Some fo).
    { vm_compute in Hlay. injection Hlay as <-. eexists. vm_compute. reflexivity. }
    destruct Hfo as (fo & Hfo). exists lay, fo.
    split; [vm_compute; reflexivity|]. split; [exact Hlay|]. split; [exact Hfo|].
    apply (Hnew ltac:(intros old Hold; vm_compute in Hold; discriminate Hold) fo Hfo);
      try reflexivity.
    + vm_compute in Hlay. injection Hlay as <-. vm_compute in Hfo.
      injection Hfo as <-. reflexivity.
    + vm_compute in Hlay. injection Hlay as <-. vm_compute in Hfo.
      injection Hfo as <-. vm_compute. reflexivity.
    + vm_compute. discriminate.
Defined.

(** C6, as the claim has it, fails.  The first run enabled time remapping
    and set the keys for a layer of 100 frames, at 0 s and 100/24 s.  The
    second run has the shot end at frame 1150 instead of 1100.  The layer
    starts at 0 s as before and now ends at 150/24 s; the footage, 2 s long
    and not a still, differs from the 150/24 s of the layer by more than
    0.01 s; the host refuses nothing.  Time remapping being enabled already,
    the block is skipped: the keys of the first run stay, the second at
    100/24 s, and no key is at [layerEndTime].  The same holds of the whole
    run of the script. *)
Lemma stale_remap_keys_survive_rerun :
  Startup.reconcile Scenario.allFiles (Scenario.beautySettings 1001) 1
    Scenario.longerShot Scenario.foundOnce
  = (Ok (2, Startup.Bound (Some 4)), Scenario.reconciledLonger)
  /\ (exists lay fo,
        getLayer (project Scenario.reconciledLonger) 2 4 = Some lay
        /\ getFootage (project Scenario.reconciledLonger) (source lay) = Some fo
        /\ isStill fo = false
        /\ Qred (fduration fo) = 2 # 1
        /\ Startup.differs (fduration fo)
             (Startup.layerDuration (Scenario.beautySettings 1001) 1001 1150) = true
        /\ Qred (Startup.layerStartTime (Scenario.beautySettings 1001) 1001) = 0 # 1
        /\ Qred (Startup.layerEndTime (Scenario.beautySettings 1001) 1001 1150) = 25 # 4
        /\ Qred (startTime lay) = 0 # 1
        /\ Qred (outPoint lay) = 25 # 4
        /\ timeRemapEnabled lay = true
        /\ map (fun k => (Qred (fst k), Qred (snd k))) (remapKeys lay)
           = [(0 # 1, 0 # 1); (25 # 6, 2 # 1)]
        /\ ~ (exists k, In k (remapKeys lay)
                        /\ (fst k == Startup.layerEndTime (Scenario.beautySettings 1001)
                                       1001 1150)%Q))
  /\ Scenario.startup Scenario.allFiles Scenario.longer Scenario.foundOnce
     = Some Scenario.foundThenLonger
  /\ map (fun l => (timeRemapEnabled l, Qred (outPoint l),
                    map (fun k => (Qred (fst k), Qred (snd k))) (remapKeys l)))
         (Scenario.layersOf "[AEBridge]_beauty" (project Scenario.foundThenLonger))
     = [(true, 25 # 4, [(0 # 1, 0 # 1); (25 # 6, 2 # 1)])].
Proof.
  split; [vm_compute; reflexivity|]. split.
  - do 2 eexists. split; [vm_compute; reflexivity|].
    split; [vm_compute; reflexivity|].
    repeat apply conj; try (vm_compute; reflexivity).
    intros (k & Hin & Hq). vm_compute in Hin.
    destruct Hin as [<-|[<-|[]]]; vm_compute in Hq; discriminate Hq.
  - split; vm_compute; reflexivity.
Qed.
